(** * normalize_bib_abnt: a shallow embedding of tools/normalize_bib_abnt.py

    The script normalises the records of a BibTeX file to the ABNT style:
    it splits the text into entries, parses each entry into
    (type, key, fields, unknown lines), rewrites the fields, orders them,
    drops duplicates by fingerprint and rebuilds the text.

    Layout of this file:
    - [Py]: Python's [str] as a list of code points, with the string
      methods the script calls;
    - [Re]: a backtracking matcher for the fragment of Python's [re] the
      script's patterns are written in, with [search], [sub] and [split];
    - the script's functions, under their own names;
    - the properties proved about them. *)

From Stdlib Require Import List NArith ZArith Bool Lia String Ascii.
Import ListNotations.

Set Implicit Arguments.

(* ================================================================== *)
(** ** Python strings *)
(* ================================================================== *)

Module Py.

(** A Python [str] is a sequence of Unicode code points. *)
Definition char := N.
Definition str := list char.

Fixpoint eqb (a b : str) : bool :=
  match a, b with
  | [], [] => true
  | x :: a', y :: b' => N.eqb x y && eqb a' b'
  | _, _ => false
  end.

(** *** Literals

    String literals of this file are UTF-8 text; [lit] decodes them into
    code points.  It is only ever applied to the literals below. *)

Fixpoint utf8_decode (bs : list N) : str :=
  match bs with
  | [] => []
  | b :: tl =>
      if N.ltb b 128 then b :: utf8_decode tl
      else if N.ltb b 224 then
        match tl with
        | b2 :: tl2 =>
            (N.land b 31 * 64 + N.land b2 63)%N :: utf8_decode tl2
        | _ => [b]
        end
      else if N.ltb b 240 then
        match tl with
        | b2 :: b3 :: tl3 =>
            (N.land b 15 * 4096 + N.land b2 63 * 64 + N.land b3 63)%N
              :: utf8_decode tl3
        | _ => [b]
        end
      else
        match tl with
        | b2 :: b3 :: b4 :: tl4 =>
            (N.land b 7 * 262144 + N.land b2 63 * 4096
             + N.land b3 63 * 64 + N.land b4 63)%N :: utf8_decode tl4
        | _ => [b]
        end
  end.

Definition lit (s : string) : str :=
  utf8_decode (map N_of_ascii (list_ascii_of_string s)).

(** *** The Unicode character database

    The properties of characters the script depends on (white space, line
    breaks, decimal digits, alphanumerics, case mappings) are tabulated
    for every code point, from version 14.0.0 of the Unicode character
    database, the one CPython 3.11 carries.  The tables are sorted; the
    Basic Latin and Latin-1 Supplement blocks, which hold every character
    of the script's own literals and patterns, are decided by comparisons
    before any table is searched. *)

Definition in_range (lo hi c : N) : bool := N.leb lo c && N.leb c hi.

(** Membership in a sorted table of ranges [(lo, hi)]. *)
Fixpoint in_table (tbl : list (N * N)) (c : N) : bool :=
  match tbl with
  | [] => false
  | (lo, hi) :: tl =>
      if N.ltb c lo then false
      else if N.leb c hi then true
      else in_table tl c
  end.

(** Look-up in a sorted table of runs [(lo, hi, step, dst)]: the code
    points [lo], [lo + step], ... up to [hi] are mapped to [dst],
    [dst + step], ... *)
Fixpoint in_runs (tbl : list (N * N * N * N)) (c : N) : option N :=
  match tbl with
  | [] => None
  | (lo, hi, step, dst) :: tl =>
      if N.ltb c lo then None
      else if N.leb c hi then
        if N.eqb (N.modulo (c - lo) step) 0 then Some (dst + (c - lo))%N
        else None
      else in_runs tl c
  end.

Fixpoint assoc (tbl : list (N * list N)) (c : N) : option (list N) :=
  match tbl with
  | [] => None
  | (k, v) :: tl => if N.eqb c k then Some v else assoc tl c
  end.

(** The simple lower-case mappings above U+00FF. *)
Definition lower_table : list (N * N * N * N) :=
  [
   (256, 302, 2, 257); (304, 304, 1, 105); (306, 310, 2, 307); (313, 327, 2, 314);
   (330, 374, 2, 331); (376, 376, 1, 255); (377, 381, 2, 378); (385, 385, 1, 595);
   (386, 388, 2, 387); (390, 390, 1, 596); (391, 391, 1, 392); (393, 394, 1, 598);
   (395, 395, 1, 396); (398, 398, 1, 477); (399, 399, 1, 601); (400, 400, 1, 603);
   (401, 401, 1, 402); (403, 403, 1, 608); (404, 404, 1, 611); (406, 406, 1, 617);
   (407, 407, 1, 616); (408, 408, 1, 409); (412, 412, 1, 623); (413, 413, 1, 626);
   (415, 415, 1, 629); (416, 420, 2, 417); (422, 422, 1, 640); (423, 423, 1, 424);
   (425, 425, 1, 643); (428, 428, 1, 429); (430, 430, 1, 648); (431, 431, 1, 432);
   (433, 434, 1, 650); (435, 437, 2, 436); (439, 439, 1, 658); (440, 440, 1, 441);
   (444, 444, 1, 445); (452, 452, 1, 454); (453, 453, 1, 454); (455, 455, 1, 457);
   (456, 456, 1, 457); (458, 458, 1, 460); (459, 475, 2, 460); (478, 494, 2, 479);
   (497, 497, 1, 499); (498, 500, 2, 499); (502, 502, 1, 405); (503, 503, 1, 447);
   (504, 542, 2, 505); (544, 544, 1, 414); (546, 562, 2, 547); (570, 570, 1, 11365);
   (571, 571, 1, 572); (573, 573, 1, 410); (574, 574, 1, 11366); (577, 577, 1, 578);
   (579, 579, 1, 384); (580, 580, 1, 649); (581, 581, 1, 652); (582, 590, 2, 583);
   (880, 882, 2, 881); (886, 886, 1, 887); (895, 895, 1, 1011); (902, 902, 1, 940);
   (904, 906, 1, 941); (908, 908, 1, 972); (910, 911, 1, 973); (913, 929, 1, 945);
   (931, 939, 1, 963); (975, 975, 1, 983); (984, 1006, 2, 985); (1012, 1012, 1, 952);
   (1015, 1015, 1, 1016); (1017, 1017, 1, 1010); (1018, 1018, 1, 1019); (1021, 1023, 1, 891);
   (1024, 1039, 1, 1104); (1040, 1071, 1, 1072); (1120, 1152, 2, 1121); (1162, 1214, 2, 1163);
   (1216, 1216, 1, 1231); (1217, 1229, 2, 1218); (1232, 1326, 2, 1233); (1329, 1366, 1, 1377);
   (4256, 4293, 1, 11520); (4295, 4295, 1, 11559); (4301, 4301, 1, 11565); (5024, 5103, 1, 43888);
   (5104, 5109, 1, 5112); (7312, 7354, 1, 4304); (7357, 7359, 1, 4349); (7680, 7828, 2, 7681);
   (7838, 7838, 1, 223); (7840, 7934, 2, 7841); (7944, 7951, 1, 7936); (7960, 7965, 1, 7952);
   (7976, 7983, 1, 7968); (7992, 7999, 1, 7984); (8008, 8013, 1, 8000); (8025, 8031, 2, 8017);
   (8040, 8047, 1, 8032); (8072, 8079, 1, 8064); (8088, 8095, 1, 8080); (8104, 8111, 1, 8096);
   (8120, 8121, 1, 8112); (8122, 8123, 1, 8048); (8124, 8124, 1, 8115); (8136, 8139, 1, 8050);
   (8140, 8140, 1, 8131); (8152, 8153, 1, 8144); (8154, 8155, 1, 8054); (8168, 8169, 1, 8160);
   (8170, 8171, 1, 8058); (8172, 8172, 1, 8165); (8184, 8185, 1, 8056); (8186, 8187, 1, 8060);
   (8188, 8188, 1, 8179); (8486, 8486, 1, 969); (8490, 8490, 1, 107); (8491, 8491, 1, 229);
   (8498, 8498, 1, 8526); (8544, 8559, 1, 8560); (8579, 8579, 1, 8580); (9398, 9423, 1, 9424);
   (11264, 11311, 1, 11312); (11360, 11360, 1, 11361); (11362, 11362, 1, 619); (11363, 11363, 1, 7549);
   (11364, 11364, 1, 637); (11367, 11371, 2, 11368); (11373, 11373, 1, 593); (11374, 11374, 1, 625);
   (11375, 11375, 1, 592); (11376, 11376, 1, 594); (11378, 11378, 1, 11379); (11381, 11381, 1, 11382);
   (11390, 11391, 1, 575); (11392, 11490, 2, 11393); (11499, 11501, 2, 11500); (11506, 11506, 1, 11507);
   (42560, 42604, 2, 42561); (42624, 42650, 2, 42625); (42786, 42798, 2, 42787); (42802, 42862, 2, 42803);
   (42873, 42875, 2, 42874); (42877, 42877, 1, 7545); (42878, 42886, 2, 42879); (42891, 42891, 1, 42892);
   (42893, 42893, 1, 613); (42896, 42898, 2, 42897); (42902, 42920, 2, 42903); (42922, 42922, 1, 614);
   (42923, 42923, 1, 604); (42924, 42924, 1, 609); (42925, 42925, 1, 620); (42926, 42926, 1, 618);
   (42928, 42928, 1, 670); (42929, 42929, 1, 647); (42930, 42930, 1, 669); (42931, 42931, 1, 43859);
   (42932, 42946, 2, 42933); (42948, 42948, 1, 42900); (42949, 42949, 1, 642); (42950, 42950, 1, 7566);
   (42951, 42953, 2, 42952); (42960, 42960, 1, 42961); (42966, 42968, 2, 42967); (42997, 42997, 1, 42998);
   (65313, 65338, 1, 65345); (66560, 66599, 1, 66600); (66736, 66771, 1, 66776); (66928, 66938, 1, 66967);
   (66940, 66954, 1, 66979); (66956, 66962, 1, 66995); (66964, 66965, 1, 67003); (68736, 68786, 1, 68800);
   (71840, 71871, 1, 71872); (93760, 93791, 1, 93792); (125184, 125217, 1, 125218)
  ]%N.

(** The upper-case mappings above U+00FF that give one character. *)
Definition upper_table : list (N * N * N * N) :=
  [
   (257, 303, 2, 256); (305, 305, 1, 73); (307, 311, 2, 306); (314, 328, 2, 313);
   (331, 375, 2, 330); (378, 382, 2, 377); (383, 383, 1, 83); (384, 384, 1, 579);
   (387, 389, 2, 386); (392, 392, 1, 391); (396, 396, 1, 395); (402, 402, 1, 401);
   (405, 405, 1, 502); (409, 409, 1, 408); (410, 410, 1, 573); (414, 414, 1, 544);
   (417, 421, 2, 416); (424, 424, 1, 423); (429, 429, 1, 428); (432, 432, 1, 431);
   (436, 438, 2, 435); (441, 441, 1, 440); (445, 445, 1, 444); (447, 447, 1, 503);
   (453, 453, 1, 452); (454, 454, 1, 452); (456, 456, 1, 455); (457, 457, 1, 455);
   (459, 459, 1, 458); (460, 460, 1, 458); (462, 476, 2, 461); (477, 477, 1, 398);
   (479, 495, 2, 478); (498, 498, 1, 497); (499, 499, 1, 497); (501, 501, 1, 500);
   (505, 543, 2, 504); (547, 563, 2, 546); (572, 572, 1, 571); (575, 576, 1, 11390);
   (578, 578, 1, 577); (583, 591, 2, 582); (592, 592, 1, 11375); (593, 593, 1, 11373);
   (594, 594, 1, 11376); (595, 595, 1, 385); (596, 596, 1, 390); (598, 599, 1, 393);
   (601, 601, 1, 399); (603, 603, 1, 400); (604, 604, 1, 42923); (608, 608, 1, 403);
   (609, 609, 1, 42924); (611, 611, 1, 404); (613, 613, 1, 42893); (614, 614, 1, 42922);
   (616, 616, 1, 407); (617, 617, 1, 406); (618, 618, 1, 42926); (619, 619, 1, 11362);
   (620, 620, 1, 42925); (623, 623, 1, 412); (625, 625, 1, 11374); (626, 626, 1, 413);
   (629, 629, 1, 415); (637, 637, 1, 11364); (640, 640, 1, 422); (642, 642, 1, 42949);
   (643, 643, 1, 425); (647, 647, 1, 42929); (648, 648, 1, 430); (649, 649, 1, 580);
   (650, 651, 1, 433); (652, 652, 1, 581); (658, 658, 1, 439); (669, 669, 1, 42930);
   (670, 670, 1, 42928); (837, 837, 1, 921); (881, 883, 2, 880); (887, 887, 1, 886);
   (891, 893, 1, 1021); (940, 940, 1, 902); (941, 943, 1, 904); (945, 961, 1, 913);
   (962, 962, 1, 931); (963, 971, 1, 931); (972, 972, 1, 908); (973, 974, 1, 910);
   (976, 976, 1, 914); (977, 977, 1, 920); (981, 981, 1, 934); (982, 982, 1, 928);
   (983, 983, 1, 975); (985, 1007, 2, 984); (1008, 1008, 1, 922); (1009, 1009, 1, 929);
   (1010, 1010, 1, 1017); (1011, 1011, 1, 895); (1013, 1013, 1, 917); (1016, 1016, 1, 1015);
   (1019, 1019, 1, 1018); (1072, 1103, 1, 1040); (1104, 1119, 1, 1024); (1121, 1153, 2, 1120);
   (1163, 1215, 2, 1162); (1218, 1230, 2, 1217); (1231, 1231, 1, 1216); (1233, 1327, 2, 1232);
   (1377, 1414, 1, 1329); (4304, 4346, 1, 7312); (4349, 4351, 1, 7357); (5112, 5117, 1, 5104);
   (7296, 7296, 1, 1042); (7297, 7297, 1, 1044); (7298, 7298, 1, 1054); (7299, 7300, 1, 1057);
   (7301, 7301, 1, 1058); (7302, 7302, 1, 1066); (7303, 7303, 1, 1122); (7304, 7304, 1, 42570);
   (7545, 7545, 1, 42877); (7549, 7549, 1, 11363); (7566, 7566, 1, 42950); (7681, 7829, 2, 7680);
   (7835, 7835, 1, 7776); (7841, 7935, 2, 7840); (7936, 7943, 1, 7944); (7952, 7957, 1, 7960);
   (7968, 7975, 1, 7976); (7984, 7991, 1, 7992); (8000, 8005, 1, 8008); (8017, 8023, 2, 8025);
   (8032, 8039, 1, 8040); (8048, 8049, 1, 8122); (8050, 8053, 1, 8136); (8054, 8055, 1, 8154);
   (8056, 8057, 1, 8184); (8058, 8059, 1, 8170); (8060, 8061, 1, 8186); (8112, 8113, 1, 8120);
   (8126, 8126, 1, 921); (8144, 8145, 1, 8152); (8160, 8161, 1, 8168); (8165, 8165, 1, 8172);
   (8526, 8526, 1, 8498); (8560, 8575, 1, 8544); (8580, 8580, 1, 8579); (9424, 9449, 1, 9398);
   (11312, 11359, 1, 11264); (11361, 11361, 1, 11360); (11365, 11365, 1, 570); (11366, 11366, 1, 574);
   (11368, 11372, 2, 11367); (11379, 11379, 1, 11378); (11382, 11382, 1, 11381); (11393, 11491, 2, 11392);
   (11500, 11502, 2, 11499); (11507, 11507, 1, 11506); (11520, 11557, 1, 4256); (11559, 11559, 1, 4295);
   (11565, 11565, 1, 4301); (42561, 42605, 2, 42560); (42625, 42651, 2, 42624); (42787, 42799, 2, 42786);
   (42803, 42863, 2, 42802); (42874, 42876, 2, 42873); (42879, 42887, 2, 42878); (42892, 42892, 1, 42891);
   (42897, 42899, 2, 42896); (42900, 42900, 1, 42948); (42903, 42921, 2, 42902); (42933, 42947, 2, 42932);
   (42952, 42954, 2, 42951); (42961, 42961, 1, 42960); (42967, 42969, 2, 42966); (42998, 42998, 1, 42997);
   (43859, 43859, 1, 42931); (43888, 43967, 1, 5024); (65345, 65370, 1, 65313); (66600, 66639, 1, 66560);
   (66776, 66811, 1, 66736); (66967, 66977, 1, 66928); (66979, 66993, 1, 66940); (66995, 67001, 1, 66956);
   (67003, 67004, 1, 66964); (68800, 68850, 1, 68736); (71872, 71903, 1, 71840); (93792, 93823, 1, 93760);
   (125218, 125251, 1, 125184)
  ]%N.

(** The upper-case mappings above U+00FF that give several characters. *)
Definition upper_special : list (N * list N) :=
  [
   (329, [700; 78]); (496, [74; 780]); (912, [921; 776; 769]);
   (944, [933; 776; 769]); (1415, [1333; 1362]); (7830, [72; 817]);
   (7831, [84; 776]); (7832, [87; 778]); (7833, [89; 778]);
   (7834, [65; 702]); (8016, [933; 787]); (8018, [933; 787; 768]);
   (8020, [933; 787; 769]); (8022, [933; 787; 834]); (8064, [7944; 921]);
   (8065, [7945; 921]); (8066, [7946; 921]); (8067, [7947; 921]);
   (8068, [7948; 921]); (8069, [7949; 921]); (8070, [7950; 921]);
   (8071, [7951; 921]); (8072, [7944; 921]); (8073, [7945; 921]);
   (8074, [7946; 921]); (8075, [7947; 921]); (8076, [7948; 921]);
   (8077, [7949; 921]); (8078, [7950; 921]); (8079, [7951; 921]);
   (8080, [7976; 921]); (8081, [7977; 921]); (8082, [7978; 921]);
   (8083, [7979; 921]); (8084, [7980; 921]); (8085, [7981; 921]);
   (8086, [7982; 921]); (8087, [7983; 921]); (8088, [7976; 921]);
   (8089, [7977; 921]); (8090, [7978; 921]); (8091, [7979; 921]);
   (8092, [7980; 921]); (8093, [7981; 921]); (8094, [7982; 921]);
   (8095, [7983; 921]); (8096, [8040; 921]); (8097, [8041; 921]);
   (8098, [8042; 921]); (8099, [8043; 921]); (8100, [8044; 921]);
   (8101, [8045; 921]); (8102, [8046; 921]); (8103, [8047; 921]);
   (8104, [8040; 921]); (8105, [8041; 921]); (8106, [8042; 921]);
   (8107, [8043; 921]); (8108, [8044; 921]); (8109, [8045; 921]);
   (8110, [8046; 921]); (8111, [8047; 921]); (8114, [8122; 921]);
   (8115, [913; 921]); (8116, [902; 921]); (8118, [913; 834]);
   (8119, [913; 834; 921]); (8124, [913; 921]); (8130, [8138; 921]);
   (8131, [919; 921]); (8132, [905; 921]); (8134, [919; 834]);
   (8135, [919; 834; 921]); (8140, [919; 921]); (8146, [921; 776; 768]);
   (8147, [921; 776; 769]); (8150, [921; 834]); (8151, [921; 776; 834]);
   (8162, [933; 776; 768]); (8163, [933; 776; 769]); (8164, [929; 787]);
   (8166, [933; 834]); (8167, [933; 776; 834]); (8178, [8186; 921]);
   (8179, [937; 921]); (8180, [911; 921]); (8182, [937; 834]);
   (8183, [937; 834; 921]); (8188, [937; 921]); (64256, [70; 70]);
   (64257, [70; 73]); (64258, [70; 76]); (64259, [70; 70; 73]);
   (64260, [70; 70; 76]); (64261, [83; 84]); (64262, [83; 84]);
   (64275, [1348; 1350]); (64276, [1348; 1333]); (64277, [1348; 1339]);
   (64278, [1358; 1350]); (64279, [1348; 1341])
  ]%N.

(** Cased characters that are not case-ignorable. *)
Definition cased_table : list (N * N) :=
  [
   (65, 90); (97, 122); (170, 170); (181, 181); (186, 186); (192, 214);
   (216, 246); (248, 442); (444, 447); (452, 659); (661, 687); (880, 883);
   (886, 887); (891, 893); (895, 895); (902, 902); (904, 906); (908, 908);
   (910, 929); (931, 1013); (1015, 1153); (1162, 1327); (1329, 1366); (1376, 1416);
   (4256, 4293); (4295, 4295); (4301, 4301); (4304, 4346); (4349, 4351); (5024, 5109);
   (5112, 5117); (7296, 7304); (7312, 7354); (7357, 7359); (7424, 7467); (7531, 7543);
   (7545, 7578); (7680, 7957); (7960, 7965); (7968, 8005); (8008, 8013); (8016, 8023);
   (8025, 8025); (8027, 8027); (8029, 8029); (8031, 8061); (8064, 8116); (8118, 8124);
   (8126, 8126); (8130, 8132); (8134, 8140); (8144, 8147); (8150, 8155); (8160, 8172);
   (8178, 8180); (8182, 8188); (8450, 8450); (8455, 8455); (8458, 8467); (8469, 8469);
   (8473, 8477); (8484, 8484); (8486, 8486); (8488, 8488); (8490, 8493); (8495, 8500);
   (8505, 8505); (8508, 8511); (8517, 8521); (8526, 8526); (8544, 8575); (8579, 8580);
   (9398, 9449); (11264, 11387); (11390, 11492); (11499, 11502); (11506, 11507); (11520, 11557);
   (11559, 11559); (11565, 11565); (42560, 42605); (42624, 42651); (42786, 42863); (42865, 42887);
   (42891, 42894); (42896, 42954); (42960, 42961); (42963, 42963); (42965, 42969); (42997, 42998);
   (43002, 43002); (43824, 43866); (43872, 43880); (43888, 43967); (64256, 64262); (64275, 64279);
   (65313, 65338); (65345, 65370); (66560, 66639); (66736, 66771); (66776, 66811); (66928, 66938);
   (66940, 66954); (66956, 66962); (66964, 66965); (66967, 66977); (66979, 66993); (66995, 67001);
   (67003, 67004); (68736, 68786); (68800, 68850); (71840, 71903); (93760, 93823); (119808, 119892);
   (119894, 119964); (119966, 119967); (119970, 119970); (119973, 119974); (119977, 119980); (119982, 119993);
   (119995, 119995); (119997, 120003); (120005, 120069); (120071, 120074); (120077, 120084); (120086, 120092);
   (120094, 120121); (120123, 120126); (120128, 120132); (120134, 120134); (120138, 120144); (120146, 120485);
   (120488, 120512); (120514, 120538); (120540, 120570); (120572, 120596); (120598, 120628); (120630, 120654);
   (120656, 120686); (120688, 120712); (120714, 120744); (120746, 120770); (120772, 120779); (122624, 122633);
   (122635, 122654); (125184, 125251); (127280, 127305); (127312, 127337); (127344, 127369)
  ]%N.

(** Case-ignorable characters. *)
Definition case_ignorable_table : list (N * N) :=
  [
   (39, 39); (46, 46); (58, 58); (94, 94); (96, 96); (168, 168);
   (173, 173); (175, 175); (180, 180); (183, 184); (688, 879); (884, 885);
   (890, 890); (900, 901); (903, 903); (1155, 1161); (1369, 1369); (1375, 1375);
   (1425, 1469); (1471, 1471); (1473, 1474); (1476, 1477); (1479, 1479); (1524, 1524);
   (1536, 1541); (1552, 1562); (1564, 1564); (1600, 1600); (1611, 1631); (1648, 1648);
   (1750, 1757); (1759, 1768); (1770, 1773); (1807, 1807); (1809, 1809); (1840, 1866);
   (1958, 1968); (2027, 2037); (2042, 2042); (2045, 2045); (2070, 2093); (2137, 2139);
   (2184, 2184); (2192, 2193); (2200, 2207); (2249, 2306); (2362, 2362); (2364, 2364);
   (2369, 2376); (2381, 2381); (2385, 2391); (2402, 2403); (2417, 2417); (2433, 2433);
   (2492, 2492); (2497, 2500); (2509, 2509); (2530, 2531); (2558, 2558); (2561, 2562);
   (2620, 2620); (2625, 2626); (2631, 2632); (2635, 2637); (2641, 2641); (2672, 2673);
   (2677, 2677); (2689, 2690); (2748, 2748); (2753, 2757); (2759, 2760); (2765, 2765);
   (2786, 2787); (2810, 2815); (2817, 2817); (2876, 2876); (2879, 2879); (2881, 2884);
   (2893, 2893); (2901, 2902); (2914, 2915); (2946, 2946); (3008, 3008); (3021, 3021);
   (3072, 3072); (3076, 3076); (3132, 3132); (3134, 3136); (3142, 3144); (3146, 3149);
   (3157, 3158); (3170, 3171); (3201, 3201); (3260, 3260); (3263, 3263); (3270, 3270);
   (3276, 3277); (3298, 3299); (3328, 3329); (3387, 3388); (3393, 3396); (3405, 3405);
   (3426, 3427); (3457, 3457); (3530, 3530); (3538, 3540); (3542, 3542); (3633, 3633);
   (3636, 3642); (3654, 3662); (3761, 3761); (3764, 3772); (3782, 3782); (3784, 3789);
   (3864, 3865); (3893, 3893); (3895, 3895); (3897, 3897); (3953, 3966); (3968, 3972);
   (3974, 3975); (3981, 3991); (3993, 4028); (4038, 4038); (4141, 4144); (4146, 4151);
   (4153, 4154); (4157, 4158); (4184, 4185); (4190, 4192); (4209, 4212); (4226, 4226);
   (4229, 4230); (4237, 4237); (4253, 4253); (4348, 4348); (4957, 4959); (5906, 5908);
   (5938, 5939); (5970, 5971); (6002, 6003); (6068, 6069); (6071, 6077); (6086, 6086);
   (6089, 6099); (6103, 6103); (6109, 6109); (6155, 6159); (6211, 6211); (6277, 6278);
   (6313, 6313); (6432, 6434); (6439, 6440); (6450, 6450); (6457, 6459); (6679, 6680);
   (6683, 6683); (6742, 6742); (6744, 6750); (6752, 6752); (6754, 6754); (6757, 6764);
   (6771, 6780); (6783, 6783); (6823, 6823); (6832, 6862); (6912, 6915); (6964, 6964);
   (6966, 6970); (6972, 6972); (6978, 6978); (7019, 7027); (7040, 7041); (7074, 7077);
   (7080, 7081); (7083, 7085); (7142, 7142); (7144, 7145); (7149, 7149); (7151, 7153);
   (7212, 7219); (7222, 7223); (7288, 7293); (7376, 7378); (7380, 7392); (7394, 7400);
   (7405, 7405); (7412, 7412); (7416, 7417); (7468, 7530); (7544, 7544); (7579, 7679);
   (8125, 8125); (8127, 8129); (8141, 8143); (8157, 8159); (8173, 8175); (8189, 8190);
   (8203, 8207); (8216, 8217); (8228, 8228); (8231, 8231); (8234, 8238); (8288, 8292);
   (8294, 8303); (8305, 8305); (8319, 8319); (8336, 8348); (8400, 8432); (11388, 11389);
   (11503, 11505); (11631, 11631); (11647, 11647); (11744, 11775); (11823, 11823); (12293, 12293);
   (12330, 12333); (12337, 12341); (12347, 12347); (12441, 12446); (12540, 12542); (40981, 40981);
   (42232, 42237); (42508, 42508); (42607, 42610); (42612, 42621); (42623, 42623); (42652, 42655);
   (42736, 42737); (42752, 42785); (42864, 42864); (42888, 42890); (42994, 42996); (43000, 43001);
   (43010, 43010); (43014, 43014); (43019, 43019); (43045, 43046); (43052, 43052); (43204, 43205);
   (43232, 43249); (43263, 43263); (43302, 43309); (43335, 43345); (43392, 43394); (43443, 43443);
   (43446, 43449); (43452, 43453); (43471, 43471); (43493, 43494); (43561, 43566); (43569, 43570);
   (43573, 43574); (43587, 43587); (43596, 43596); (43632, 43632); (43644, 43644); (43696, 43696);
   (43698, 43700); (43703, 43704); (43710, 43711); (43713, 43713); (43741, 43741); (43756, 43757);
   (43763, 43764); (43766, 43766); (43867, 43871); (43881, 43883); (44005, 44005); (44008, 44008);
   (44013, 44013); (64286, 64286); (64434, 64450); (65024, 65039); (65043, 65043); (65056, 65071);
   (65106, 65106); (65109, 65109); (65279, 65279); (65287, 65287); (65294, 65294); (65306, 65306);
   (65342, 65342); (65344, 65344); (65392, 65392); (65438, 65439); (65507, 65507); (65529, 65531);
   (66045, 66045); (66272, 66272); (66422, 66426); (67456, 67461); (67463, 67504); (67506, 67514);
   (68097, 68099); (68101, 68102); (68108, 68111); (68152, 68154); (68159, 68159); (68325, 68326);
   (68900, 68903); (69291, 69292); (69446, 69456); (69506, 69509); (69633, 69633); (69688, 69702);
   (69744, 69744); (69747, 69748); (69759, 69761); (69811, 69814); (69817, 69818); (69821, 69821);
   (69826, 69826); (69837, 69837); (69888, 69890); (69927, 69931); (69933, 69940); (70003, 70003);
   (70016, 70017); (70070, 70078); (70089, 70092); (70095, 70095); (70191, 70193); (70196, 70196);
   (70198, 70199); (70206, 70206); (70367, 70367); (70371, 70378); (70400, 70401); (70459, 70460);
   (70464, 70464); (70502, 70508); (70512, 70516); (70712, 70719); (70722, 70724); (70726, 70726);
   (70750, 70750); (70835, 70840); (70842, 70842); (70847, 70848); (70850, 70851); (71090, 71093);
   (71100, 71101); (71103, 71104); (71132, 71133); (71219, 71226); (71229, 71229); (71231, 71232);
   (71339, 71339); (71341, 71341); (71344, 71349); (71351, 71351); (71453, 71455); (71458, 71461);
   (71463, 71467); (71727, 71735); (71737, 71738); (71995, 71996); (71998, 71998); (72003, 72003);
   (72148, 72151); (72154, 72155); (72160, 72160); (72193, 72202); (72243, 72248); (72251, 72254);
   (72263, 72263); (72273, 72278); (72281, 72283); (72330, 72342); (72344, 72345); (72752, 72758);
   (72760, 72765); (72767, 72767); (72850, 72871); (72874, 72880); (72882, 72883); (72885, 72886);
   (73009, 73014); (73018, 73018); (73020, 73021); (73023, 73029); (73031, 73031); (73104, 73105);
   (73109, 73109); (73111, 73111); (73459, 73460); (78896, 78904); (92912, 92916); (92976, 92982);
   (92992, 92995); (94031, 94031); (94095, 94111); (94176, 94177); (94179, 94180); (110576, 110579);
   (110581, 110587); (110589, 110590); (113821, 113822); (113824, 113827); (118528, 118573); (118576, 118598);
   (119143, 119145); (119155, 119170); (119173, 119179); (119210, 119213); (119362, 119364); (121344, 121398);
   (121403, 121452); (121461, 121461); (121476, 121476); (121499, 121503); (121505, 121519); (122880, 122886);
   (122888, 122904); (122907, 122913); (122915, 122916); (122918, 122922); (123184, 123197); (123566, 123566);
   (123628, 123631); (125136, 125142); (125252, 125259); (127995, 127999); (917505, 917505); (917536, 917631);
   (917760, 917999)
  ]%N.

(** The digits zero of the decimal digits above U+007F. *)
Definition decimal_zeros : list N :=
  [
   1632; 1776; 1984; 2406; 2534; 2662; 2790; 2918;
   3046; 3174; 3302; 3430; 3558; 3664; 3792; 3872;
   4160; 4240; 6112; 6160; 6470; 6608; 6784; 6800;
   6992; 7088; 7232; 7248; 42528; 43216; 43264; 43472;
   43504; 43600; 44016; 65296; 66720; 68912; 69734; 69872;
   69942; 70096; 70384; 70736; 70864; 71248; 71360; 71472;
   71904; 72016; 72784; 73040; 73120; 92768; 92864; 93008;
   120782; 120792; 120802; 120812; 120822; 123200; 123632; 125264;
   130032
  ]%N.

(** Alphanumeric characters above U+00FF. *)
Definition alnum_table : list (N * N) :=
  [
   (256, 705); (710, 721); (736, 740); (748, 748); (750, 750); (880, 884);
   (886, 887); (890, 893); (895, 895); (902, 902); (904, 906); (908, 908);
   (910, 929); (931, 1013); (1015, 1153); (1162, 1327); (1329, 1366); (1369, 1369);
   (1376, 1416); (1488, 1514); (1519, 1522); (1568, 1610); (1632, 1641); (1646, 1647);
   (1649, 1747); (1749, 1749); (1765, 1766); (1774, 1788); (1791, 1791); (1808, 1808);
   (1810, 1839); (1869, 1957); (1969, 1969); (1984, 2026); (2036, 2037); (2042, 2042);
   (2048, 2069); (2074, 2074); (2084, 2084); (2088, 2088); (2112, 2136); (2144, 2154);
   (2160, 2183); (2185, 2190); (2208, 2249); (2308, 2361); (2365, 2365); (2384, 2384);
   (2392, 2401); (2406, 2415); (2417, 2432); (2437, 2444); (2447, 2448); (2451, 2472);
   (2474, 2480); (2482, 2482); (2486, 2489); (2493, 2493); (2510, 2510); (2524, 2525);
   (2527, 2529); (2534, 2545); (2548, 2553); (2556, 2556); (2565, 2570); (2575, 2576);
   (2579, 2600); (2602, 2608); (2610, 2611); (2613, 2614); (2616, 2617); (2649, 2652);
   (2654, 2654); (2662, 2671); (2674, 2676); (2693, 2701); (2703, 2705); (2707, 2728);
   (2730, 2736); (2738, 2739); (2741, 2745); (2749, 2749); (2768, 2768); (2784, 2785);
   (2790, 2799); (2809, 2809); (2821, 2828); (2831, 2832); (2835, 2856); (2858, 2864);
   (2866, 2867); (2869, 2873); (2877, 2877); (2908, 2909); (2911, 2913); (2918, 2927);
   (2929, 2935); (2947, 2947); (2949, 2954); (2958, 2960); (2962, 2965); (2969, 2970);
   (2972, 2972); (2974, 2975); (2979, 2980); (2984, 2986); (2990, 3001); (3024, 3024);
   (3046, 3058); (3077, 3084); (3086, 3088); (3090, 3112); (3114, 3129); (3133, 3133);
   (3160, 3162); (3165, 3165); (3168, 3169); (3174, 3183); (3192, 3198); (3200, 3200);
   (3205, 3212); (3214, 3216); (3218, 3240); (3242, 3251); (3253, 3257); (3261, 3261);
   (3293, 3294); (3296, 3297); (3302, 3311); (3313, 3314); (3332, 3340); (3342, 3344);
   (3346, 3386); (3389, 3389); (3406, 3406); (3412, 3414); (3416, 3425); (3430, 3448);
   (3450, 3455); (3461, 3478); (3482, 3505); (3507, 3515); (3517, 3517); (3520, 3526);
   (3558, 3567); (3585, 3632); (3634, 3635); (3648, 3654); (3664, 3673); (3713, 3714);
   (3716, 3716); (3718, 3722); (3724, 3747); (3749, 3749); (3751, 3760); (3762, 3763);
   (3773, 3773); (3776, 3780); (3782, 3782); (3792, 3801); (3804, 3807); (3840, 3840);
   (3872, 3891); (3904, 3911); (3913, 3948); (3976, 3980); (4096, 4138); (4159, 4169);
   (4176, 4181); (4186, 4189); (4193, 4193); (4197, 4198); (4206, 4208); (4213, 4225);
   (4238, 4238); (4240, 4249); (4256, 4293); (4295, 4295); (4301, 4301); (4304, 4346);
   (4348, 4680); (4682, 4685); (4688, 4694); (4696, 4696); (4698, 4701); (4704, 4744);
   (4746, 4749); (4752, 4784); (4786, 4789); (4792, 4798); (4800, 4800); (4802, 4805);
   (4808, 4822); (4824, 4880); (4882, 4885); (4888, 4954); (4969, 4988); (4992, 5007);
   (5024, 5109); (5112, 5117); (5121, 5740); (5743, 5759); (5761, 5786); (5792, 5866);
   (5870, 5880); (5888, 5905); (5919, 5937); (5952, 5969); (5984, 5996); (5998, 6000);
   (6016, 6067); (6103, 6103); (6108, 6108); (6112, 6121); (6128, 6137); (6160, 6169);
   (6176, 6264); (6272, 6276); (6279, 6312); (6314, 6314); (6320, 6389); (6400, 6430);
   (6470, 6509); (6512, 6516); (6528, 6571); (6576, 6601); (6608, 6618); (6656, 6678);
   (6688, 6740); (6784, 6793); (6800, 6809); (6823, 6823); (6917, 6963); (6981, 6988);
   (6992, 7001); (7043, 7072); (7086, 7141); (7168, 7203); (7232, 7241); (7245, 7293);
   (7296, 7304); (7312, 7354); (7357, 7359); (7401, 7404); (7406, 7411); (7413, 7414);
   (7418, 7418); (7424, 7615); (7680, 7957); (7960, 7965); (7968, 8005); (8008, 8013);
   (8016, 8023); (8025, 8025); (8027, 8027); (8029, 8029); (8031, 8061); (8064, 8116);
   (8118, 8124); (8126, 8126); (8130, 8132); (8134, 8140); (8144, 8147); (8150, 8155);
   (8160, 8172); (8178, 8180); (8182, 8188); (8304, 8305); (8308, 8313); (8319, 8329);
   (8336, 8348); (8450, 8450); (8455, 8455); (8458, 8467); (8469, 8469); (8473, 8477);
   (8484, 8484); (8486, 8486); (8488, 8488); (8490, 8493); (8495, 8505); (8508, 8511);
   (8517, 8521); (8526, 8526); (8528, 8585); (9312, 9371); (9450, 9471); (10102, 10131);
   (11264, 11492); (11499, 11502); (11506, 11507); (11517, 11517); (11520, 11557); (11559, 11559);
   (11565, 11565); (11568, 11623); (11631, 11631); (11648, 11670); (11680, 11686); (11688, 11694);
   (11696, 11702); (11704, 11710); (11712, 11718); (11720, 11726); (11728, 11734); (11736, 11742);
   (11823, 11823); (12293, 12295); (12321, 12329); (12337, 12341); (12344, 12348); (12353, 12438);
   (12445, 12447); (12449, 12538); (12540, 12543); (12549, 12591); (12593, 12686); (12690, 12693);
   (12704, 12735); (12784, 12799); (12832, 12841); (12872, 12879); (12881, 12895); (12928, 12937);
   (12977, 12991); (13312, 19903); (19968, 42124); (42192, 42237); (42240, 42508); (42512, 42539);
   (42560, 42606); (42623, 42653); (42656, 42735); (42775, 42783); (42786, 42888); (42891, 42954);
   (42960, 42961); (42963, 42963); (42965, 42969); (42994, 43009); (43011, 43013); (43015, 43018);
   (43020, 43042); (43056, 43061); (43072, 43123); (43138, 43187); (43216, 43225); (43250, 43255);
   (43259, 43259); (43261, 43262); (43264, 43301); (43312, 43334); (43360, 43388); (43396, 43442);
   (43471, 43481); (43488, 43492); (43494, 43518); (43520, 43560); (43584, 43586); (43588, 43595);
   (43600, 43609); (43616, 43638); (43642, 43642); (43646, 43695); (43697, 43697); (43701, 43702);
   (43705, 43709); (43712, 43712); (43714, 43714); (43739, 43741); (43744, 43754); (43762, 43764);
   (43777, 43782); (43785, 43790); (43793, 43798); (43808, 43814); (43816, 43822); (43824, 43866);
   (43868, 43881); (43888, 44002); (44016, 44025); (44032, 55203); (55216, 55238); (55243, 55291);
   (63744, 64109); (64112, 64217); (64256, 64262); (64275, 64279); (64285, 64285); (64287, 64296);
   (64298, 64310); (64312, 64316); (64318, 64318); (64320, 64321); (64323, 64324); (64326, 64433);
   (64467, 64829); (64848, 64911); (64914, 64967); (65008, 65019); (65136, 65140); (65142, 65276);
   (65296, 65305); (65313, 65338); (65345, 65370); (65382, 65470); (65474, 65479); (65482, 65487);
   (65490, 65495); (65498, 65500); (65536, 65547); (65549, 65574); (65576, 65594); (65596, 65597);
   (65599, 65613); (65616, 65629); (65664, 65786); (65799, 65843); (65856, 65912); (65930, 65931);
   (66176, 66204); (66208, 66256); (66273, 66299); (66304, 66339); (66349, 66378); (66384, 66421);
   (66432, 66461); (66464, 66499); (66504, 66511); (66513, 66517); (66560, 66717); (66720, 66729);
   (66736, 66771); (66776, 66811); (66816, 66855); (66864, 66915); (66928, 66938); (66940, 66954);
   (66956, 66962); (66964, 66965); (66967, 66977); (66979, 66993); (66995, 67001); (67003, 67004);
   (67072, 67382); (67392, 67413); (67424, 67431); (67456, 67461); (67463, 67504); (67506, 67514);
   (67584, 67589); (67592, 67592); (67594, 67637); (67639, 67640); (67644, 67644); (67647, 67669);
   (67672, 67702); (67705, 67742); (67751, 67759); (67808, 67826); (67828, 67829); (67835, 67867);
   (67872, 67897); (67968, 68023); (68028, 68047); (68050, 68096); (68112, 68115); (68117, 68119);
   (68121, 68149); (68160, 68168); (68192, 68222); (68224, 68255); (68288, 68295); (68297, 68324);
   (68331, 68335); (68352, 68405); (68416, 68437); (68440, 68466); (68472, 68497); (68521, 68527);
   (68608, 68680); (68736, 68786); (68800, 68850); (68858, 68899); (68912, 68921); (69216, 69246);
   (69248, 69289); (69296, 69297); (69376, 69415); (69424, 69445); (69457, 69460); (69488, 69505);
   (69552, 69579); (69600, 69622); (69635, 69687); (69714, 69743); (69745, 69746); (69749, 69749);
   (69763, 69807); (69840, 69864); (69872, 69881); (69891, 69926); (69942, 69951); (69956, 69956);
   (69959, 69959); (69968, 70002); (70006, 70006); (70019, 70066); (70081, 70084); (70096, 70106);
   (70108, 70108); (70113, 70132); (70144, 70161); (70163, 70187); (70272, 70278); (70280, 70280);
   (70282, 70285); (70287, 70301); (70303, 70312); (70320, 70366); (70384, 70393); (70405, 70412);
   (70415, 70416); (70419, 70440); (70442, 70448); (70450, 70451); (70453, 70457); (70461, 70461);
   (70480, 70480); (70493, 70497); (70656, 70708); (70727, 70730); (70736, 70745); (70751, 70753);
   (70784, 70831); (70852, 70853); (70855, 70855); (70864, 70873); (71040, 71086); (71128, 71131);
   (71168, 71215); (71236, 71236); (71248, 71257); (71296, 71338); (71352, 71352); (71360, 71369);
   (71424, 71450); (71472, 71483); (71488, 71494); (71680, 71723); (71840, 71922); (71935, 71942);
   (71945, 71945); (71948, 71955); (71957, 71958); (71960, 71983); (71999, 71999); (72001, 72001);
   (72016, 72025); (72096, 72103); (72106, 72144); (72161, 72161); (72163, 72163); (72192, 72192);
   (72203, 72242); (72250, 72250); (72272, 72272); (72284, 72329); (72349, 72349); (72368, 72440);
   (72704, 72712); (72714, 72750); (72768, 72768); (72784, 72812); (72818, 72847); (72960, 72966);
   (72968, 72969); (72971, 73008); (73030, 73030); (73040, 73049); (73056, 73061); (73063, 73064);
   (73066, 73097); (73112, 73112); (73120, 73129); (73440, 73458); (73648, 73648); (73664, 73684);
   (73728, 74649); (74752, 74862); (74880, 75075); (77712, 77808); (77824, 78894); (82944, 83526);
   (92160, 92728); (92736, 92766); (92768, 92777); (92784, 92862); (92864, 92873); (92880, 92909);
   (92928, 92975); (92992, 92995); (93008, 93017); (93019, 93025); (93027, 93047); (93053, 93071);
   (93760, 93846); (93952, 94026); (94032, 94032); (94099, 94111); (94176, 94177); (94179, 94179);
   (94208, 100343); (100352, 101589); (101632, 101640); (110576, 110579); (110581, 110587); (110589, 110590);
   (110592, 110882); (110928, 110930); (110948, 110951); (110960, 111355); (113664, 113770); (113776, 113788);
   (113792, 113800); (113808, 113817); (119520, 119539); (119648, 119672); (119808, 119892); (119894, 119964);
   (119966, 119967); (119970, 119970); (119973, 119974); (119977, 119980); (119982, 119993); (119995, 119995);
   (119997, 120003); (120005, 120069); (120071, 120074); (120077, 120084); (120086, 120092); (120094, 120121);
   (120123, 120126); (120128, 120132); (120134, 120134); (120138, 120144); (120146, 120485); (120488, 120512);
   (120514, 120538); (120540, 120570); (120572, 120596); (120598, 120628); (120630, 120654); (120656, 120686);
   (120688, 120712); (120714, 120744); (120746, 120770); (120772, 120779); (120782, 120831); (122624, 122654);
   (123136, 123180); (123191, 123197); (123200, 123209); (123214, 123214); (123536, 123565); (123584, 123627);
   (123632, 123641); (124896, 124902); (124904, 124907); (124909, 124910); (124912, 124926); (124928, 125124);
   (125127, 125135); (125184, 125251); (125259, 125259); (125264, 125273); (126065, 126123); (126125, 126127);
   (126129, 126132); (126209, 126253); (126255, 126269); (126464, 126467); (126469, 126495); (126497, 126498);
   (126500, 126500); (126503, 126503); (126505, 126514); (126516, 126519); (126521, 126521); (126523, 126523);
   (126530, 126530); (126535, 126535); (126537, 126537); (126539, 126539); (126541, 126543); (126545, 126546);
   (126548, 126548); (126551, 126551); (126553, 126553); (126555, 126555); (126557, 126557); (126559, 126559);
   (126561, 126562); (126564, 126564); (126567, 126570); (126572, 126578); (126580, 126583); (126585, 126588);
   (126590, 126590); (126592, 126601); (126603, 126619); (126625, 126627); (126629, 126633); (126635, 126651);
   (127232, 127244); (130032, 130041); (131072, 173791); (173824, 177976); (177984, 178205); (178208, 183969);
   (183984, 191456); (194560, 195101); (196608, 201546)
  ]%N.

(** Characters above U+00FF with another case, for the regex engine. *)
Definition re_cased_table : list (N * N) :=
  [
   (256, 311); (313, 396); (398, 410); (412, 425); (428, 441); (444, 445);
   (447, 447); (452, 544); (546, 563); (570, 596); (598, 599); (601, 601);
   (603, 604); (608, 609); (611, 611); (613, 614); (616, 620); (623, 623);
   (625, 626); (629, 629); (637, 637); (640, 640); (642, 643); (647, 652);
   (658, 658); (669, 670); (837, 837); (880, 883); (886, 887); (891, 893);
   (895, 895); (902, 902); (904, 906); (908, 908); (910, 929); (931, 977);
   (981, 1013); (1015, 1019); (1021, 1153); (1162, 1327); (1329, 1366); (1377, 1415);
   (4256, 4293); (4295, 4295); (4301, 4301); (4304, 4346); (4349, 4351); (5024, 5109);
   (5112, 5117); (7296, 7304); (7312, 7354); (7357, 7359); (7545, 7545); (7549, 7549);
   (7566, 7566); (7680, 7835); (7838, 7838); (7840, 7957); (7960, 7965); (7968, 8005);
   (8008, 8013); (8016, 8023); (8025, 8025); (8027, 8027); (8029, 8029); (8031, 8061);
   (8064, 8116); (8118, 8124); (8126, 8126); (8130, 8132); (8134, 8140); (8144, 8147);
   (8150, 8155); (8160, 8172); (8178, 8180); (8182, 8188); (8486, 8486); (8490, 8491);
   (8498, 8498); (8526, 8526); (8544, 8575); (8579, 8580); (9398, 9449); (11264, 11376);
   (11378, 11379); (11381, 11382); (11390, 11491); (11499, 11502); (11506, 11507); (11520, 11557);
   (11559, 11559); (11565, 11565); (42560, 42605); (42624, 42651); (42786, 42799); (42802, 42863);
   (42873, 42887); (42891, 42893); (42896, 42900); (42902, 42926); (42928, 42954); (42960, 42961);
   (42966, 42969); (42997, 42998); (43859, 43859); (43888, 43967); (64256, 64262); (64275, 64279);
   (65313, 65338); (65345, 65370); (66560, 66639); (66736, 66771); (66776, 66811); (66928, 66938);
   (66940, 66954); (66956, 66962); (66964, 66965); (66967, 66977); (66979, 66993); (66995, 67001);
   (67003, 67004); (68736, 68786); (68800, 68850); (71840, 71903); (93760, 93823); (125184, 125251)
  ]%N.

(** Lower-case characters with the same upper case as another one. *)
Definition case_fixes : list (N * list N) :=
  [
   (105, [305]); (115, [383]); (181, [956]); (305, [105]);
   (383, [115]); (837, [953; 8126]); (912, [8147]); (944, [8163]);
   (946, [976]); (949, [1013]); (952, [977]); (953, [837; 8126]);
   (954, [1008]); (956, [181]); (960, [982]); (961, [1009]);
   (962, [963]); (963, [962]); (966, [981]); (976, [946]);
   (977, [952]); (981, [966]); (982, [960]); (1008, [954]);
   (1009, [961]); (1013, [949]); (1074, [7296]); (1076, [7297]);
   (1086, [7298]); (1089, [7299]); (1090, [7300; 7301]); (1098, [7302]);
   (1123, [7303]); (7296, [1074]); (7297, [1076]); (7298, [1086]);
   (7299, [1089]); (7300, [1090; 7301]); (7301, [1090; 7300]); (7302, [1098]);
   (7303, [1123]); (7304, [42571]); (7777, [7835]); (7835, [7777]);
   (8126, [837; 953]); (8147, [912]); (8163, [944]); (42571, [7304]);
   (64261, [64262]); (64262, [64261])
  ]%N.

(** [str.isspace] on one character, also the class [\s] of [re]. *)
Definition isspace (c : char) : bool :=
  in_range 9 13 c || in_range 28 32 c || N.eqb c 133 || N.eqb c 160
  || N.eqb c 5760 || in_range 8192 8202 c || in_range 8232 8233 c
  || N.eqb c 8239 || N.eqb c 8287 || N.eqb c 12288.

(** Characters [str.splitlines] breaks lines at. *)
Definition is_linebreak (c : char) : bool :=
  in_range 10 13 c || in_range 28 30 c || N.eqb c 133
  || in_range 8232 8233 c.

(** An ASCII digit and its value: the digits [format] writes. *)
Definition isdigit (c : char) : bool := in_range 48 57 c.
Definition digit_value (c : char) : Z := Z.of_N c - 48.

(** The value of a decimal digit of any script: the digits [int] reads
    and the class [\d] of [re]. *)
Fixpoint decimal_in (zeros : list N) (c : char) : option N :=
  match zeros with
  | [] => None
  | z :: tl =>
      if N.ltb c z then None
      else if N.leb c (z + 9) then Some (c - z)%N
      else decimal_in tl c
  end.

Definition decimal (c : char) : option N :=
  if N.ltb c 128 then (if isdigit c then Some (c - 48)%N else None)
  else decimal_in decimal_zeros c.

Definition isdecimal (c : char) : bool :=
  match decimal c with Some _ => true | None => false end.

Definition is_ascii_upper (c : char) : bool := in_range 65 90 c.
Definition is_ascii_lower (c : char) : bool := in_range 97 122 c.

(** [str.isalnum] on one character; with the underscore, the class [\w]. *)
Definition isalnum (c : char) : bool :=
  if N.ltb c 256 then
    isdigit c || is_ascii_upper c || is_ascii_lower c
    || N.eqb c 170 || in_range 178 179 c || N.eqb c 181
    || in_range 185 186 c || in_range 188 190 c
    || in_range 192 214 c || in_range 216 246 c || in_range 248 255 c
  else in_table alnum_table c.

Definition is_word (c : char) : bool := isalnum c || N.eqb c 95.

(** The last code point with a case mapping. *)
Definition last_cased : N := 125251.

(** The simple lower-case mapping of one character: the one the regex
    engine compares characters by when it ignores case. *)
Definition lower_char (c : char) : char :=
  if N.ltb c 256 then
    if is_ascii_upper c then (c + 32)%N
    else if in_range 192 222 c && negb (N.eqb c 215) then (c + 32)%N
    else c
  else if N.ltb last_cased c then c
  else match in_runs lower_table c with Some d => d | None => c end.

(** The full upper-case mapping of one character (sharp s becomes "SS"). *)
Definition upper_char (c : char) : str :=
  if N.ltb c 256 then
    if is_ascii_lower c then [(c - 32)%N]
    else if in_range 224 254 c && negb (N.eqb c 247) then [(c - 32)%N]
    else if N.eqb c 223 then [83; 83]%N
    else if N.eqb c 181 then [924%N]
    else if N.eqb c 255 then [376%N]
    else [c]
  else if N.ltb last_cased c then [c]
  else
    match assoc upper_special c with
    | Some l => l
    | None => [match in_runs upper_table c with Some d => d | None => c end]
    end.

(** A character with another case, as the regex engine sees it. *)
Definition re_cased (c : char) : bool :=
  if N.ltb c 256 then
    is_ascii_upper c || is_ascii_lower c || N.eqb c 181
    || in_range 192 214 c || in_range 216 246 c || in_range 248 255 c
  else in_table re_cased_table c.

(** The lower-case characters the regex engine holds equal to the
    lower-case character [lo] when it ignores case. *)
Definition case_fix (lo : char) : str :=
  match assoc case_fixes lo with Some l => l | None => [] end.

(** [str.lower].  The mapping is the simple one, character by character,
    but for two characters: U+0130, which becomes "i" followed by a
    combining dot, and the capital sigma U+03A3, which becomes the final
    sigma U+03C2 when a cased letter comes before it and none comes after
    it, case-ignorable characters being passed over on both sides, and
    the small sigma U+03C3 otherwise. *)
Definition is_case_ignorable (c : char) : bool := in_table case_ignorable_table c.
Definition is_cased (c : char) : bool := in_table cased_table c.

(** Whether the first character of [l] that is not case-ignorable is
    cased. *)
Fixpoint cased_first (l : str) : bool :=
  match l with
  | [] => false
  | d :: l' => if is_case_ignorable d then cased_first l' else is_cased d
  end.

(** The lower case of [c] between [before], the text before it in
    reverse, and [after]. *)
Definition lower_at (before : str) (c : char) (after : str) : str :=
  if N.eqb c 931 then
    [if cased_first before && negb (cased_first after) then 962%N else 963%N]
  else if N.eqb c 304 then [105; 775]%N
  else [lower_char c].

Fixpoint lower_from (before : str) (s : str) : str :=
  match s with
  | [] => []
  | c :: s' => lower_at before c s' ++ lower_from (c :: before) s'
  end.

Definition lower (s : str) : str := lower_from [] s.

(** [str.upper]. *)
Definition upper (s : str) : str := flat_map upper_char s.

(** *** Trimming *)

Fixpoint lstrip_by (p : char -> bool) (s : str) : str :=
  match s with
  | c :: s' => if p c then lstrip_by p s' else s
  | [] => []
  end.

Definition rstrip_by (p : char -> bool) (s : str) : str :=
  rev (lstrip_by p (rev s)).

Definition strip_by (p : char -> bool) (s : str) : str :=
  rstrip_by p (lstrip_by p s).

Definition mem (c : char) (cs : str) : bool := existsb (N.eqb c) cs.

(** [s.lstrip()], [s.rstrip()], [s.strip()]. *)
Definition lstrip : str -> str := lstrip_by isspace.
Definition rstrip : str -> str := rstrip_by isspace.
Definition strip : str -> str := strip_by isspace.

(** [s.strip(chars)], [s.rstrip(chars)]. *)
Definition strip_chars (cs : str) : str -> str := strip_by (fun c => mem c cs).
Definition rstrip_chars (cs : str) : str -> str := rstrip_by (fun c => mem c cs).

(** *** Searching and replacing *)

(** [s.startswith(p)]: on success, what follows the prefix. *)
Fixpoint drop_prefix (p s : str) : option str :=
  match p, s with
  | [], _ => Some s
  | x :: p', y :: s' => if N.eqb x y then drop_prefix p' s' else None
  | _ :: _, [] => None
  end.

Definition startswith (s p : str) : bool :=
  match drop_prefix p s with Some _ => true | None => false end.

Definition endswith (s p : str) : bool := startswith (rev s) (rev p).

(** [sub in s]. *)
Fixpoint contains (s sub : str) : bool :=
  startswith s sub
  || match s with
     | [] => false
     | _ :: s' => contains s' sub
     end.

(** [s.count(c)] for a one-character [c]. *)
Definition count_char (c : char) (s : str) : Z :=
  Z.of_nat (List.length (filter (N.eqb c) s)).

(** [s.replace(old, new)] for a non-empty [old]: occurrences are replaced
    left to right without overlap.  [fuel] bounds the scan; the length of
    the text is enough since every step consumes a character. *)
Fixpoint replace_from (fuel : nat) (old new s : str) : str :=
  match fuel with
  | O => s
  | S fuel' =>
      match s with
      | [] => []
      | c :: s' =>
          match drop_prefix old s with
          | Some rest => new ++ replace_from fuel' old new rest
          | None => c :: replace_from fuel' old new s'
          end
      end
  end.

Definition replace (old new s : str) : str :=
  replace_from (List.length s) old new s.

(** *** Splitting and joining *)

(** [sep.join(parts)]. *)
Fixpoint join (sep : str) (parts : list str) : str :=
  match parts with
  | [] => []
  | [p] => p
  | p :: ps => p ++ sep ++ join sep ps
  end.

(** [s.split()]: the maximal runs of non-space characters.  [cur] is the
    run being read, in reverse. *)
Fixpoint split_ws_from (cur : str) (s : str) : list str :=
  match s with
  | [] => match cur with [] => [] | _ => [rev cur] end
  | c :: s' =>
      if isspace c then
        match cur with
        | [] => split_ws_from [] s'
        | _ => rev cur :: split_ws_from [] s'
        end
      else split_ws_from (c :: cur) s'
  end.

Definition split_ws (s : str) : list str := split_ws_from [] s.

(** [s.split(c)] for a one-character separator: every piece, empty ones
    included. *)
Fixpoint split_char_from (sep : char) (cur : str) (s : str) : list str :=
  match s with
  | [] => [rev cur]
  | c :: s' =>
      if N.eqb c sep then rev cur :: split_char_from sep [] s'
      else split_char_from sep (c :: cur) s'
  end.

Definition split_char (sep : char) (s : str) : list str :=
  split_char_from sep [] s.

(** [s.split(c, 1)] when [c] occurs in [s]: the text before the first
    occurrence and the text after it. *)
Fixpoint partition_at (sep : char) (s : str) : option (str * str) :=
  match s with
  | [] => None
  | c :: s' =>
      if N.eqb c sep then Some ([], s')
      else match partition_at sep s' with
           | Some (l, r) => Some (c :: l, r)
           | None => None
           end
  end.

(** [s.splitlines()]: lines end at a line break, "\r\n" counting as one;
    a trailing break opens no empty last line. *)
Fixpoint splitlines_from (cur : str) (s : str) : list str :=
  match s with
  | [] => match cur with [] => [] | _ => [rev cur] end
  | c :: s' =>
      if is_linebreak c then
        rev cur ::
          match s' with
          | d :: s'' =>
              if N.eqb c 13 && N.eqb d 10 then splitlines_from [] s''
              else splitlines_from [] s'
          | [] => []
          end
      else splitlines_from (c :: cur) s'
  end.

Definition splitlines (s : str) : list str := splitlines_from [] s.

(** *** Integers *)

(** The body of an integer literal for [int(s)]: decimal digits of any
    script, with single underscores allowed between digits.  [acc] is the
    value read so far and [after_digit] tells whether the previous
    character was a digit. *)
Fixpoint int_digits (acc : Z) (after_digit : bool) (s : str) : option Z :=
  match s with
  | [] => if after_digit then Some acc else None
  | c :: s' =>
      match decimal c with
      | Some d => int_digits (acc * 10 + Z.of_N d) true s'
      | None =>
          if N.eqb c 95 && after_digit then int_digits acc false s'
          else None
      end
  end.

(** The white space [int] allows around the literal: the white space of
    [str.isspace] but for the four separators U+001C to U+001F. *)
Definition int_space (c : char) : bool := isspace c && negb (in_range 28 31 c).

(** The interpreter refuses, by default, a literal of more than 4300
    digits. *)
Definition int_max_str_digits : nat := 4300.

Definition int_body (ds : str) : option Z :=
  if Nat.leb (List.length (filter isdecimal ds)) int_max_str_digits
  then int_digits 0 false ds
  else None.

(** [int(s)], with [None] for [ValueError]. *)
Definition int (s : str) : option Z :=
  match strip_by int_space s with
  | 43%N :: ds => int_body ds
  | 45%N :: ds => option_map Z.opp (int_body ds)
  | ds => int_body ds
  end.

(** The decimal digits of a natural number, most significant first. *)
Fixpoint digits_from (fuel : nat) (n : N) (acc : str) : str :=
  match fuel with
  | O => acc
  | S fuel' =>
      let acc' := (48 + N.modulo n 10)%N :: acc in
      if N.ltb n 10 then acc' else digits_from fuel' (N.div n 10) acc'
  end.

Definition digits (n : N) : str := digits_from (S (N.to_nat (N.log2 n))) n [].

(** [format(z, "0{w}d")]: sign-aware zero padding to width [w]. *)
Definition format_0d (w : nat) (z : Z) : str :=
  let ds := digits (Z.abs_N z) in
  if Z.ltb z 0 then
    45%N :: repeat 48%N (w - 1 - List.length ds) ++ ds
  else repeat 48%N (w - List.length ds) ++ ds.

End Py.

Definition pystr := Py.str.
Definition py : string -> pystr := Py.lit.
Arguments py s%_string.

(* ================================================================== *)
(** ** Regular expressions *)
(* ================================================================== *)

Module Re.

(** The patterns of the script use literals, character classes, the
    escapes [\s \S \d \b], the anchors [^ $], greedy repetition of a single
    character or class, optional parts, alternation and capturing groups.
    This is their abstract syntax. *)

Inductive item : Type :=
| Ch (c : Py.char)            (* one character *)
| Rng (lo hi : Py.char)       (* a-z *)
| Ws                          (* \s *)
| Dg.                         (* \d *)

Inductive atom : Type :=
| Lit (c : Py.char)           (* a literal character *)
| Dot                         (* .  : any character but "\n" *)
| OneOf (l : list item)          (* [...] *)
| NoneOf (l : list item).      (* [^...] ; \S is [^\s] *)

Inductive regex : Type :=
| Eps
| Atom (a : atom)
| Rep (a : atom) (min : nat) (max : option nat)  (* a{min,max}, greedy *)
| Seq (r1 r2 : regex)
| Alt (r1 r2 : regex)
| Group (n : nat) (r : regex)                    (* ( ... ) *)
| Bol                                            (* ^ *)
| Eol                                            (* $ *)
| Wordb.                                         (* \b *)

Definition Star a := Rep a 0 None.
Definition Plus a := Rep a 1 None.
Definition Opt r := Alt r Eps.                   (* r? *)

(** A literal string. *)
Fixpoint lits (s : pystr) : regex :=
  match s with
  | [] => Eps
  | [c] => Atom (Lit c)
  | c :: s' => Seq (Atom (Lit c)) (lits s')
  end.

(** Concatenation of a list of parts. *)
Fixpoint cat (rs : list regex) : regex :=
  match rs with
  | [] => Eps
  | [r] => r
  | r :: rs' => Seq r (cat rs')
  end.

(** *** Matching one character

    [ic] is the flag [re.IGNORECASE].  Under the flag a character of the
    pattern that has another case matches the characters whose simple
    lower case is its own, or one the engine holds equal to it (the long s
    for "s", the dotless i for "i"); a character without another case
    matches itself.  A class is compared item by item, which is what the
    engine does for the classes of the script: under the flag their
    letters all have another case, or none has, and none holds a
    range. *)

Definition char_eq (ic : bool) (p c : Py.char) : bool :=
  if ic then
    if Py.re_cased p then
      let lo := Py.lower_char p in
      let x := Py.lower_char c in
      N.eqb x lo || Py.mem x (Py.case_fix lo)
    else N.eqb p c
  else N.eqb p c.

Definition item_match (ic : bool) (i : item) (c : Py.char) : bool :=
  match i with
  | Ch p => char_eq ic p c
  | Rng lo hi =>
      Py.in_range lo hi c || (ic && Py.in_range lo hi (Py.lower_char c))
  | Ws => Py.isspace c
  | Dg => Py.isdecimal c
  end.

Definition atom_match (ic : bool) (a : atom) (c : Py.char) : bool :=
  match a with
  | Lit p => char_eq ic p c
  | Dot => negb (N.eqb c 10)
  | OneOf l => existsb (fun i => item_match ic i c) l
  | NoneOf l => negb (existsb (fun i => item_match ic i c) l)
  end.

(** *** The matcher

    A state is a position in the subject: the character before it (none at
    the start), the text from it on, and the groups captured so far. *)

Record state : Type := mkState {
  prev : option Py.char;
  rest : pystr;
  caps : list (nat * pystr)
}.

Definition is_word_opt (c : option Py.char) : bool :=
  match c with Some x => Py.is_word x | None => false end.

(** The text consumed between two positions of the same subject. *)
Definition consumed (s s' : state) : pystr :=
  firstn (List.length (rest s) - List.length (rest s')) (rest s).

Section Matcher.

Variable A : Type.
Variable ic : bool.

(** Greedy repetition of one atom: take a character when the atom allows
    it and the bound [max] is not reached, and come back to the
    continuation with fewer characters when the rest of the pattern fails,
    as long as [min] iterations are done. *)
Fixpoint rep_match (a : atom) (min : nat) (max : option nat)
    (k : option Py.char -> pystr -> option A)
    (p : option Py.char) (s : pystr) {struct s} : option A :=
  let stop := match min with O => k p s | S _ => None end in
  match max with
  | Some O => stop
  | _ =>
      match s with
      | c :: s' =>
          if atom_match ic a c then
            match rep_match a (Nat.pred min) (option_map Nat.pred max) k
                    (Some c) s' with
            | Some x => Some x
            | None => stop
            end
          else stop
      | [] => stop
      end
  end.

(** Backtracking in continuation-passing style: [rmatch r k s] matches
    [r] at [s] and hands each way of doing so, in the order of Python's
    engine, to [k] until [k] accepts one. *)
Fixpoint rmatch (r : regex) (k : state -> option A) (s : state) : option A :=
  match r with
  | Eps => k s
  | Atom a =>
      match rest s with
      | c :: s' =>
          if atom_match ic a c then k (mkState (Some c) s' (caps s)) else None
      | [] => None
      end
  | Rep a mn mx =>
      rep_match a mn mx (fun p t => k (mkState p t (caps s))) (prev s) (rest s)
  | Seq r1 r2 => rmatch r1 (rmatch r2 k) s
  | Alt r1 r2 =>
      match rmatch r1 k s with
      | Some x => Some x
      | None => rmatch r2 k s
      end
  | Group n r1 =>
      rmatch r1
        (fun s' => k (mkState (prev s') (rest s') ((n, consumed s s') :: caps s')))
        s
  | Bol => match prev s with None => k s | Some _ => None end
  | Eol =>
      match rest s with
      | [] => k s
      | [c] => if N.eqb c 10 then k s else None
      | _ => None
      end
  | Wordb =>
      if xorb (is_word_opt (prev s)) (is_word_opt (hd_error (rest s)))
      then k s else None
  end.

End Matcher.

(** A match: the matched text (group 0), the text after it, the character
    before what follows, and the groups. *)
Record mtch : Type := mkMatch {
  m_text : pystr;
  m_after : pystr;
  m_last : option Py.char;
  m_caps : list (nat * pystr)
}.

(** The pattern matched at one position. *)
Definition match_here (ic : bool) (r : regex) (p : option Py.char) (s : pystr)
  : option mtch :=
  let s0 := mkState p s [] in
  rmatch ic r
    (fun s' => Some (mkMatch (consumed s0 s') (rest s') (prev s') (caps s')))
    s0.

(** [pattern.match(s)]: the pattern matched at the start of [s]. *)
Definition match_ (ic : bool) (r : regex) (s : pystr) : option mtch :=
  match_here ic r None s.

(** [m.group(n)] for [n >= 1]: the last capture of group [n], if any. *)
Fixpoint group (n : nat) (cs : list (nat * pystr)) : option pystr :=
  match cs with
  | [] => None
  | (i, t) :: cs' => if Nat.eqb i n then Some t else group n cs'
  end.

(** [re.search]: the match at the leftmost position that has one, with
    the text before it. [skipped] is that text, in reverse. *)
Fixpoint search_from (ic : bool) (r : regex) (skipped : pystr)
    (p : option Py.char) (s : pystr) {struct s} : option (pystr * mtch) :=
  match match_here ic r p s with
  | Some m => Some (rev skipped, m)
  | None =>
      match s with
      | [] => None
      | c :: s' => search_from ic r (c :: skipped) (Some c) s'
      end
  end.

Definition search (ic : bool) (r : regex) (s : pystr) : option (pystr * mtch) :=
  search_from ic r [] None s.

Definition found (ic : bool) (r : regex) (s : pystr) : bool :=
  match search ic r s with Some _ => true | None => false end.

(** The successive non-overlapping matches of a pattern, left to right:
    each with the text between the previous match and it, and at the end
    the text after the last match.  The patterns the script substitutes or
    splits with match no empty text; an empty match is passed over.
    [fuel] bounds the number of matches; the length of the text is
    enough. *)
Fixpoint scan (fuel : nat) (ic : bool) (r : regex) (p : option Py.char)
    (s : pystr) : list (pystr * mtch) * pystr :=
  match fuel with
  | O => ([], s)
  | S fuel' =>
      match search_from ic r [] p s with
      | None => ([], s)
      | Some (gap, m) =>
          match m_text m with
          | [] =>
              match m_after m with
              | [] => ([], s)
              | c :: s' =>
                  let '(ms, tl) := scan fuel' ic r (Some c) s' in
                  match ms with
                  | [] => ([], s)
                  | (g, m') :: ms' => ((gap ++ c :: g, m') :: ms', tl)
                  end
              end
          | _ :: _ =>
              let '(ms, tl) := scan fuel' ic r (m_last m) (m_after m) in
              ((gap, m) :: ms, tl)
          end
      end
  end.

Definition finditer (ic : bool) (r : regex) (s : pystr)
  : list (pystr * mtch) * pystr :=
  scan (S (List.length s)) ic r None s.

(** [re.sub(pattern, repl, s)] for a replacement without group
    references. *)
Definition sub (ic : bool) (r : regex) (repl s : pystr) : pystr :=
  let '(ms, tl) := finditer ic r s in
  flat_map (fun gm => fst gm ++ repl) ms ++ tl.

(** [re.split(pattern, s)] for a pattern without groups. *)
Definition split (ic : bool) (r : regex) (s : pystr) : list pystr :=
  let '(ms, tl) := finditer ic r s in
  map fst ms ++ [tl].

End Re.

(* ================================================================== *)
(** ** The script *)
(* ================================================================== *)

Import Re.

(** The code point of a one-character literal. *)
Definition chr (s : string) : Py.char := hd 0%N (py s).
Arguments chr s%_string.

(** Truth value of a string, and of an optional string ([None] and the
    empty string are false). *)
Definition nonempty (s : pystr) : bool :=
  match s with [] => false | _ :: _ => true end.

Definition truthy (o : option pystr) : bool :=
  match o with Some s => nonempty s | None => false end.

(** Membership of a string in a list or set of strings. *)
Definition str_in (s : pystr) (l : list pystr) : bool := existsb (Py.eqb s) l.

(** A field is the tuple (indent, name, value). *)
Definition field : Type := pystr * pystr * pystr.
Definition f_indent (f : field) : pystr := fst (fst f).
Definition f_name (f : field) : pystr := snd (fst f).
Definition f_value (f : field) : pystr := snd f.

(** A parsed entry is the tuple (entry_type, key, fields, unknown). *)
Definition entry : Type := pystr * pystr * list field * list pystr.

(** Dictionaries with string keys, in insertion order. *)
Definition dict (V : Type) : Type := list (pystr * V).

Fixpoint dict_get {V} (k : pystr) (d : dict V) : option V :=
  match d with
  | [] => None
  | (k', v) :: d' => if Py.eqb k k' then Some v else dict_get k d'
  end.

Fixpoint dict_set {V} (k : pystr) (v : V) (d : dict V) : dict V :=
  match d with
  | [] => [(k, v)]
  | (k', v') :: d' =>
      if Py.eqb k k' then (k, v) :: d' else (k', v') :: dict_set k v d'
  end.

Definition dict_mem {V} (k : pystr) (d : dict V) : bool :=
  match dict_get k d with Some _ => true | None => false end.

(** Truth value of a dictionary. *)
Definition dict_nonempty {V} (d : dict V) : bool :=
  match d with [] => false | _ :: _ => true end.

Definition ws : atom := OneOf [Ws].
Definition not_ws : atom := NoneOf [Ws].
Definition letter : atom := OneOf [Rng (chr "A") (chr "Z"); Rng (chr "a") (chr "z")].

(** Patterns are quoted in comments in verbose form: blanks separate the
    parts and stand for nothing.

    ENTRY_START_RE =  ^ \s* @ ([a-zA-Z]+) \s* \{ \s* ([^,\s]+) \s* , \s* $ *)
Definition ENTRY_START_RE : regex :=
  cat [Bol; Star ws; lits (py "@"); Group 1 (Plus letter); Star ws;
       lits (py "{"); Star ws; Group 2 (Plus (NoneOf [Ch (chr ","); Ws]));
       Star ws; lits (py ","); Star ws; Eol].

(** FIELD_RE =  ^ (?P<indent> \s* ) (?P<name> [A-Za-z] [A-Za-z0-9_-]* )
                  \s* = \s* \{ (?P<value> .* ) \} \s* ,? \s* $
    with the groups indent, name and value numbered 1, 2 and 3. *)
Definition FIELD_RE : regex :=
  cat [Bol; Group 1 (Star ws);
       Group 2 (Seq (Atom letter)
                  (Star (OneOf [Rng (chr "A") (chr "Z"); Rng (chr "a") (chr "z");
                             Rng (chr "0") (chr "9"); Ch (chr "_");
                             Ch (chr "-")])));
       Star ws; lits (py "="); Star ws; lits (py "{");
       Group 3 (Star Dot); lits (py "}"); Star ws; Opt (lits (py ","));
       Star ws; Eol].

Definition group_or_empty (n : nat) (m : mtch) : pystr :=
  match group n (m_caps m) with Some t => t | None => [] end.

(** *** split_entries *)

Record split_state : Type := mkSplit {
  sp_entries : list pystr;
  sp_current : list pystr;
  sp_depth : Z;
  sp_in_entry : bool
}.

Definition brace_balance (line : pystr) : Z :=
  Py.count_char (chr "{") line - Py.count_char (chr "}") line.

Definition close_entry (current : list pystr) : pystr :=
  Py.strip (Py.join (py "
") current).

(** The body of the loop over the lines of the text. *)
Definition split_step (st : split_state) (line : pystr) : split_state :=
  if negb (sp_in_entry st) then
    if Py.startswith (Py.lstrip line) (py "@") then
      mkSplit (sp_entries st) [line] (brace_balance line) true
    else st
  else
    let current := sp_current st ++ [line] in
    let depth := (sp_depth st + brace_balance line)%Z in
    if (depth <=? 0)%Z then
      mkSplit (sp_entries st ++ [close_entry current]) [] 0 false
    else mkSplit (sp_entries st) current depth true.

Definition split_entries (text : pystr) : list pystr :=
  let st := fold_left split_step (Py.splitlines text) (mkSplit [] [] 0 false) in
  match sp_current st with
  | [] => sp_entries st
  | _ :: _ => sp_entries st ++ [close_entry (sp_current st)]
  end.

(** *** parse_entry *)

(** The body of the loop over the lines of an entry but the last. *)
Definition parse_line (acc : list field * list pystr) (body_line : pystr)
  : list field * list pystr :=
  let '(fields, unknown) := acc in
  let stripped := Py.rstrip body_line in
  if negb (nonempty stripped) then (fields, unknown ++ [body_line])
  else
    match match_ false FIELD_RE stripped with
    | Some fm =>
        (fields ++ [(group_or_empty 1 fm, group_or_empty 2 fm,
                     group_or_empty 3 fm)], unknown)
    | None => (fields, unknown ++ [body_line])
    end.

(** [None] stands for the [ValueError] the function raises. *)
Definition parse_entry (entry_text : pystr) : option entry :=
  match Py.splitlines entry_text with
  | [] => None
  | line0 :: body_lines =>
      match match_ false ENTRY_START_RE (Py.rstrip line0) with
      | None => None
      | Some m =>
          let entry_type := group_or_empty 1 m in
          let key := group_or_empty 2 m in
          let '(fields, unknown) :=
            fold_left parse_line (removelast body_lines) ([], []) in
          Some (entry_type, key, fields, unknown)
      end
  end.

(** *** build_entry

    Every field the script builds carries a string as its indent, so the
    fall-back on [indent_style] for a missing indent is never taken. *)

Definition header_line (entry_type key : pystr) : pystr :=
  py "@" ++ entry_type ++ py "{" ++ key ++ py ",".

Definition field_line (f : field) : pystr :=
  let '(indent, name, value) := f in
  indent ++ name ++ py " = {" ++ value ++ py "},".

Definition build_entry (entry_type key : pystr) (fields : list field)
    (unknown : list pystr) (indent_style : pystr) : pystr :=
  Py.join (py "
")
    ([header_line entry_type key] ++ map field_line fields ++ unknown
     ++ [py "}"]).

(** *** normalize_date_pt *)

(** The script reads ISO dates with [datetime.fromisoformat], whose
    grammar belongs to the interpreter's library.  The library is an
    interface here: [fromisoformat s] is the year, month and day of the
    datetime read from [s], or [None] for [ValueError]; what it returns is
    a date of the calendar within the years the library supports. *)

Definition is_leap (y : Z) : bool :=
  ((y mod 4 =? 0) && negb (y mod 100 =? 0) || (y mod 400 =? 0))%Z.

Definition days_in_month (y m : Z) : Z :=
  if (m =? 2)%Z then (if is_leap y then 29 else 28)%Z
  else if ((m =? 4) || (m =? 6) || (m =? 9) || (m =? 11))%Z then 30%Z
  else 31%Z.

Definition valid_date (y m d : Z) : bool :=
  ((1 <=? y) && (y <=? 9999) && (1 <=? m) && (m <=? 12)
   && (1 <=? d) && (d <=? days_in_month y m))%Z.

Class Datetime : Type := {
  fromisoformat : pystr -> option (Z * Z * Z);
  fromisoformat_valid :
    forall s y m d, fromisoformat s = Some (y, m, d) -> valid_date y m d = true
}.

(** [date.isoformat()]. *)
Definition isoformat (y m d : Z) : pystr :=
  Py.format_0d 4 y ++ py "-" ++ Py.format_0d 2 m ++ py "-" ++ Py.format_0d 2 d.

Definition months : dict Z :=
  [(py "jan", 1); (py "janeiro", 1);
   (py "fev", 2); (py "fevereiro", 2);
   (py "mar", 3); (py "março", 3); (py "marco", 3);
   (py "abr", 4); (py "abril", 4);
   (py "mai", 5); (py "maio", 5);
   (py "jun", 6); (py "junho", 6);
   (py "jul", 7); (py "julho", 7);
   (py "ago", 8); (py "agosto", 8);
   (py "set", 9); (py "setembro", 9);
   (py "out", 10); (py "outubro", 10);
   (py "nov", 11); (py "novembro", 11);
   (py "dez", 12); (py "dezembro", 12)]%Z.

Section Dates.

Context {DT : Datetime}.

(** The fall-back at the end of the function. *)
Definition parse_iso (s : pystr) : option pystr :=
  match fromisoformat s with
  | Some (y, m, d) => Some (isoformat y m d)
  | None => None
  end.

(** An exception inside the first [try] makes the function return [None];
    only [int] can raise there.  A month that is missing from the table
    lets the control fall through to the ISO fall-back. *)
Definition normalize_date_pt (date_str : pystr) : option pystr :=
  let s := Py.lower (Py.strip date_str) in
  let s := Py.replace (py ".") (py "") (Py.replace (py "de ") (py "") s) in
  let parts := Py.split_ws s in
  match parts with
  | [p0; p1; p2] =>
      match Py.int p0 with
      | None => None
      | Some day =>
          let month := dict_get (firstn 3 p1) months in
          match Py.int p2 with
          | None => None
          | Some year =>
              match month with
              | Some mth =>
                  if (mth =? 0)%Z then parse_iso s
                  else Some (Py.format_0d 4 year ++ py "-"
                             ++ Py.format_0d 2 mth ++ py "-"
                             ++ Py.format_0d 2 day)
              | None => parse_iso s
              end
          end
      end
  | _ => parse_iso s
  end.

(** *** extract_url_and_access *)

(** Dispon[ií]vel \s+ em: *)
Definition re_disponivel : regex :=
  cat [lits (py "Dispon"); Atom (OneOf [Ch (chr "i"); Ch (chr "í")]);
       lits (py "vel"); Plus ws; lits (py "em:")].

(** Acess(?:o|ado) \s+ em: *)
Definition re_acesso : regex :=
  cat [lits (py "Acess"); Alt (lits (py "o")) (lits (py "ado"));
       Plus ws; lits (py "em:")].

Definition not_stop : atom := NoneOf [Ch (chr "."); Ch (chr ";"); Ch 10%N].

(** Dispon[ií]vel \s+ em: \s* ([^\s,;]+) *)
Definition re_disponivel_url : regex :=
  cat [re_disponivel; Star ws;
       Group 1 (Plus (NoneOf [Ws; Ch (chr ","); Ch (chr ";")]))].

(** Acess(?:o|ado) \s+ em: \s* ([^.;\n]+) *)
Definition re_acesso_date : regex :=
  cat [re_acesso; Star ws; Group 1 (Plus not_stop)].

Definition strip_angles (s : pystr) : pystr :=
  Py.replace (py ">") (py "") (Py.replace (py "<") (py "") s).

Definition extract_url_and_access (note_value : pystr)
  : option pystr * option pystr :=
  let note := strip_angles note_value in
  let url :=
    match search true re_disponivel_url note with
    | Some (_, m) =>
        let candidate := Py.strip (group_or_empty 1 m) in
        Some (if Py.endswith candidate (py ".") then removelast candidate
              else candidate)
    | None => None
    end in
  let urldate :=
    match search true re_acesso_date note with
    | Some (_, m2) => normalize_date_pt (group_or_empty 1 m2)
    | None => None
    end in
  (url, urldate).

End Dates.

(** *** is_trivial_note *)

(** https?:// \S+ *)
Definition re_http_url : regex :=
  cat [lits (py "http"); Opt (lits (py "s")); lits (py "://"); Plus not_ws].

(** The four substitutions, in the order of the source:
    Dispon[ií]vel \s+ em: [^.;\n]+  ,  Acess(?:o|ado) \s+ em: [^.;\n]+  ,
    https?:// \S+  (all ignoring case), and  [<>\s.,;:]+  by a blank. *)
Definition is_trivial_note (note_value : pystr) : bool :=
  let text := note_value in
  let text := sub true (Seq re_disponivel (Plus not_stop)) (py "") text in
  let text := sub true (Seq re_acesso (Plus not_stop)) (py "") text in
  let text := sub true re_http_url (py "") text in
  let text :=
    Py.strip
      (sub false
         (Plus (OneOf [Ch (chr "<"); Ch (chr ">"); Ws; Ch (chr "."); Ch (chr ",");
                    Ch (chr ";"); Ch (chr ":")]))
         (py " ") text) in
  negb (nonempty text).

(** *** clean_url_value *)

Definition alnum_ascii : list item :=
  [Rng (chr "A") (chr "Z"); Rng (chr "a") (chr "z"); Rng (chr "0") (chr "9")].

(** \b (?:www\.)? [A-Za-z0-9.-]+ \. [A-Za-z]{2,} (?:/ \S* )? *)
Definition re_domain : regex :=
  cat [Wordb; Opt (lits (py "www."));
       Plus (OneOf (alnum_ascii ++ [Ch (chr "."); Ch (chr "-")]));
       lits (py "."); Rep letter 2 None;
       Opt (Seq (lits (py "/")) (Star not_ws))].

Definition clean_url_value (value : pystr) : option pystr :=
  let candidate := strip_angles (Py.strip value) in
  match search false re_http_url candidate with
  | Some (_, m) => Some (Py.rstrip_chars (py ".,);]") (m_text m))
  | None =>
      match search false re_domain candidate with
      | Some (_, m2) => Some (m_text m2)
      | None => None
      end
  end.

(** *** _smart_title_case

    The recursive call is made on the pieces between hyphens, which hold
    no hyphen: it goes through the branches below the first one, which
    [title_case_piece] is. *)

Definition title_case_piece (token : pystr) : pystr :=
  if Py.contains token (py ".") then Py.upper token
  else
    match Py.lower token with
    | [] => token
    | c :: lower_tl => Py.upper [c] ++ lower_tl
    end.

Definition _smart_title_case (token : pystr) : pystr :=
  if Py.contains token (py "-") then
    Py.join (py "-") (map title_case_piece (Py.split_char (chr "-") token))
  else title_case_piece token.

(** *** _format_author_abnt *)

Definition particles : list pystr :=
  [py "da"; py "de"; py "do"; py "das"; py "dos"; py "e"; py "d"; py "di";
   py "du"; py "van"; py "von"; py "der"; py "del"; py "della"; py "la";
   py "le"].

(** The loop over [enumerate(given_parts)]: [idx] is the index of the
    head of [given_parts]. *)
Fixpoint format_given (idx : nat) (given_parts : list pystr) : list pystr :=
  match given_parts with
  | [] => []
  | part :: tl =>
      let pl := Py.strip_chars (py ".,") (Py.lower part) in
      (if str_in pl particles && negb (Nat.eqb idx 0) then pl
       else _smart_title_case part) :: format_given (S idx) tl
  end.

(** [f"{surname}, {' '.join(formatted_given)}".strip()] *)
Definition surname_given (surname : pystr) (formatted_given : list pystr)
  : pystr :=
  Py.strip (surname ++ py ", " ++ Py.join (py " ") formatted_given).

(** A stripped, non-empty name has a word in it, so [parts[-1]] is
    defined where the script takes it. *)
Definition _format_author_abnt (name : pystr) : pystr :=
  let name := sub false (Plus ws) (py " ") (Py.strip name) in
  if negb (nonempty name) then name
  else if Py.contains name (py ",") then
    match Py.partition_at (chr ",") name with
    | Some (left_, right_) =>
        let surname := Py.upper (Py.strip left_) in
        let given_parts := filter nonempty (Py.split_ws (Py.strip right_)) in
        surname_given surname (format_given 0 given_parts)
    | None => name
    end
  else
    let parts := Py.split_ws name in
    match parts with
    | [p] => Py.upper p
    | _ =>
        let surname := Py.upper (last parts []) in
        let given_parts := removelast parts in
        surname_given surname (format_given 0 given_parts)
    end.

(** *** normalize_author_list_abnt *)

(** \s+ and \s+ *)
Definition re_and : regex := cat [Plus ws; lits (py "and"); Plus ws].

(** \b others \.? \b *)
Definition re_others : regex :=
  cat [Wordb; lits (py "others"); Opt (lits (py ".")); Wordb].

(** The body of the loop over the pieces of the list. *)
Definition author_step (normalized : list pystr) (p : pystr) : list pystr :=
  let token := Py.strip_chars (py "{} ") (Py.strip p) in
  if negb (nonempty token) then normalized
  else if found true re_others token then normalized ++ [py "others."]
  else normalized ++ [_format_author_abnt token].

Definition normalize_author_list_abnt (author_value : pystr) : pystr :=
  let parts := split false re_and (Py.strip author_value) in
  Py.join (py " and ") (fold_left author_step parts []).

(** *** normalize_fields *)

(** The index of the parsed entries: key -> (type, fields, unknown). *)
Definition entries_map_t : Type := dict (pystr * list field * list pystr).

Definition names_of (fields : list field) : list pystr := map f_name fields.

Definition has_name (n : pystr) (fields : list field) : bool :=
  str_in n (names_of fields).

(** [new_fields[0][0] if new_fields else ""] *)
Definition first_indent (new_fields : list field) : pystr :=
  match new_fields with
  | f :: _ => f_indent f
  | [] => []
  end.

(** [new_fields.append((new_fields[0][0] if new_fields else "", n, v))] *)
Definition append_styled (new_fields : list field) (n v : pystr) : list field :=
  new_fields ++ [(first_indent new_fields, n, v)].

(** The first field named "crossref", in any case: its stripped value. *)
Fixpoint find_crossref (fields : list field) : option pystr :=
  match fields with
  | [] => None
  | (_, n, v) :: tl =>
      if Py.eqb (Py.lower n) (py "crossref") then Some (Py.strip v)
      else find_crossref tl
  end.

(** The loop over the fields of the parent. *)
Definition inherit_step (child_names : list pystr) (merged : list field)
    (pf : field) : list field :=
  let '(p_indent, p_name, p_value) := pf in
  let pl := Py.lower p_name in
  if negb (str_in pl child_names) && negb (str_in pl [py "key"; py "crossref"])
  then merged ++ [(p_indent, p_name, p_value)]
  else merged.

(** Cross-reference resolution: the fields the main loop runs over. *)
Definition merge_crossref (fields : list field) (entries_map : entries_map_t)
  : list field :=
  let crossref_key := find_crossref fields in
  let merged_fields := fields in
  match crossref_key with
  | Some ck =>
      if nonempty ck && dict_nonempty entries_map then
        match dict_get ck entries_map with
        | Some (parent_type, parent_fields, _) =>
            let child_names := map (fun f => Py.lower (f_name f)) merged_fields in
            let merged_fields :=
              fold_left (inherit_step child_names) parent_fields merged_fields in
            filter (fun f => negb (Py.eqb (Py.lower (f_name f)) (py "crossref")))
              merged_fields
        | None => merged_fields
        end
      else merged_fields
  | None => merged_fields
  end.

(** \b et \s* al \.? \b *)
Definition re_et_al : regex :=
  cat [Wordb; lits (py "et"); Star ws; lits (py "al"); Opt (lits (py "."));
       Wordb].

(** Dispon[ií]vel \s+ em: | https?:// *)
Definition re_has_url : regex :=
  Alt re_disponivel (cat [lits (py "http"); Opt (lits (py "s")); lits (py "://")]).

(** ^ \d{4} - \d{2} - \d{2} $ *)
Definition re_iso_date : regex :=
  cat [Bol; Rep (OneOf [Dg]) 4 (Some 4); lits (py "-"); Rep (OneOf [Dg]) 2 (Some 2);
       lits (py "-"); Rep (OneOf [Dg]) 2 (Some 2); Eol].

(** [re.split(pattern, v)[0]] *)
Definition split_head (ic : bool) (r : regex) (v : pystr) : pystr :=
  hd [] (split ic r v).

Definition pt_markers : list regex :=
  [cat [lits (py "Dispon"); Atom (OneOf [Ch (chr "i"); Ch (chr "í")]); lits (py "vel")];
   lits (py "Acesso"); lits (py "Lei nº"); lits (py "Decreto nº");
   cat [lits (py "Educa"); Atom (OneOf [Ch (chr "ç"); Ch (chr "c")]);
        Atom (OneOf [Ch (chr "a"); Ch (chr "ã")]); lits (py "o")];
   lits (py "Sociedade"); lits (py "São Paulo"); lits (py "Edições");
   lits (py "Revista"); lits (py "Anais")].

Section Normalize.

Context {DT : Datetime}.

(** The state of the main loop: [new_fields] and [note_value_for_url]
    ([seen_names] is written and never read). *)
Definition loop_state : Type := list field * option pystr.

(** The block for journal, publisher, booktitle and address: the new
    value and the fields appended before it. *)
Definition split_url_fragment (indent v : pystr) (new_fields : list field)
  : pystr * list field :=
  let '(url_from_field, urldate_from_field) := extract_url_and_access v in
  let v' :=
    Py.rstrip_chars (py " .;")
      (Py.strip (split_head true (Seq re_disponivel (Star ws)) v)) in
  let existing_names := names_of new_fields in
  let new_fields :=
    match url_from_field with
    | Some url =>
        if nonempty url && negb (str_in (py "url") existing_names)
        then new_fields ++ [(indent, py "url", url)] else new_fields
    | None => new_fields
    end in
  let new_fields :=
    match urldate_from_field with
    | Some urldate =>
        if nonempty urldate && negb (str_in (py "urldate") existing_names)
        then new_fields ++ [(indent, py "urldate", urldate)] else new_fields
    | None => new_fields
    end in
  (v', new_fields).

(** The corrections for the entry bardin2016; [None] drops the field. *)
Definition bardin_fix (lname v : pystr) : option pystr :=
  if Py.eqb lname (py "edition") && Py.eqb v (py "70") then None
  else
    let v :=
      if Py.eqb lname (py "publisher")
         && str_in (Py.strip_chars (py "{} ") v) [py "São Paulo"; py "Sao Paulo"]
      then py "Edições 70" else v in
    let v :=
      if Py.eqb lname (py "address") && negb (nonempty (Py.strip v))
      then py "São Paulo" else v in
    Some v.

(** The rewrites of the value of a url, doi or author field, in the
    order of the source. *)
Definition rewrite_value (lname v : pystr) : pystr :=
  let v :=
    if Py.eqb lname (py "url") then
      match clean_url_value v with
      | Some cleaned => if nonempty cleaned then cleaned else v
      | None => v
      end
    else v in
  let v :=
    if Py.eqb lname (py "doi") then
      Py.strip (Py.replace (py "https://doi.org/") (py "")
                  (Py.replace (py "http://doi.org/") (py "") v))
    else v in
  if Py.eqb lname (py "author") then
    normalize_author_list_abnt (sub true re_et_al (py "and others") v)
  else v.

(** The body of the main loop, for one field of [merged_fields]. *)
Definition field_step (key : pystr) (st : loop_state) (f : field) : loop_state :=
  let '(new_fields, note_value_for_url) := st in
  let '(indent, name, value) := f in
  let lname := Py.lower name in
  let v := rewrite_value lname (Py.strip value) in
  let note_value_for_url :=
    if Py.eqb lname (py "note") then Some v else note_value_for_url in
  if Py.eqb lname (py "note") && is_trivial_note v then
    (new_fields, note_value_for_url)
  else
    let '(v, new_fields) :=
      if str_in lname [py "journal"; py "publisher"; py "booktitle"; py "address"]
         && found true re_has_url v
      then split_url_fragment indent v new_fields
      else (v, new_fields) in
    if Py.eqb lname (py "key") then (new_fields, note_value_for_url)
    else if Py.eqb (Py.lower key) (py "bardin2016") then
      match bardin_fix lname v with
      | None => (new_fields, note_value_for_url)
      | Some v => (new_fields ++ [(indent, lname, v)], note_value_for_url)
      end
    else (new_fields ++ [(indent, lname, v)], note_value_for_url).

(** "If Bardin2016 missing correct publisher/address, add them". *)
Definition bardin_defaults (key : pystr) (new_fields : list field) : list field :=
  if Py.eqb (Py.lower key) (py "bardin2016") then
    let names := names_of new_fields in
    let new_fields :=
      if negb (str_in (py "publisher") names)
      then append_styled new_fields (py "publisher") (py "Edições 70")
      else new_fields in
    if negb (str_in (py "address") names)
    then append_styled new_fields (py "address") (py "São Paulo")
    else new_fields
  else new_fields.

(** "Extract url/urldate from note for misc/online entries". *)
Definition note_url_stage (note_value_for_url : option pystr)
    (new_fields : list field) : list field :=
  match note_value_for_url with
  | Some note =>
      if nonempty note && negb (has_name (py "url") new_fields) then
        let '(url, urldate) := extract_url_and_access note in
        let new_fields :=
          if truthy url
          then append_styled new_fields (py "url") (match url with Some x => x | None => [] end)
          else new_fields in
        if truthy urldate && negb (has_name (py "urldate") new_fields)
        then append_styled new_fields (py "urldate")
               (match urldate with Some x => x | None => [] end)
        else new_fields
      else new_fields
  | None => new_fields
  end.

(** The title taken from the note, before "Disponível em:". *)
Definition title_from_note (note : pystr) : option pystr :=
  let raw := strip_angles note in
  let candidate := Py.strip (split_head true (Seq re_disponivel (Star ws)) raw) in
  if nonempty candidate then
    let candidate :=
      Py.strip (split_head true (Seq re_acesso (Star ws)) candidate) in
    let candidate := Py.rstrip_chars (py " .;") candidate in
    if nonempty candidate then Some candidate else None
  else None.

(** The value of the first field called [name], as the loop with [break]
    finds it. *)
Fixpoint first_value (name : pystr) (fields : list field) : option pystr :=
  match fields with
  | [] => None
  | (_, n, v) :: tl => if Py.eqb n name then Some v else first_value name tl
  end.

(** "ABNT-friendly enrichment for misc entries in Portuguese context". *)
Definition misc_stage (entry_type key : pystr)
    (note_value_for_url : option pystr) (new_fields : list field) : list field :=
  if Py.eqb (Py.lower entry_type) (py "misc") then
    let names := names_of new_fields in
    let key_lower := Py.lower key in
    let new_fields :=
      if negb (str_in (py "author") names) then
        let inferred_author :=
          if Py.contains key_lower (py "brasil") then Some (py "BRASIL")
          else if Py.startswith key_lower (py "w3c") then Some (py "W3C")
          else None in
        match inferred_author with
        | Some a => append_styled new_fields (py "author") a
        | None => new_fields
        end
      else new_fields in
    let new_fields :=
      if negb (str_in (py "title") names) && truthy note_value_for_url then
        match title_from_note
                (match note_value_for_url with Some x => x | None => [] end) with
        | Some candidate => append_styled new_fields (py "title") candidate
        | None => new_fields
        end
      else new_fields in
    let names := names_of new_fields in
    let new_fields :=
      if negb (str_in (py "year") names) then
        match first_value (py "urldate") new_fields with
        | Some urldate_val =>
            if nonempty urldate_val
               && match match_ false re_iso_date urldate_val with
                  | Some _ => true | None => false end
            then append_styled new_fields (py "year") (firstn 4 urldate_val)
            else new_fields
        | None => new_fields
        end
      else new_fields in
    if has_name (py "url") new_fields && negb (has_name (py "howpublished") new_fields)
    then append_styled new_fields (py "howpublished") (py "Online")
    else new_fields
  else new_fields.

(** "language detection for PT-BR". *)
Definition is_pt_field (f : field) : bool :=
  let text := f_name f ++ py " " ++ f_value f in
  existsb (fun p => found true p text) pt_markers.

Definition language_stage (new_fields : list field) : list field :=
  if negb (has_name (py "language") new_fields) then
    if existsb is_pt_field new_fields
    then append_styled new_fields (py "language") (py "portuguese")
    else new_fields
  else new_fields.

Definition normalize_fields (entry_type key : pystr) (fields : list field)
    (entries_map : entries_map_t) : list field :=
  let merged_fields := merge_crossref fields entries_map in
  let '(new_fields, note_value_for_url) :=
    fold_left (field_step key) merged_fields ([], None) in
  let new_fields := bardin_defaults key new_fields in
  let new_fields := note_url_stage note_value_for_url new_fields in
  let new_fields := misc_stage entry_type key note_value_for_url new_fields in
  language_stage new_fields.

End Normalize.

(** *** order_fields *)

Definition order_map : dict (list pystr) :=
  [(py "article",
    [py "author"; py "title"; py "journal"; py "volume"; py "number";
     py "pages"; py "year"; py "doi"; py "url"; py "urldate"; py "language"]);
   (py "book",
    [py "author"; py "title"; py "edition"; py "address"; py "publisher";
     py "year"; py "isbn"; py "doi"; py "url"; py "urldate"; py "language"]);
   (py "inproceedings",
    [py "author"; py "title"; py "booktitle"; py "year"; py "organization";
     py "publisher"; py "address"; py "pages"; py "doi"; py "url";
     py "urldate"; py "language"]);
   (py "techreport",
    [py "author"; py "title"; py "institution"; py "year"; py "number";
     py "address"; py "doi"; py "url"; py "urldate"; py "language"]);
   (py "misc",
    [py "author"; py "title"; py "year"; py "howpublished"; py "url";
     py "urldate"; py "language"; py "note"])].

(** [order_map.get(entry_type.lower(), [])] *)
Definition desired_of (entry_type : pystr) : list pystr :=
  match dict_get (Py.lower entry_type) order_map with
  | Some l => l
  | None => []
  end.

(** The state of both loops: [ordered] and the set [used]. *)
Definition order_state : Type := list field * list pystr.

(** The inner loop of the first pass: the first field called [name],
    provided [name] is not used yet; the loop stops there. *)
Definition pick (name : pystr) (used : list pystr) (fields : list field)
  : option field :=
  find (fun f => Py.eqb (f_name f) name && negb (str_in (f_name f) used)) fields.

(** "add desired fields first" *)
Definition desired_step (indent_style : pystr) (fields : list field)
    (st : order_state) (name : pystr) : order_state :=
  let '(ordered, used) := st in
  match pick name used fields with
  | Some (_, n, v) => (ordered ++ [(indent_style, n, v)], n :: used)
  | None => st
  end.

(** "then remaining fields" *)
Definition rest_step (indent_style : pystr) (st : order_state) (f : field)
  : order_state :=
  let '(ordered, used) := st in
  let '(_, n, v) := f in
  if negb (str_in n used) then (ordered ++ [(indent_style, n, v)], n :: used)
  else st.

Definition order_fields (entry_type : pystr) (fields : list field) : list field :=
  let desired := desired_of entry_type in
  let indent_style := first_indent fields in
  let st := fold_left (desired_step indent_style fields) desired ([], []) in
  fst (fold_left (rest_step indent_style) fields st).

(** *** entry_fingerprint *)

Definition fingerprint : Type := pystr * pystr * pystr.

(** [^a-z0-9]+ *)
Definition re_non_alnum : regex :=
  Plus (NoneOf [Rng (chr "a") (chr "z"); Rng (chr "0") (chr "9")]).

Definition fingerprint_step (fp : fingerprint) (f : field) : fingerprint :=
  let '(doi, url, title) := fp in
  let '(_, name, value) := f in
  let lname := Py.lower name in
  if Py.eqb lname (py "doi") then (Py.lower (Py.strip value), url, title)
  else if Py.eqb lname (py "url") then (doi, Py.lower (Py.strip value), title)
  else if Py.eqb lname (py "title") then
    (doi, url, sub false re_non_alnum (py "") (Py.lower (Py.strip value)))
  else fp.

Definition entry_fingerprint (entry_type key : pystr) (fields : list field)
  : fingerprint :=
  fold_left fingerprint_step fields ([], [], []).

(** [any(fp)] *)
Definition fp_any (fp : fingerprint) : bool :=
  let '(doi, url, title) := fp in nonempty doi || nonempty url || nonempty title.

Definition fp_eqb (a b : fingerprint) : bool :=
  let '(d1, u1, t1) := a in
  let '(d2, u2, t2) := b in
  Py.eqb d1 d2 && Py.eqb u1 u2 && Py.eqb t1 t2.

(** [fp in seen] *)
Definition fp_in (fp : fingerprint) (seen : list fingerprint) : bool :=
  existsb (fp_eqb fp) seen.

(** *** main

    [main] reads the file, makes a backup, runs the pipeline on the text,
    writes the result and prints three counters.  The pipeline is a
    function of the text; it is modelled as such, with the counters in the
    result. *)

Definition field_eqb (a b : field) : bool :=
  Py.eqb (f_indent a) (f_indent b) && Py.eqb (f_name a) (f_name b)
  && Py.eqb (f_value a) (f_value b).

Fixpoint fields_eqb (a b : list field) : bool :=
  match a, b with
  | [], [] => true
  | x :: a', y :: b' => field_eqb x y && fields_eqb a' b'
  | _, _ => false
  end.

(** "First parse all entries to support crossref resolution": a block
    that fails to parse is kept as ("", "", [], [entry_text]). *)
Definition parse_step (acc : list entry * entries_map_t) (entry_text : pystr)
  : list entry * entries_map_t :=
  let '(parsed, entries_map) := acc in
  match parse_entry entry_text with
  | None => (parsed ++ [([], [], [], [entry_text])], entries_map)
  | Some (entry_type, key, fields, unknown) =>
      (parsed ++ [(entry_type, key, fields, unknown)],
       dict_set key (entry_type, fields, unknown) entries_map)
  end.

Definition parse_all (entries : list pystr) : list entry * entries_map_t :=
  fold_left parse_step entries ([], []).

Record run_state : Type := mkRun {
  normalized_entries : list pystr;
  seen : list fingerprint;
  dropped : nat;
  changed : nat
}.

Section Main.

Context {DT : Datetime}.

(** The fields of an entry after normalization and ordering. *)
Definition new_fields_of (entries_map : entries_map_t) (e : entry) : list field :=
  let '(entry_type, key, fields, unknown) := e in
  order_fields entry_type (normalize_fields entry_type key fields entries_map).

(** The body of the second loop of [main]. *)
Definition process_step (entries_map : entries_map_t) (st : run_state)
    (e : entry) : run_state :=
  let '(entry_type, key, fields, unknown) := e in
  if negb (nonempty entry_type) then
    mkRun (normalized_entries st ++ [Py.join (py "
") unknown])
      (seen st) (dropped st) (changed st)
  else
    let indent_style := first_indent fields in
    let new_fields := new_fields_of entries_map e in
    let fp := entry_fingerprint entry_type key new_fields in
    let keep (seen' : list fingerprint) : run_state :=
      let changed' :=
        if negb (fields_eqb new_fields fields) then S (changed st)
        else changed st in
      let normalized := build_entry entry_type key new_fields unknown indent_style in
      mkRun (normalized_entries st ++ [normalized]) seen' (dropped st) changed' in
    if fp_any fp then
      if fp_in fp (seen st) then
        mkRun (normalized_entries st) (seen st) (S (dropped st)) (changed st)
      else keep (fp :: seen st)
    else keep (seen st).

Definition process_all (entries_map : entries_map_t) (parsed : list entry)
  : run_state :=
  fold_left (process_step entries_map) parsed (mkRun [] [] 0 0).

(** The result of a run: the text written back and the three counters
    printed (processed, modified, removed as duplicates). *)
Record report : Type := mkReport {
  output_text : pystr;
  n_processed : nat;
  n_changed : nat;
  n_dropped : nat
}.

Definition main (original : pystr) : report :=
  let entries := split_entries original in
  let '(parsed, entries_map) := parse_all entries in
  let st := process_all entries_map parsed in
  mkReport
    (Py.join (py "

") (normalized_entries st) ++ py "
")
    (List.length entries) (changed st) (dropped st).

End Main.

(** *** An implementation of the date interface

    The date-only form YYYY-MM-DD, which every version of the library
    reads.  The runs of the script on concrete texts below use it. *)

Definition two_digits (a b : Py.char) : Z :=
  Py.digit_value a * 10 + Py.digit_value b.

Definition iso_date_only (s : pystr) : option (Z * Z * Z) :=
  match s with
  | [y1; y2; y3; y4; h1; m1; m2; h2; d1; d2] =>
      if forallb Py.isdigit [y1; y2; y3; y4; m1; m2; d1; d2]
         && N.eqb h1 45 && N.eqb h2 45
      then
        let y := (two_digits y1 y2 * 100 + two_digits y3 y4)%Z in
        let m := two_digits m1 m2 in
        let d := two_digits d1 d2 in
        if valid_date y m d then Some (y, m, d) else None
      else None
  | _ => None
  end.

Lemma iso_date_only_valid :
  forall s y m d, iso_date_only s = Some (y, m, d) -> valid_date y m d = true.
Proof.
  intros s y m d H. unfold iso_date_only in H.
  do 11 (destruct s as [|? s]; try discriminate).
  destruct (forallb _ _ && _ && _); try discriminate.
  match type of H with
  | (if ?b then _ else _) = _ => destruct b eqn:V; try discriminate
  end.
  injection H as <- <- <-. exact V.
Qed.

#[export] Instance date_only : Datetime :=
  {| fromisoformat := iso_date_only; fromisoformat_valid := iso_date_only_valid |}.

(* ================================================================== *)
(** ** Properties *)
(* ================================================================== *)

(** *** Strings *)

Lemma eqb_eq (a b : pystr) : Py.eqb a b = true <-> a = b.
Proof.
  revert b. induction a as [|x a IH]; intros [|y b]; simpl;
    try (split; (discriminate || reflexivity)).
  rewrite andb_true_iff, N.eqb_eq, IH. split.
  - intros [-> ->]. reflexivity.
  - intros E. injection E as -> ->. split; reflexivity.
Qed.

Lemma eqb_refl (a : pystr) : Py.eqb a a = true.
Proof. apply eqb_eq. reflexivity. Qed.

Lemma eqb_neq (a b : pystr) : Py.eqb a b = false <-> a <> b.
Proof.
  rewrite <- eqb_eq. destruct (Py.eqb a b); split; congruence.
Qed.

Lemma eqb_sym (a b : pystr) : Py.eqb a b = Py.eqb b a.
Proof.
  destruct (Py.eqb a b) eqn:E.
  - apply eqb_eq in E. subst. symmetry. apply eqb_refl.
  - destruct (Py.eqb b a) eqn:E'; [|reflexivity].
    apply eqb_eq in E'. subst. rewrite eqb_refl in E. discriminate.
Qed.

Lemma str_in_In (s : pystr) (l : list pystr) : str_in s l = true <-> In s l.
Proof.
  unfold str_in. rewrite existsb_exists. split.
  - intros (x & Hx & E). apply eqb_eq in E. subst. exact Hx.
  - intros H. exists s. split; [exact H | apply eqb_refl].
Qed.

Lemma str_in_not_In (s : pystr) (l : list pystr) :
  str_in s l = false <-> ~ In s l.
Proof.
  rewrite <- str_in_In. destruct (str_in s l); split; congruence.
Qed.

Lemma str_in_app (s : pystr) (l1 l2 : list pystr) :
  str_in s (l1 ++ l2) = str_in s l1 || str_in s l2.
Proof. unfold str_in. apply existsb_app. Qed.

Lemma str_in_cons (s x : pystr) (l : list pystr) :
  str_in s (x :: l) = Py.eqb s x || str_in s l.
Proof. reflexivity. Qed.

(** A list of strings without repetition, decided. *)
Fixpoint nodupb (l : list pystr) : bool :=
  match l with
  | [] => true
  | x :: tl => negb (str_in x tl) && nodupb tl
  end.

Lemma nodupb_NoDup (l : list pystr) : nodupb l = true -> NoDup l.
Proof.
  induction l as [|x l IH]; simpl; intros H; constructor.
  - apply andb_true_iff in H as [H _]. apply negb_true_iff in H.
    apply str_in_not_In. exact H.
  - apply IH. apply andb_true_iff in H as [_ H]. exact H.
Qed.

(** *** The field orderer *)

Module Order.

(** A field under the indent style of the record. *)
Definition restyle (indent_style : pystr) (f : field) : field :=
  (indent_style, f_name f, f_value f).

(** The first field called [name]. *)
Definition first_named (name : pystr) (fields : list field) : option field :=
  find (fun f => Py.eqb (f_name f) name) fields.

(** The fields matching a priority list, in list order: for each name of
    the list the first field of that name, when there is one. *)
Definition priority_part (desired : list pystr) (fields : list field)
  : list field :=
  flat_map
    (fun name => match first_named name fields with
                 | Some f => [f]
                 | None => []
                 end)
    desired.

(** The fields whose name is not in [used], each name once: of several
    fields of one name the first is kept. *)
Fixpoint first_occurrences (used : list pystr) (fields : list field)
  : list field :=
  match fields with
  | [] => []
  | f :: tl =>
      if str_in (f_name f) used then first_occurrences used tl
      else f :: first_occurrences (f_name f :: used) tl
  end.

Definition unlisted (desired : list pystr) (f : field) : bool :=
  negb (str_in (f_name f) desired).

(** The fields outside the priority list, in their order, each name
    once. *)
Definition remaining_part (desired : list pystr) (fields : list field)
  : list field :=
  first_occurrences [] (filter (unlisted desired) fields).

Lemma find_ext_in {A} (p q : A -> bool) (l : list A) :
  (forall x, In x l -> p x = q x) -> find p l = find q l.
Proof.
  induction l as [|x l IH]; simpl; intros H; [reflexivity|].
  rewrite (H x (or_introl eq_refl)).
  destruct (q x); [reflexivity|]. apply IH. intros y Hy. apply H. right. exact Hy.
Qed.

Lemma pick_unused (name : pystr) (used : list pystr) (fields : list field) :
  str_in name used = false -> pick name used fields = first_named name fields.
Proof.
  intros Hu. unfold pick, first_named. apply find_ext_in. intros f _.
  destruct (Py.eqb (f_name f) name) eqn:E; [|reflexivity].
  apply eqb_eq in E. rewrite E, Hu. reflexivity.
Qed.

Lemma first_named_name (name : pystr) (fields : list field) (f : field) :
  first_named name fields = Some f -> f_name f = name /\ In f fields.
Proof.
  unfold first_named. intros H. apply find_some in H as [Hin E].
  apply eqb_eq in E. split; assumption.
Qed.

Lemma first_named_None (name : pystr) (fields : list field) :
  first_named name fields = None <-> ~ In name (names_of fields).
Proof.
  unfold first_named, names_of. split.
  - intros H Hin. apply in_map_iff in Hin as (f & Hf & Hin).
    pose proof (find_none _ _ H f Hin) as E. simpl in E.
    rewrite Hf, eqb_refl in E. discriminate.
  - intros H. destruct (find _ fields) as [f|] eqn:E; [|reflexivity].
    apply find_some in E as [Hin E]. apply eqb_eq in E.
    exfalso. apply H. apply in_map_iff. exists f. split; assumption.
Qed.

(** The first pass, from any state whose [used] meets no name of the
    list still to come. *)
Lemma desired_pass (s : pystr) (fields : list field) (desired : list pystr) :
  NoDup desired ->
  forall ordered used,
    (forall n, In n desired -> str_in n used = false) ->
    exists used',
      fold_left (desired_step s fields) desired (ordered, used)
      = (ordered ++ map (restyle s) (priority_part desired fields), used')
      /\ (forall n, str_in n used' = true <->
                    str_in n used = true
                    \/ (In n desired /\ In n (names_of fields))).
Proof.
  induction 1 as [|name desired Hnot Hnd IH]; intros ordered used Hu; simpl.
  - exists used. rewrite app_nil_r. split; [reflexivity|]. tauto.
  - rewrite pick_unused by (apply Hu; left; reflexivity).
    destruct (first_named name fields) as [[[i n] v]|] eqn:E.
    + apply first_named_name in E as [En Hin]. cbv [f_name fst snd] in En.
      subst n.
      destruct (IH (ordered ++ [(s, name, v)]) (name :: used)) as (used' & E' & Hm).
      { intros n Hn. rewrite str_in_cons, (Hu n (or_intror Hn)), orb_false_r.
        apply eqb_neq. intros ->. contradiction. }
      exists used'. split.
      * rewrite E'. rewrite <- app_assoc. reflexivity.
      * intros n. rewrite Hm, str_in_cons, orb_true_iff, eqb_eq. split.
        -- intros [[->|H]|[H1 H2]]; auto.
           right. split; [left; reflexivity|].
           apply in_map_iff. exists (i, name, v). split; [reflexivity|assumption].
        -- intros [H|[[->|H1] H2]]; auto.
    + apply first_named_None in E.
      destruct (IH ordered used) as (used' & E' & Hm).
      { intros n Hn. apply Hu. right. exact Hn. }
      exists used'. split; [exact E'|].
      intros n. rewrite Hm. split.
      * intros [H|[H1 H2]]; auto.
      * intros [H|[[->|H1] H2]]; auto; contradiction.
Qed.

(** The second pass. *)
Lemma rest_pass (s : pystr) (fields : list field) :
  forall ordered used,
    fst (fold_left (rest_step s) fields (ordered, used))
    = ordered ++ map (restyle s) (first_occurrences used fields).
Proof.
  induction fields as [|[[i n] v] fields IH]; intros ordered used; simpl.
  - rewrite app_nil_r. reflexivity.
  - unfold f_name at 1. simpl.
    destruct (str_in n used); simpl.
    + apply IH.
    + rewrite IH, <- app_assoc. reflexivity.
Qed.

(** [first_occurrences] reads [used] as a set. *)
Lemma first_occurrences_ext (fields : list field) :
  forall used used',
    (forall n, str_in n used = str_in n used') ->
    first_occurrences used fields = first_occurrences used' fields.
Proof.
  induction fields as [|f fields IH]; intros used used' H; simpl; [reflexivity|].
  rewrite <- H. destruct (str_in (f_name f) used); [apply IH; exact H|].
  f_equal. apply IH. intros n. rewrite !str_in_cons, H. reflexivity.
Qed.

Lemma first_occurrences_filter (fields : list field) :
  forall a used,
    first_occurrences (a ++ used) fields
    = first_occurrences a
        (filter (fun f => negb (str_in (f_name f) used)) fields).
Proof.
  induction fields as [|f fields IH]; intros a used; simpl; [reflexivity|].
  rewrite str_in_app.
  destruct (str_in (f_name f) used) eqn:Eu; simpl.
  - rewrite orb_true_r. apply IH.
  - rewrite orb_false_r. destruct (str_in (f_name f) a); [apply IH|].
    f_equal. apply (IH (f_name f :: a)).
Qed.

Lemma desired_of_NoDup (entry_type : pystr) : NoDup (desired_of entry_type).
Proof.
  unfold desired_of, order_map, dict_get.
  repeat match goal with
         | |- context [Py.eqb ?a ?b] => destruct (Py.eqb a b)
         end;
    solve [ constructor | apply nodupb_NoDup; vm_compute; reflexivity ].
Qed.

(** What [order_fields] returns. *)
Lemma order_fields_char (entry_type : pystr) (fields : list field) :
  order_fields entry_type fields
  = map (restyle (first_indent fields))
      (priority_part (desired_of entry_type) fields
       ++ remaining_part (desired_of entry_type) fields).
Proof.
  unfold order_fields, remaining_part.
  destruct (desired_pass (first_indent fields) fields
              (desired_of_NoDup entry_type) [] [])
    as (used' & E & Hm); [reflexivity|].
  rewrite E, rest_pass, map_app. simpl. f_equal. f_equal.
  rewrite (first_occurrences_ext fields used' ([] ++ used'))
    by reflexivity.
  rewrite first_occurrences_filter. f_equal.
  apply filter_ext_in. intros f Hf. unfold unlisted. f_equal.
  destruct (str_in (f_name f) (desired_of entry_type)) eqn:Ed.
  - apply Hm. right. split; [apply str_in_In; exact Ed|].
    apply in_map. exact Hf.
  - destruct (str_in (f_name f) used') eqn:Eu; [|reflexivity].
    apply Hm in Eu as [Eu|[Eu _]]; [discriminate|].
    apply str_in_In in Eu. congruence.
Qed.

Lemma names_of_restyle (s : pystr) (l : list field) :
  names_of (map (restyle s) l) = names_of l.
Proof. unfold names_of. rewrite map_map. reflexivity. Qed.

Lemma names_of_app (l1 l2 : list field) :
  names_of (l1 ++ l2) = names_of l1 ++ names_of l2.
Proof. apply map_app. Qed.

Lemma first_named_value (name : pystr) (fields : list field) (f : field) :
  first_named name fields = Some f -> first_value name fields = Some (f_value f).
Proof.
  unfold first_named.
  induction fields as [|[[i n] v] fields IH]; simpl; [discriminate|].
  unfold f_name at 1. simpl. destruct (Py.eqb n name).
  - intros E. injection E as <-. reflexivity.
  - exact IH.
Qed.

Lemma first_named_filter (q : field -> bool) (name : pystr) (fields : list field) :
  (forall f, f_name f = name -> q f = true) ->
  first_named name (filter q fields) = first_named name fields.
Proof.
  intros Hq. unfold first_named.
  induction fields as [|f fields IH]; simpl; [reflexivity|].
  destruct (Py.eqb (f_name f) name) eqn:E.
  - apply eqb_eq in E. rewrite (Hq f E). simpl.
    rewrite <- E, eqb_refl. reflexivity.
  - destruct (q f); simpl; [rewrite E|]; exact IH.
Qed.

Lemma in_priority_part (desired : list pystr) (fields : list field) (f : field) :
  In f (priority_part desired fields) <->
  In (f_name f) desired /\ first_named (f_name f) fields = Some f.
Proof.
  unfold priority_part. rewrite in_flat_map. split.
  - intros (name & Hn & Hf).
    destruct (first_named name fields) as [g|] eqn:E; [|contradiction].
    destruct Hf as [<-|[]].
    destruct (first_named_name _ _ E) as [-> _]. split; assumption.
  - intros [Hn E]. exists (f_name f). split; [exact Hn|].
    rewrite E. left. reflexivity.
Qed.

Lemma in_first_occurrences (fields : list field) :
  forall used f,
    In f (first_occurrences used fields) ->
    str_in (f_name f) used = false
    /\ first_named (f_name f) fields = Some f.
Proof.
  unfold first_named.
  induction fields as [|g fields IH]; intros used f; simpl; [contradiction|].
  destruct (str_in (f_name g) used) eqn:Eg.
  - intros H. destruct (IH _ _ H) as [Hu Hf]. split; [exact Hu|].
    destruct (Py.eqb (f_name g) (f_name f)) eqn:E; [|exact Hf].
    apply eqb_eq in E. congruence.
  - intros [<-|H].
    + rewrite eqb_refl. split; [exact Eg | reflexivity].
    + destruct (IH _ _ H) as [Hu Hf]. rewrite str_in_cons in Hu.
      apply orb_false_iff in Hu as [Hne Hu]. split; [exact Hu|].
      rewrite eqb_sym, Hne. exact Hf.
Qed.

Lemma first_occurrences_complete (fields : list field) :
  forall used n,
    In n (names_of fields) -> str_in n used = false ->
    In n (names_of (first_occurrences used fields)).
Proof.
  induction fields as [|g fields IH]; intros used n; simpl; [contradiction|].
  intros [<-|H] Hu.
  - rewrite Hu. left. reflexivity.
  - destruct (str_in (f_name g) used) eqn:Eg; [apply IH; assumption|].
    simpl. destruct (Py.eqb n (f_name g)) eqn:E.
    + apply eqb_eq in E. left. congruence.
    + right. apply IH; [exact H|]. rewrite str_in_cons, E, Hu. reflexivity.
Qed.

Lemma first_occurrences_NoDup (fields : list field) :
  forall used, NoDup (names_of (first_occurrences used fields)).
Proof.
  induction fields as [|g fields IH]; intros used; simpl; [constructor|].
  destruct (str_in (f_name g) used); [apply IH|].
  simpl. constructor; [|apply IH].
  intros Hin. apply in_map_iff in Hin as (f & Hf & Hin).
  apply in_first_occurrences in Hin as [Hu _].
  rewrite Hf, str_in_cons, eqb_refl in Hu. discriminate.
Qed.

(** On a list without repeated names, nothing is passed over. *)
Lemma first_occurrences_id (fields : list field) :
  forall used,
    NoDup (names_of fields) ->
    (forall n, In n (names_of fields) -> str_in n used = false) ->
    first_occurrences used fields = fields.
Proof.
  induction fields as [|g fields IH]; intros used Hnd Hu; simpl; [reflexivity|].
  simpl in Hnd. inversion Hnd as [|? ? Hnot Hnd']; subst.
  rewrite (Hu (f_name g) (or_introl eq_refl)). f_equal.
  apply IH; [exact Hnd'|].
  intros n Hn. rewrite str_in_cons, (Hu n (or_intror Hn)), orb_false_r.
  apply eqb_neq. intros ->. contradiction.
Qed.

Lemma names_filter_NoDup (q : field -> bool) (fields : list field) :
  NoDup (names_of fields) -> NoDup (names_of (filter q fields)).
Proof.
  induction fields as [|g fields IH]; simpl; intros Hnd; [constructor|].
  inversion Hnd as [|? ? Hnot Hnd']; subst.
  destruct (q g); simpl; [|apply IH; exact Hnd'].
  constructor; [|apply IH; exact Hnd'].
  intros Hin. apply Hnot. apply in_map_iff in Hin as (f & Hf & Hin).
  apply filter_In in Hin as [Hin _]. apply in_map_iff. exists f. split; assumption.
Qed.

Lemma priority_part_NoDup (desired : list pystr) (fields : list field) :
  NoDup desired -> NoDup (names_of (priority_part desired fields)).
Proof.
  induction 1 as [|name desired Hnot Hnd IH]; simpl; [constructor|].
  destruct (first_named name fields) as [f|] eqn:E; simpl; [|exact IH].
  constructor; [|exact IH].
  destruct (first_named_name _ _ E) as [-> _].
  intros Hin. apply Hnot. apply in_map_iff in Hin as (g & Hg & Hin).
  apply in_priority_part in Hin as [Hin _]. congruence.
Qed.

Lemma in_remaining_part (desired : list pystr) (fields : list field) (f : field) :
  In f (remaining_part desired fields) ->
  str_in (f_name f) desired = false /\ first_named (f_name f) fields = Some f.
Proof.
  unfold remaining_part. intros H.
  apply in_first_occurrences in H as [_ H].
  pose proof (first_named_name _ _ H) as [_ Hin].
  apply filter_In in Hin as [_ Hq]. unfold unlisted in Hq.
  apply negb_true_iff in Hq. split; [exact Hq|].
  rewrite first_named_filter in H; [exact H|].
  intros g Hg. unfold unlisted. rewrite Hg, Hq. reflexivity.
Qed.

(** The names of the result are without repetition. *)
Lemma order_fields_NoDup (entry_type : pystr) (fields : list field) :
  NoDup (names_of (order_fields entry_type fields)).
Proof.
  rewrite order_fields_char, names_of_restyle, names_of_app.
  apply NoDup_app.
  - apply priority_part_NoDup, desired_of_NoDup.
  - apply first_occurrences_NoDup.
  - intros n H1 H2.
    apply in_map_iff in H1 as (f & Hf & H1).
    apply in_map_iff in H2 as (g & Hg & H2).
    apply in_priority_part in H1 as [H1 _].
    apply in_remaining_part in H2 as [H2 _].
    apply str_in_not_In in H2. congruence.
Qed.

(** Every field of the result is the first field of its name. *)
Lemma order_fields_first (entry_type : pystr) (fields : list field) (f : field) :
  In f (order_fields entry_type fields) ->
  exists g, first_named (f_name f) fields = Some g
            /\ f = restyle (first_indent fields) g.
Proof.
  rewrite order_fields_char. intros H.
  apply in_map_iff in H as (g & <- & H). exists g. split; [|reflexivity].
  apply in_app_or in H as [H|H].
  - apply in_priority_part in H as [_ H]. exact H.
  - apply in_remaining_part in H as [_ H]. exact H.
Qed.

(** Every name of the record is a name of the result. *)
Lemma order_fields_names (entry_type : pystr) (fields : list field) (n : pystr) :
  In n (names_of fields) -> In n (names_of (order_fields entry_type fields)).
Proof.
  intros Hn. rewrite order_fields_char, names_of_restyle, names_of_app.
  apply in_or_app.
  destruct (str_in n (desired_of entry_type)) eqn:Ed.
  - left. destruct (first_named n fields) as [f|] eqn:E.
    + destruct (first_named_name _ _ E) as [Hf _].
      apply in_map_iff. exists f. split; [exact Hf|].
      apply in_priority_part. rewrite Hf. split; [|exact E].
      apply str_in_In. exact Ed.
    + apply first_named_None in E. contradiction.
  - right. unfold remaining_part. apply first_occurrences_complete; [|reflexivity].
    apply in_map_iff in Hn as (f & Hf & Hin).
    apply in_map_iff. exists f. split; [exact Hf|].
    apply filter_In. split; [exact Hin|].
    unfold unlisted. rewrite Hf, Ed. reflexivity.
Qed.

End Order.

(** *** The deduplicator *)

(** [any(fp)] fails for the fingerprint with three empty parts only. *)
Lemma fp_any_false (fp : fingerprint) :
  fp_any fp = false <-> fp = ([], [], []).
Proof.
  destruct fp as [[[|a doi] [|b url]] [|c title]]; simpl;
    split; intros H; try reflexivity; discriminate.
Qed.

Lemma fp_any_true (fp : fingerprint) :
  fp_any fp = true <-> fp <> ([], [], []).
Proof.
  rewrite <- fp_any_false. destruct (fp_any fp); split; congruence.
Qed.

Lemma fp_eqb_eq (a b : fingerprint) : fp_eqb a b = true <-> a = b.
Proof.
  destruct a as [[d1 u1] t1], b as [[d2 u2] t2]. simpl.
  rewrite !andb_true_iff, !eqb_eq. split.
  - intros [[-> ->] ->]. reflexivity.
  - intros E. injection E as -> -> ->. auto.
Qed.

Section Dedup.

Context {DT : Datetime}.
Variable entries_map : entries_map_t.

(** An entry that parsed, as against a block kept as it is. *)
Definition is_record (e : entry) : bool :=
  let '(entry_type, _, _, _) := e in nonempty entry_type.

(** The fingerprint [main] computes for an entry. *)
Definition fp_of (e : entry) : fingerprint :=
  let '(entry_type, key, _, _) := e in
  entry_fingerprint entry_type key (new_fields_of entries_map e).

(** The text [main] emits for an entry it keeps. *)
Definition emit (e : entry) : pystr :=
  let '(entry_type, key, fields, unknown) := e in
  build_entry entry_type key (new_fields_of entries_map e) unknown
    (first_indent fields).

Lemma process_all_snoc (pre : list entry) (e : entry) :
  process_all entries_map (pre ++ [e])
  = process_step entries_map (process_all entries_map pre) e.
Proof. unfold process_all. rewrite fold_left_app. reflexivity. Qed.

(** What one step does, by cases on the entry. *)
Lemma process_step_cases (st : run_state) (e : entry) :
  is_record e = true ->
  process_step entries_map st e
  = if fp_any (fp_of e) then
      if fp_in (fp_of e) (seen st) then
        mkRun (normalized_entries st) (seen st) (S (dropped st)) (changed st)
      else
        mkRun (normalized_entries st ++ [emit e]) (fp_of e :: seen st)
          (dropped st) (changed (process_step entries_map st e))
    else
      mkRun (normalized_entries st ++ [emit e]) (seen st) (dropped st)
        (changed (process_step entries_map st e)).
Proof.
  destruct e as [[[t k] fs] u]. simpl. intros Ht.
  unfold process_step. rewrite Ht. simpl.
  destruct (fp_any _); [destruct (fp_in _ _)|]; reflexivity.
Qed.

(** The set [seen] holds the non-empty fingerprints of the records read
    so far. *)
Lemma seen_char (pre : list entry) (fp : fingerprint) :
  fp_in fp (seen (process_all entries_map pre)) = true <->
  exists e, In e pre /\ is_record e = true /\ fp_any (fp_of e) = true
            /\ fp_of e = fp.
Proof.
  induction pre as [|e pre IH] using rev_ind.
  - simpl. split; [discriminate | intros (e & [] & _)].
  - rewrite process_all_snoc.
    destruct (is_record e) eqn:Er.
    + rewrite (process_step_cases _ _ Er).
      destruct (fp_any (fp_of e)) eqn:Ea;
        [destruct (fp_in (fp_of e) (seen (process_all entries_map pre))) eqn:Es|];
        simpl.
      * rewrite IH. split.
        -- intros (e' & Hin & H). exists e'. split; [|exact H].
           apply in_or_app. left. exact Hin.
        -- intros (e' & Hin & Hr & Ha & Hf).
           apply in_app_or in Hin as [Hin|[<-|[]]].
           ++ exists e'. auto.
           ++ apply IH. congruence.
      * rewrite orb_true_iff, IH, fp_eqb_eq. split.
        -- intros [->|(e' & Hin & H)].
           ++ exists e. split; [apply in_or_app; right; left; reflexivity|auto].
           ++ exists e'. split; [apply in_or_app; left; exact Hin|exact H].
        -- intros (e' & Hin & Hr & Ha & Hf).
           apply in_app_or in Hin as [Hin|[<-|[]]].
           ++ right. exists e'. auto.
           ++ left. symmetry. exact Hf.
      * rewrite IH. split.
        -- intros (e' & Hin & H). exists e'. split; [|exact H].
           apply in_or_app. left. exact Hin.
        -- intros (e' & Hin & Hr & Ha & Hf).
           apply in_app_or in Hin as [Hin|[<-|[]]].
           ++ exists e'. auto.
           ++ congruence.
    + assert (Es : seen (process_step entries_map (process_all entries_map pre) e)
                   = seen (process_all entries_map pre)).
      { destruct e as [[[t k] fs] u]. simpl in Er. unfold process_step.
        rewrite Er. reflexivity. }
      rewrite Es, IH. split.
      * intros (e' & Hin & H). exists e'. split; [|exact H].
        apply in_or_app. left. exact Hin.
      * intros (e' & Hin & Hr & Ha & Hf).
        apply in_app_or in Hin as [Hin|[<-|[]]].
        -- exists e'. auto.
        -- congruence.
Qed.

(** A step adds to the texts emitted so far and takes none away. *)
Lemma process_step_extends (st : run_state) (e : entry) :
  exists more,
    normalized_entries (process_step entries_map st e)
    = normalized_entries st ++ more.
Proof.
  destruct e as [[[t k] fs] u]. unfold process_step.
  destruct (negb (nonempty t)); [eexists; reflexivity|].
  destruct (fp_any _); [destruct (fp_in _ _)|]; simpl;
    solve [eexists; reflexivity | exists []; symmetry; apply app_nil_r].
Qed.

Lemma process_fold_extends (post : list entry) :
  forall st, exists more,
    normalized_entries (fold_left (process_step entries_map) post st)
    = normalized_entries st ++ more.
Proof.
  induction post as [|e post IH]; intros st; simpl.
  - exists []. symmetry. apply app_nil_r.
  - destruct (IH (process_step entries_map st e)) as (m1 & E1).
    destruct (process_step_extends st e) as (m0 & E0).
    exists (m0 ++ m1). rewrite E1, E0, app_assoc. reflexivity.
Qed.

End Dedup.

(** *** Cross-references *)

(** Evaluation of the comparisons between two literals. *)
Ltac eval_literals :=
  repeat match goal with
    | |- context [Py.eqb (py ?a) (py ?b)] =>
        let r := eval vm_compute in (Py.eqb (py a) (py b)) in
        change (Py.eqb (py a) (py b)) with r
    | |- context [str_in (py ?a) ?l] =>
        let r := eval vm_compute in (str_in (py a) l) in
        change (str_in (py a) l) with r
    end.

(** A check of every code point below a bound. *)
Definition all_below (n : N) (p : N -> bool) : bool :=
  snd (N.iter n (fun st => (N.succ (fst st), snd st && p (fst st)))
         (0%N, true)).

Lemma all_below_spec (n : N) (p : N -> bool) :
  all_below n p = true -> forall c, (c < n)%N -> p c = true.
Proof.
  unfold all_below.
  set (f := fun st : N * bool => (N.succ (fst st), snd st && p (fst st))).
  assert (H : forall k,
             fst (N.iter k f (0%N, true)) = k
             /\ (snd (N.iter k f (0%N, true)) = true ->
                 forall c, (c < k)%N -> p c = true)).
  { induction k as [|k IH] using N.peano_ind.
    - split; [reflexivity | intros _ c Hc; lia].
    - rewrite N.iter_succ. destruct IH as [Hf Hs]. unfold f at 1.
      cbn [fst snd]. rewrite Hf. split; [reflexivity|].
      intros H c Hc. apply andb_true_iff in H as [H1 H2].
      rewrite Hf in H2.
      destruct (N.eq_dec c k) as [->|Hne]; [exact H2|].
      apply Hs; [exact H1 | lia]. }
  intros Hall. exact (proj2 (H n) Hall).
Qed.

(** A character [str.lower] leaves as it is, wherever it stands. *)
Definition stable (d : Py.char) : bool :=
  negb (N.eqb d 931) && negb (N.eqb d 304) && N.eqb (Py.lower_char d) d.

Lemma in_runs_sound (tbl : list (N * N * N * N)) (c d : N) :
  Py.in_runs tbl c = Some d ->
  exists lo hi step dst,
    In (lo, hi, step, dst) tbl /\ (lo <= c <= hi)%N
    /\ ((c - lo) mod step = 0)%N /\ d = (dst + (c - lo))%N.
Proof.
  induction tbl as [|[[[lo hi] step] dst] tbl IH]; cbn [Py.in_runs];
    [discriminate|].
  destruct (N.ltb_spec c lo) as [Hlo|Hlo]; [discriminate|].
  destruct (N.leb_spec c hi) as [Hhi|Hhi].
  - destruct (N.eqb_spec ((c - lo) mod step) 0) as [Hm|Hm]; [|discriminate].
    intros E. injection E as <-. exists lo, hi, step, dst.
    repeat split; try assumption. left. reflexivity.
  - intros E. destruct (IH E) as (lo' & hi' & step' & dst' & Hin & H).
    exists lo', hi', step', dst'. split; [right; exact Hin | exact H].
Qed.

(** The images of a run are stable. *)
Definition run_stable (e : N * N * N * N) : bool :=
  let '(lo, hi, step, dst) := e in
  all_below (hi - lo + 1)%N
    (fun i => negb (N.eqb (i mod step)%N 0) || stable (dst + i)%N).

Lemma lower_table_stable : forallb run_stable Py.lower_table = true.
Proof. vm_compute. reflexivity. Qed.

Lemma latin1_stable :
  all_below 256 (fun c => stable (Py.lower_char c)) = true.
Proof. vm_compute. reflexivity. Qed.

(** The lower case of a character is left as it is by [str.lower]. *)
Lemma lower_char_stable (c : Py.char) : stable (Py.lower_char c) = true.
Proof.
  destruct (N.ltb_spec c 256) as [H|H].
  { exact (@all_below_spec _ _ latin1_stable c H). }
  assert (Hfix : Py.lower_char c = c -> stable (Py.lower_char c) = true).
  { intros E. unfold stable. rewrite !E, N.eqb_refl.
    destruct (N.eqb_spec c 931) as [->|_]; [vm_compute in E; discriminate|].
    destruct (N.eqb_spec c 304) as [->|_]; [vm_compute in E; discriminate|].
    reflexivity. }
  assert (Hc : Py.lower_char c
               = if N.ltb Py.last_cased c then c
                 else match Py.in_runs Py.lower_table c with
                      | Some d => d
                      | None => c
                      end).
  { unfold Py.lower_char. destruct (N.ltb_spec c 256); [lia | reflexivity]. }
  destruct (N.ltb Py.last_cased c) eqn:Hl; [exact (Hfix Hc)|].
  destruct (Py.in_runs Py.lower_table c) as [d|] eqn:E; [|exact (Hfix Hc)].
  rewrite Hc.
  apply in_runs_sound in E as (lo & hi & step & dst & Hin & Hr & Hm & ->).
  pose proof lower_table_stable as Ht. rewrite forallb_forall in Ht.
  specialize (Ht _ Hin). unfold run_stable in Ht.
  pose proof (@all_below_spec _ _ Ht (c - lo)%N) as Hs.
  cbv beta in Hs. rewrite Hm in Hs. apply Hs. lia.
Qed.

Lemma lower_char_idem (c : Py.char) :
  Py.lower_char (Py.lower_char c) = Py.lower_char c.
Proof.
  pose proof (lower_char_stable c) as H. unfold stable in H.
  apply andb_true_iff in H as [_ H]. apply N.eqb_eq in H. exact H.
Qed.

Lemma lower_at_stable (before after : pystr) (c : Py.char) :
  forallb stable (Py.lower_at before c after) = true.
Proof.
  unfold Py.lower_at. destruct (N.eqb c 931).
  - destruct (Py.cased_first before && negb (Py.cased_first after));
      vm_compute; reflexivity.
  - destruct (N.eqb c 304); [vm_compute; reflexivity|].
    cbn [forallb]. rewrite lower_char_stable. reflexivity.
Qed.

Lemma lower_from_stable (s : pystr) :
  forall before, forallb stable (Py.lower_from before s) = true.
Proof.
  induction s as [|c s IH]; intros before; cbn [Py.lower_from].
  - reflexivity.
  - rewrite forallb_app, lower_at_stable, IH. reflexivity.
Qed.

Lemma lower_from_fixed (t : pystr) :
  forallb stable t = true -> forall before, Py.lower_from before t = t.
Proof.
  induction t as [|d t IH]; intros H before; cbn [Py.lower_from].
  - reflexivity.
  - cbn [forallb] in H. apply andb_true_iff in H as [Hd Ht].
    unfold stable in Hd. apply andb_true_iff in Hd as [Hd He].
    apply andb_true_iff in Hd as [H1 H2].
    apply negb_true_iff in H1. apply negb_true_iff in H2.
    apply N.eqb_eq in He.
    unfold Py.lower_at. rewrite H1, H2, He, (IH Ht). reflexivity.
Qed.

(** [str.lower] is idempotent. *)
Lemma lower_idem (s : pystr) : Py.lower (Py.lower s) = Py.lower s.
Proof.
  unfold Py.lower. apply lower_from_fixed. apply lower_from_stable.
Qed.

(** A field called "crossref", in any case. *)
Definition is_crossref (f : field) : bool :=
  Py.eqb (Py.lower (f_name f)) (py "crossref").

Definition has_crossref (fields : list field) : bool := existsb is_crossref fields.

(** The cross-reference of the record names a key of the index. *)
Definition crossref_resolves (fields : list field) (entries_map : entries_map_t)
  : bool :=
  match find_crossref fields with
  | Some ck => nonempty ck && dict_mem ck entries_map
  | None => false
  end.

Lemma merge_crossref_unresolved (fields : list field) (m : entries_map_t) :
  crossref_resolves fields m = false -> merge_crossref fields m = fields.
Proof.
  unfold crossref_resolves, merge_crossref, dict_mem.
  destruct (find_crossref fields) as [ck|]; [|reflexivity].
  destruct (nonempty ck); [|reflexivity]. simpl.
  destruct (dict_get ck m) as [[[pt pf] pu]|]; [discriminate|].
  destruct (dict_nonempty m); reflexivity.
Qed.

Lemma merge_crossref_resolved (fields : list field) (m : entries_map_t) :
  crossref_resolves fields m = true ->
  exists l, merge_crossref fields m = filter (fun f => negb (is_crossref f)) l.
Proof.
  unfold crossref_resolves, merge_crossref, dict_mem.
  destruct (find_crossref fields) as [ck|]; [|discriminate].
  destruct (nonempty ck); [|discriminate]. simpl.
  destruct (dict_get ck m) as [[[pt pf] pu]|] eqn:E; [|discriminate].
  intros _. destruct m as [|b m]; [discriminate|]. simpl.
  eexists. reflexivity.
Qed.

Section Crossref.

Context {DT : Datetime}.

(** The names of the fields the script makes up. *)
Definition synthesized : list pystr :=
  [py "url"; py "urldate"; py "publisher"; py "address"; py "author";
   py "title"; py "year"; py "howpublished"; py "language"].

Definition synthesized_only (ext : list field) : Prop :=
  Forall (fun g => In (f_name g) synthesized) ext.

Lemma synthesized_only_app (a b : list field) :
  synthesized_only a -> synthesized_only b -> synthesized_only (a ++ b).
Proof. unfold synthesized_only. intros. apply Forall_app. split; assumption. Qed.

Ltac synth_name := vm_compute; tauto.

Ltac extension :=
  solve
    [ exists []; split; [symmetry; apply app_nil_r | constructor]
    | eexists; split;
      [ unfold append_styled; rewrite <- ?app_assoc; reflexivity
      | repeat (constructor; [synth_name|]); constructor ] ].

Lemma split_url_fragment_extends (indent v : pystr) (nf : list field) :
  exists ext,
    snd (split_url_fragment indent v nf) = nf ++ ext /\ synthesized_only ext.
Proof.
  unfold split_url_fragment.
  destruct (extract_url_and_access v) as [[url|] [urldate|]]; simpl;
    repeat match goal with
           | |- context [if ?b then _ else _] => destruct b
           end; simpl; extension.
Qed.

Lemma bardin_defaults_extends (key : pystr) (nf : list field) :
  exists ext, bardin_defaults key nf = nf ++ ext /\ synthesized_only ext.
Proof.
  unfold bardin_defaults.
  repeat match goal with
         | |- context [if ?b then _ else _] => destruct b
         end; extension.
Qed.

Lemma note_url_stage_extends (note : option pystr) (nf : list field) :
  exists ext, note_url_stage note nf = nf ++ ext /\ synthesized_only ext.
Proof.
  unfold note_url_stage. destruct note as [note|]; [|extension].
  destruct (nonempty note && negb (has_name (py "url") nf)); [|extension].
  destruct (extract_url_and_access note) as [url urldate].
  repeat match goal with
         | |- context [if ?b then _ else _] => destruct b
         end; extension.
Qed.

Lemma misc_stage_extends (entry_type key : pystr) (note : option pystr)
    (nf : list field) :
  exists ext, misc_stage entry_type key note nf = nf ++ ext /\ synthesized_only ext.
Proof.
  unfold misc_stage.
  destruct (Py.eqb (Py.lower entry_type) (py "misc")); [|extension].
  repeat match goal with
         | |- context [match ?b with _ => _ end] => destruct b
         end; extension.
Qed.

Lemma language_stage_extends (nf : list field) :
  exists ext, language_stage nf = nf ++ ext /\ synthesized_only ext.
Proof.
  unfold language_stage.
  repeat match goal with
         | |- context [if ?b then _ else _] => destruct b
         end; extension.
Qed.

(** A name the loop can give a field it appends for the field [f]. *)
Definition loop_name (f : field) (n : pystr) : Prop :=
  In n synthesized \/ n = Py.lower (f_name f).

Lemma field_step_extends (key : pystr) (nf : list field) (note : option pystr)
    (f : field) :
  exists ext,
    fst (field_step key (nf, note) f) = nf ++ ext
    /\ Forall (fun g => loop_name f (f_name g)) ext.
Proof.
  destruct f as [[indent name] value]. unfold field_step. cbv zeta.
  generalize (rewrite_value (Py.lower name) (Py.strip value)). intros v.
  destruct (Py.eqb (Py.lower name) (py "note") && is_trivial_note v).
  { exists []. split; [symmetry; apply app_nil_r | constructor]. }
  assert (Hfrag : exists v' ext,
             (if str_in (Py.lower name)
                   [py "journal"; py "publisher"; py "booktitle"; py "address"]
                 && found true re_has_url v
              then split_url_fragment indent v nf else (v, nf))
             = (v', nf ++ ext) /\ synthesized_only ext).
  { destruct (_ && _).
    - destruct (split_url_fragment_extends indent v nf) as (ext & E & Hs).
      destruct (split_url_fragment indent v nf) as [v' nf']. simpl in E. subst nf'.
      exists v', ext. split; [reflexivity | exact Hs].
    - exists v, []. split; [rewrite app_nil_r; reflexivity | constructor]. }
  destruct Hfrag as (v' & ext & -> & Hs).
  assert (Hext : Forall (fun g => loop_name (indent, name, value) (f_name g)) ext).
  { eapply Forall_impl; [|exact Hs]. intros g Hg. left. exact Hg. }
  assert (Hall : forall w,
             Forall (fun g => loop_name (indent, name, value) (f_name g))
               (ext ++ [(indent, Py.lower name, w)])).
  { intros w. apply Forall_app. split; [exact Hext|].
    constructor; [right; reflexivity | constructor]. }
  destruct (Py.eqb (Py.lower name) (py "key")).
  { exists ext. split; [reflexivity | exact Hext]. }
  destruct (Py.eqb (Py.lower key) (py "bardin2016")).
  - destruct (bardin_fix (Py.lower name) v') as [w|]; simpl.
    + exists (ext ++ [(indent, Py.lower name, w)]).
      split; [rewrite app_assoc; reflexivity | apply Hall].
    + exists ext. split; [reflexivity | exact Hext].
  - exists (ext ++ [(indent, Py.lower name, v')]).
    split; [simpl; rewrite app_assoc; reflexivity | apply Hall].
Qed.

(** A field called "crossref" goes through the loop whatever the key. *)
Lemma field_step_crossref (key : pystr) (nf : list field) (note : option pystr)
    (f : field) :
  is_crossref f = true ->
  exists v, fst (field_step key (nf, note) f)
            = nf ++ [(f_indent f, py "crossref", v)].
Proof.
  destruct f as [[indent name] value]. unfold is_crossref. intros H.
  apply eqb_eq in H. cbv [f_name fst snd] in H.
  unfold field_step. cbv zeta. rewrite H.
  generalize (rewrite_value (py "crossref") (Py.strip value)). intros v.
  eval_literals. cbv beta iota.
  unfold bardin_fix. eval_literals. cbv beta iota.
  destruct (Py.eqb (Py.lower key) (py "bardin2016")); exists v; reflexivity.
Qed.

(** The fields the main loop builds from [merged_fields]. *)
Definition loop_fields (key : pystr) (merged : list field) : list field :=
  fst (fold_left (field_step key) merged ([], None)).

Lemma loop_extends (key : pystr) (merged : list field) :
  forall nf note,
  exists ext,
    fst (fold_left (field_step key) merged (nf, note)) = nf ++ ext
    /\ Forall (fun g => exists f, In f merged /\ loop_name f (f_name g)) ext.
Proof.
  induction merged as [|f merged IH]; intros nf note; cbn [fold_left].
  - exists []. split; [symmetry; apply app_nil_r | constructor].
  - destruct (field_step_extends key nf note f) as (e1 & E1 & H1).
    destruct (field_step key (nf, note) f) as [nf1 note1]. simpl in E1. subst nf1.
    destruct (IH (nf ++ e1) note1) as (e2 & E2 & H2).
    exists (e1 ++ e2). split; [rewrite E2, app_assoc; reflexivity|].
    apply Forall_app. split.
    + eapply Forall_impl; [|exact H1]. intros g Hg. exists f. split; [left; reflexivity | exact Hg].
    + eapply Forall_impl; [|exact H2]. intros g (f' & Hin & Hg).
      exists f'. split; [right; exact Hin | exact Hg].
Qed.

(** The result of [normalize_fields]: the fields of the loop, then fields
    with made-up names. *)
Lemma normalize_fields_shape (entry_type key : pystr) (fields : list field)
    (m : entries_map_t) :
  exists ext,
    normalize_fields entry_type key fields m
    = loop_fields key (merge_crossref fields m) ++ ext
    /\ synthesized_only ext.
Proof.
  unfold normalize_fields, loop_fields.
  destruct (fold_left (field_step key) (merge_crossref fields m) ([], None))
    as [nf note]. simpl.
  destruct (bardin_defaults_extends key nf) as (e1 & -> & H1).
  destruct (note_url_stage_extends note (nf ++ e1)) as (e2 & -> & H2).
  destruct (misc_stage_extends entry_type key note ((nf ++ e1) ++ e2))
    as (e3 & -> & H3).
  destruct (language_stage_extends (((nf ++ e1) ++ e2) ++ e3)) as (e4 & -> & H4).
  exists (e1 ++ e2 ++ e3 ++ e4). split.
  - rewrite <- !app_assoc. reflexivity.
  - repeat apply synthesized_only_app; assumption.
Qed.

Lemma synthesized_not_crossref (g : field) :
  In (f_name g) synthesized -> is_crossref g = false.
Proof.
  unfold is_crossref. intros H. simpl in H.
  repeat destruct H as [<-|H]; try contradiction; vm_compute; reflexivity.
Qed.

(** With the cross-reference resolved, no field of the result is called
    "crossref". *)
Lemma normalize_fields_resolved (entry_type key : pystr) (fields : list field)
    (m : entries_map_t) :
  crossref_resolves fields m = true ->
  has_crossref (normalize_fields entry_type key fields m) = false.
Proof.
  intros Hr. destruct (merge_crossref_resolved _ _ Hr) as (l & Hl).
  destruct (normalize_fields_shape entry_type key fields m) as (ext & -> & Hs).
  unfold has_crossref. rewrite existsb_app. apply orb_false_iff. split.
  - unfold loop_fields.
    destruct (loop_extends key (merge_crossref fields m) [] None) as (e & -> & He).
    simpl. rewrite Hl in He. clear Hl.
    induction He as [|g e (f & Hin & Hg) _ IH]; simpl; [reflexivity|].
    rewrite IH, orb_false_r.
    destruct Hg as [Hg|Hg]; [apply synthesized_not_crossref; exact Hg|].
    apply filter_In in Hin as [_ Hf]. apply negb_true_iff in Hf.
    unfold is_crossref in *. rewrite Hg, lower_idem. exact Hf.
  - induction Hs as [|g e Hg _ IH]; simpl; [reflexivity|].
    rewrite IH, orb_false_r. apply synthesized_not_crossref. exact Hg.
Qed.

(** With the cross-reference unresolved, the index plays no part and the
    field stays. *)
Lemma normalize_fields_unresolved (entry_type key : pystr) (fields : list field)
    (m : entries_map_t) :
  has_crossref fields = true ->
  crossref_resolves fields m = false ->
  normalize_fields entry_type key fields m
  = normalize_fields entry_type key fields []
  /\ has_name (py "crossref") (normalize_fields entry_type key fields m) = true.
Proof.
  intros Hc Hr. split.
  - unfold normalize_fields. rewrite (merge_crossref_unresolved _ _ Hr).
    rewrite (merge_crossref_unresolved fields []); [reflexivity|].
    unfold crossref_resolves. destruct (find_crossref fields); [|reflexivity].
    apply andb_false_r.
  - destruct (normalize_fields_shape entry_type key fields m) as (ext & -> & _).
    rewrite (merge_crossref_unresolved _ _ Hr).
    unfold has_name, names_of. rewrite map_app, str_in_app.
    apply orb_true_iff. left. apply str_in_In.
    unfold has_crossref in Hc. apply existsb_exists in Hc as (f & Hin & Hf).
    apply in_split in Hin as (pre & post & ->).
    unfold loop_fields. rewrite fold_left_app. cbn [fold_left].
    destruct (fold_left (field_step key) pre ([], None)) as [nf note].
    destruct (field_step_crossref key nf note f Hf) as (v & Ev).
    destruct (field_step key (nf, note) f) as [nf1 note1]. simpl in Ev. subst nf1.
    destruct (loop_extends key post (nf ++ [(f_indent f, py "crossref", v)]) note1)
      as (e & -> & _).
    rewrite !map_app. simpl. apply in_or_app. left. apply in_or_app. right.
    left. reflexivity.
Qed.

End Crossref.

(** *** Regular expressions: what a successful match tells

    [sem r s s'] relates the position [s] before a match of [r] to the
    position [s'] after it: the text consumed and the groups captured.
    The zero-width assertions consume nothing; what they require of the
    context plays no part below and is left out. *)

Module ReSem.

Section Sem.

Variable ic : bool.

Fixpoint sem (r : regex) (s s' : state) : Prop :=
  match r with
  | Eps | Bol | Eol | Wordb => rest s' = rest s /\ caps s' = caps s
  | Atom a =>
      exists c, rest s = c :: rest s' /\ atom_match ic a c = true
                /\ caps s' = caps s
  | Rep a mn mx =>
      exists w, rest s = w ++ rest s'
                /\ Forall (fun c => atom_match ic a c = true) w
                /\ mn <= List.length w
                /\ caps s' = caps s
  | Seq r1 r2 => exists s1, sem r1 s s1 /\ sem r2 s1 s'
  | Alt r1 r2 => sem r1 s s' \/ sem r2 s s'
  | Group n r1 =>
      exists s1, sem r1 s s1
                 /\ rest s' = rest s1
                 /\ caps s' = (n, consumed s s1) :: caps s1
  end.

Lemma rep_match_sound (A : Type) (a : atom) (k : option Py.char -> pystr -> option A) :
  forall s mn mx p x,
    rep_match ic a mn mx k p s = Some x ->
    exists w t p',
      s = w ++ t /\ Forall (fun c => atom_match ic a c = true) w
      /\ mn <= List.length w /\ k p' t = Some x.
Proof.
  assert (Hstop : forall s mn p x,
             match mn with O => k p s | S _ => None end = Some x ->
             exists w t p',
               s = w ++ t /\ Forall (fun c => atom_match ic a c = true) w
               /\ mn <= List.length w /\ k p' t = Some x).
  { intros s mn p x H. destruct mn; [|discriminate].
    exists [], s, p. repeat split; [constructor | apply Nat.le_refl | exact H]. }
  induction s as [|c s IH]; intros mn mx p x H; simpl in H.
  - destruct mx as [[|n]|]; exact (Hstop _ _ _ _ H).
  - destruct mx as [[|n]|]; [exact (Hstop _ _ _ _ H) | |];
      (destruct (atom_match ic a c) eqn:Ea; [|exact (Hstop _ _ _ _ H)];
       match type of H with
       | match ?R with _ => _ end = _ => destruct R as [y|] eqn:Er
       end; [|exact (Hstop _ _ _ _ H)];
       injection H as ->;
       destruct (IH _ _ _ _ Er) as (w & t & p' & -> & Hw & Hn & Hk);
       exists (c :: w), t, p'; repeat split;
       [constructor; assumption | simpl; lia | exact Hk]).
Qed.

(** Soundness of the matcher: an accepted match is one [sem] allows. *)
Lemma rmatch_sound (A : Type) (r : regex) :
  forall (k : state -> option A) s x,
    rmatch ic r k s = Some x -> exists s', sem r s s' /\ k s' = Some x.
Proof.
  induction r as [|a|a mn mx|r1 IH1 r2 IH2|r1 IH1 r2 IH2|n r1 IH1| | |];
    intros k s x H; simpl in H.
  - exists s. simpl. auto.
  - destruct (rest s) as [|c t] eqn:Es; [discriminate|].
    destruct (atom_match ic a c) eqn:Ea; [|discriminate].
    eexists. split; [|exact H]. simpl. exists c. auto.
  - apply rep_match_sound in H as (w & t & p' & Es & Hw & Hn & Hk).
    eexists. split; [|exact Hk]. simpl. exists w. auto.
  - apply IH1 in H as (s1 & H1 & H). apply IH2 in H as (s' & H2 & H).
    exists s'. split; [|exact H]. simpl. exists s1. auto.
  - destruct (rmatch ic r1 k s) as [y|] eqn:E1.
    + injection H as ->. apply IH1 in E1 as (s' & H1 & H).
      exists s'. split; [left; exact H1 | exact H].
    + apply IH2 in H as (s' & H2 & H).
      exists s'. split; [right; exact H2 | exact H].
  - apply IH1 in H as (s1 & H1 & H).
    eexists. split; [|exact H]. simpl. exists s1. auto.
  - destruct (prev s); [discriminate|]. exists s. simpl. auto.
  - exists s. split; [simpl; auto|].
    destruct (rest s) as [|c [|d t]]; try discriminate; [exact H|].
    destruct (N.eqb c 10); [exact H | discriminate].
  - destruct (xorb _ _); [|discriminate]. exists s. simpl. auto.
Qed.

End Sem.

Lemma consumed_app (s s' : state) (w : pystr) :
  rest s = w ++ rest s' -> consumed s s' = w.
Proof.
  unfold consumed. intros ->. rewrite length_app.
  replace (List.length w + List.length (rest s') - List.length (rest s'))
    with (List.length w) by lia.
  rewrite firstn_app, Nat.sub_diag, firstn_all. simpl. apply app_nil_r.
Qed.

End ReSem.

(** *** The header of an entry *)

Definition key_char : atom := NoneOf [Ch (chr ","); Ws].

(** What [ENTRY_START_RE] captures: a type made of letters and a key
    free of commas and white space, neither empty. *)
Lemma entry_start_groups (line : pystr) (m : mtch) :
  match_ false ENTRY_START_RE line = Some m ->
  exists t k,
    m_caps m = [(2, k); (1, t)]
    /\ 1 <= List.length t
    /\ Forall (fun c => atom_match false letter c = true) t
    /\ 1 <= List.length k
    /\ Forall (fun c => atom_match false key_char c = true) k.
Proof.
  unfold match_, match_here. intros H.
  apply (ReSem.rmatch_sound false) in H as (s' & Hsem & E).
  injection E as <-. simpl.
  let r := eval vm_compute in ENTRY_START_RE in
    change ENTRY_START_RE with r in Hsem.
  cbn [ReSem.sem] in Hsem.
  destruct Hsem as
    (s1 & (_ & C1) & s2 & (w2 & _ & _ & _ & C2) & s3 & (c3 & _ & _ & C3)
     & s4 & (s5 & (w5 & R5 & F5 & L5 & C5) & _ & C4)
     & s6 & (w6 & _ & _ & _ & C6) & s7 & (c7 & _ & _ & C7)
     & s8 & (w8 & _ & _ & _ & C8)
     & s9 & (s10 & (w10 & R10 & F10 & L10 & C10) & _ & C9)
     & s11 & (w11 & _ & _ & _ & C11) & s12 & (c12 & _ & _ & C12)
     & s13 & (w13 & _ & _ & _ & C13) & _ & C14).
  exists w5, w10.
  rewrite C14, C13, C12, C11, C9, C10, C8, C7, C6, C4, C5, C3, C2, C1.
  rewrite (ReSem.consumed_app _ _ _ R5), (ReSem.consumed_app _ _ _ R10).
  simpl. repeat split; assumption.
Qed.

(** Boolean tests on code points, read as linear arithmetic. *)
Ltac ranges H :=
  repeat rewrite ?orb_true_iff, ?andb_true_iff, ?N.leb_le, ?N.eqb_eq in H.

Lemma linebreak_isspace (c : Py.char) :
  Py.is_linebreak c = true -> Py.isspace c = true.
Proof.
  intros H. destruct (Py.isspace c) eqn:E; [reflexivity|].
  unfold Py.is_linebreak, Py.in_range in H. ranges H.
  assert (Hs : Py.isspace c = true); [|congruence].
  clear E. unfold Py.isspace, Py.in_range.
  repeat rewrite ?orb_true_iff, ?andb_true_iff, ?N.leb_le, ?N.eqb_eq. lia.
Qed.

Lemma letter_no_linebreak (c : Py.char) :
  atom_match false letter c = true -> Py.is_linebreak c = false.
Proof.
  let r := eval vm_compute in letter in change letter with r.
  unfold atom_match, item_match, existsb, Py.in_range. intros H.
  rewrite ?andb_false_r, ?orb_false_r in H. ranges H.
  destruct (Py.is_linebreak c) eqn:E; [|reflexivity].
  unfold Py.is_linebreak, Py.in_range in E. ranges E. lia.
Qed.

Lemma key_char_no_linebreak (c : Py.char) :
  atom_match false key_char c = true -> Py.is_linebreak c = false.
Proof.
  let r := eval vm_compute in key_char in change key_char with r.
  unfold atom_match, item_match, existsb, char_eq. intros H.
  destruct (Py.is_linebreak c) eqn:E; [|reflexivity].
  apply linebreak_isspace in E. rewrite E in H.
  rewrite orb_true_r in H. discriminate.
Qed.

(** The first line of a text that starts with a line free of breaks
    followed by a new line. *)
Lemma splitlines_from_first (w tl : pystr) :
  Forall (fun c => Py.is_linebreak c = false) w ->
  forall cur,
    hd_error (Py.splitlines_from cur (w ++ 10%N :: tl)) = Some (rev cur ++ w).
Proof.
  induction w as [|c w IH]; intros Hw cur; simpl.
  - rewrite app_nil_r. destruct tl as [|d tl]; reflexivity.
  - inversion Hw as [|? ? Hc Hw']; subst. rewrite Hc.
    rewrite (IH Hw' (c :: cur)). simpl. rewrite <- app_assoc. reflexivity.
Qed.

Lemma splitlines_first (w tl : pystr) :
  Forall (fun c => Py.is_linebreak c = false) w ->
  hd_error (Py.splitlines (w ++ 10%N :: tl)) = Some w.
Proof.
  intros Hw. unfold Py.splitlines. apply (splitlines_from_first tl Hw []).
Qed.

Lemma build_entry_header (entry_type key : pystr) (fields : list field)
    (unknown : list pystr) (indent_style : pystr) :
  exists body,
    build_entry entry_type key fields unknown indent_style
    = header_line entry_type key ++ 10%N :: body.
Proof.
  unfold build_entry. simpl.
  destruct (map field_line fields ++ unknown ++ [py "}"]) as [|l ls] eqn:E.
  - exfalso. destruct (map field_line fields); [|discriminate].
    destruct unknown; discriminate.
  - eexists. reflexivity.
Qed.

(** The header line of a parsed entry holds no line break. *)
Lemma parse_entry_header (text entry_type key : pystr) (fields : list field)
    (unknown : list pystr) :
  parse_entry text = Some (entry_type, key, fields, unknown) ->
  nonempty entry_type = true
  /\ Forall (fun c => Py.is_linebreak c = false) (header_line entry_type key).
Proof.
  unfold parse_entry.
  destruct (Py.splitlines text) as [|line0 body_lines]; [discriminate|].
  destruct (match_ false ENTRY_START_RE (Py.rstrip line0)) as [m|] eqn:Em;
    [|discriminate].
  destruct (entry_start_groups _ Em) as (t & k & Hc & Lt & Ft & Lk & Fk).
  unfold group_or_empty. rewrite Hc. cbn [group Nat.eqb].
  destruct (fold_left parse_line (removelast body_lines) ([], [])) as [fs un].
  intros E. injection E as <- <- _ _. split.
  - destruct t; [simpl in Lt; lia | reflexivity].
  - unfold header_line.
    change (py "@") with [64%N]. change (py "{") with [123%N].
    change (py ",") with [44%N].
    apply Forall_app; split; [constructor; [reflexivity | constructor]|].
    apply Forall_app; split;
      [eapply Forall_impl; [|exact Ft]; apply letter_no_linebreak|].
    apply Forall_app; split; [constructor; [reflexivity | constructor]|].
    apply Forall_app; split;
      [eapply Forall_impl; [|exact Fk]; apply key_char_no_linebreak|].
    constructor; [reflexivity | constructor].
Qed.

(** *** Dates *)
















Section DateCases.

Context {DT : Datetime}.




End DateCases.

(* ================================================================== *)
(** ** The specification, claim by claim *)
(* ================================================================== *)

(** *** Author names *)

(** C6. The author formatter maps the comma form "Silva, João" and the
    natural-order form "João Silva" to the same output "SILVA, João":
    the surname in upper case, the given name in title case. *)
Theorem format_author_both_forms :
  _format_author_abnt (py "Silva, João") = py "SILVA, João"
  /\ _format_author_abnt (py "João Silva") = py "SILVA, João".
Proof. split; vm_compute; reflexivity. Qed.

(** C7. The claim is that an element "others" of the author list goes
    through unchanged.  The script replaces it by "others." with a full
    stop: run on the list "Silva, João and others", and on the bare
    "others", the normalizer prints the token with the stop added, and
    run again on its own output it keeps the stop. *)
Theorem others_gets_full_stop :
  normalize_author_list_abnt (py "Silva, João and others")
  = py "SILVA, João and others."
  /\ normalize_author_list_abnt (py "others") = py "others."
  /\ normalize_author_list_abnt (py "SILVA, João and others.")
     = py "SILVA, João and others.".
Proof. repeat split; vm_compute; reflexivity. Qed.

(** *** Notes *)

Definition note_url_date : pystr :=
  py "Disponível em: https://example.com/doc. Acesso em: 17 de abril de 2025.".

(** C4. The claim is that a note made only of an availability marker with
    a URL and an accessed-on marker with a date is dropped, the record
    gaining url and urldate.  On such a note with an ordinary URL the
    script finds the URL and the date, and keeps the note: the first
    substitution of [is_trivial_note] stops at the first full stop of the
    URL, so that "com/doc" is left over and the note does not count as
    trivial. *)
Theorem note_with_dotted_url_kept :
  is_trivial_note note_url_date = false
  /\ normalize_fields (py "misc") (py "site2025")
       [(py "  ", py "note", note_url_date)] []
     = [(py "  ", py "note", note_url_date);
        (py "  ", py "url", py "https://example.com/doc");
        (py "  ", py "urldate", py "2025-04-17");
        (py "  ", py "year", py "2025");
        (py "  ", py "howpublished", py "Online");
        (py "  ", py "language", py "portuguese")].
Proof. split; vm_compute; reflexivity. Qed.

(** *** Running the script twice *)

Definition bib_lecun : pystr := py "@article{lecun2015,
  author = {Yann {LeCun}},
  title = {Deep learning},
  year = {2015},
}
".

(** C2. The claim is that a second run on the output of a first run
    reports no modified and no dropped record.  On the file [bib_lecun]
    the first run strips the closing brace of the author and leaves the
    opening one; the second run strips that one and reports a modified
    record. *)
Theorem second_run_modifies :
  output_text (main bib_lecun) = py "@article{lecun2015,
  author = {{LECUN, Yann},
  title = {Deep learning},
  year = {2015},
}
"
  /\ output_text (main (output_text (main bib_lecun))) = py "@article{lecun2015,
  author = {LECUN, Yann},
  title = {Deep learning},
  year = {2015},
}
"
  /\ n_changed (main (output_text (main bib_lecun))) = 1
  /\ n_dropped (main (output_text (main bib_lecun))) = 0.
Proof. repeat split; vm_compute; reflexivity. Qed.

(** *** Dates *)




(** *** Cross-references *)

Definition child_fields : list field :=
  [(py "  ", py "author", py "Silva, João");
   (py "  ", py "Crossref", py "conf2020")].

Definition index_with_parent : entries_map_t :=
  [(py "conf2020",
    (py "proceedings",
     [(py "  ", py "booktitle", py "Anais do Congresso");
      (py "  ", py "year", py "2020")], []));
   (py "silva2020", (py "inproceedings", child_fields, []))].

Definition index_without_parent : entries_map_t :=
  [(py "silva2020", (py "inproceedings", child_fields, []))].

(** C1, as stated, fails: when the key of the cross-reference is not in
    the index, the field is still there after normalization. *)
Lemma crossref_unknown_key_stays :
  has_crossref child_fields = true
  /\ crossref_resolves child_fields index_without_parent = false
  /\ normalize_fields (py "inproceedings") (py "silva2020") child_fields
       index_without_parent
     = [(py "  ", py "author", py "SILVA, João");
        (py "  ", py "crossref", py "conf2020")]
  /\ has_crossref
       (normalize_fields (py "inproceedings") (py "silva2020") child_fields
          index_without_parent) = true.
Proof. repeat split; vm_compute; reflexivity. Qed.

(** C1, amended. For every record with a field named "crossref" (in any
    case): when the value of the first such field, stripped, is a key of
    the index, no field of the normalized record is named crossref in any
    case; when it is not (or is empty), no field is inherited from any
    parent - the result is the one obtained with an empty index - and the
    cross-reference field stays, under the lower-case name crossref. *)
Theorem crossref_dropped_when_resolved :
  forall (DT : Datetime) (entry_type key : pystr) (fields : list field)
         (entries_map : entries_map_t),
    has_crossref fields = true ->
    (crossref_resolves fields entries_map = true ->
     has_crossref (normalize_fields entry_type key fields entries_map) = false)
    /\ (crossref_resolves fields entries_map = false ->
        normalize_fields entry_type key fields entries_map
        = normalize_fields entry_type key fields []
        /\ has_name (py "crossref")
             (normalize_fields entry_type key fields entries_map) = true).
Proof.
  intros DT entry_type key fields entries_map Hc. split.
  - apply normalize_fields_resolved.
  - apply normalize_fields_unresolved. exact Hc.
Qed.

Lemma crossref_dropped_when_resolved_witness :
  has_crossref child_fields = true
  /\ has_crossref
       (normalize_fields (py "inproceedings") (py "silva2020") child_fields
          index_with_parent) = false
  /\ normalize_fields (py "inproceedings") (py "silva2020") child_fields
       index_without_parent
     = normalize_fields (py "inproceedings") (py "silva2020") child_fields [].
Proof.
  split; [vm_compute; reflexivity|].
  split.
  - apply (crossref_dropped_when_resolved date_only (py "inproceedings")
             (py "silva2020") child_fields index_with_parent);
      vm_compute; reflexivity.
  - apply (crossref_dropped_when_resolved date_only (py "inproceedings")
             (py "silva2020") child_fields index_without_parent);
      vm_compute; reflexivity.
Defined.

(** *** The field orderer *)

Import Order.

Definition two_notes : list field :=
  [(py "  ", py "note", py "first"); (py "  ", py "note", py "second")].

(** C8, as stated, fails on a record with two fields of one name: for
    the type "online", which the mapping does not list, the result is not
    the input in its order, the second note being gone; and for "article"
    the field left over after the priority fields does not follow them. *)
Lemma order_fields_drops_repeated :
  dict_mem (Py.lower (py "online")) order_map = false
  /\ order_fields (py "online") two_notes
     = [(py "  ", py "note", py "first")]
  /\ order_fields (py "article")
       [(py "  ", py "title", py "T"); (py "  ", py "author", py "A");
        (py "  ", py "title", py "T2")]
     = [(py "  ", py "author", py "A"); (py "  ", py "title", py "T")].
Proof. repeat split; vm_compute; reflexivity. Qed.

(** C8, amended. For every record type and field list, the field orderer
    emits, under the indent of the first field, first the fields matching
    the canonical priority list of the type, in list order, one field per
    listed name (the first of that name), then the fields whose name is
    not in the list, in their order, of which only the first of each name
    is emitted; on a field list without repeated names these are all the
    remaining fields.  For a type absent from the mapping the output is
    the input in its order without the later fields of a repeated name:
    the input itself when no name is repeated. *)
Theorem order_fields_priority_then_rest :
  forall (entry_type : pystr) (fields : list field),
    order_fields entry_type fields
    = map (restyle (first_indent fields))
        (priority_part (desired_of entry_type) fields
         ++ remaining_part (desired_of entry_type) fields)
    /\ (NoDup (names_of fields) ->
        remaining_part (desired_of entry_type) fields
        = filter (unlisted (desired_of entry_type)) fields)
    /\ (dict_mem (Py.lower entry_type) order_map = false ->
        order_fields entry_type fields
        = map (restyle (first_indent fields)) (first_occurrences [] fields)
        /\ (NoDup (names_of fields) ->
            order_fields entry_type fields
            = map (restyle (first_indent fields)) fields)).
Proof.
  intros entry_type fields. split; [apply order_fields_char|]. split.
  - intros Hnd. unfold remaining_part. apply first_occurrences_id.
    + apply names_filter_NoDup. exact Hnd.
    + reflexivity.
  - intros Hm.
    assert (Hd : desired_of entry_type = []).
    { unfold desired_of. unfold dict_mem in Hm.
      destruct (dict_get (Py.lower entry_type) order_map);
        [discriminate | reflexivity]. }
    assert (Hf : filter (unlisted []) fields = fields).
    { apply forallb_filter_id. apply forallb_forall. reflexivity. }
    rewrite order_fields_char, Hd. unfold remaining_part. rewrite Hf. simpl.
    split; [reflexivity|].
    intros Hnd. rewrite first_occurrences_id; [reflexivity | exact Hnd|].
    reflexivity.
Qed.

Definition article_fields : list field :=
  [(py "    ", py "year", py "2020"); (py "  ", py "abstract", py "...");
   (py "  ", py "title", py "T"); (py "  ", py "author", py "A")].

Lemma order_fields_priority_then_rest_witness :
  order_fields (py "article") article_fields
  = [(py "    ", py "author", py "A"); (py "    ", py "title", py "T");
     (py "    ", py "year", py "2020"); (py "    ", py "abstract", py "...")]
  /\ remaining_part (desired_of (py "article")) article_fields
     = filter (unlisted (desired_of (py "article"))) article_fields
  /\ order_fields (py "online") article_fields
     = map (restyle (first_indent article_fields)) article_fields.
Proof.
  destruct (order_fields_priority_then_rest (py "article") article_fields)
    as (H1 & H2 & _).
  destruct (order_fields_priority_then_rest (py "online") article_fields)
    as (_ & _ & H3).
  split; [rewrite H1; vm_compute; reflexivity|].
  split.
  - apply H2. apply nodupb_NoDup. vm_compute. reflexivity.
  - apply H3; [vm_compute; reflexivity|].
    apply nodupb_NoDup. vm_compute. reflexivity.
Defined.

(** C10. For every record type and field list, the output of the field
    orderer holds each field name at most once; its names are those of
    the input; and each of its fields carries the value of the first
    input field of its name: of several fields of one name only the first
    is kept, the later ones being dropped without a word. *)
Theorem order_fields_keeps_first_of_each_name :
  forall (entry_type : pystr) (fields : list field),
    NoDup (names_of (order_fields entry_type fields))
    /\ (forall n, In n (names_of (order_fields entry_type fields))
                  <-> In n (names_of fields))
    /\ (forall i n v,
           In (i, n, v) (order_fields entry_type fields) ->
           i = first_indent fields /\ first_value n fields = Some v).
Proof.
  intros entry_type fields. split; [apply order_fields_NoDup|]. split.
  - intros n. split; [|apply order_fields_names].
    intros H. apply in_map_iff in H as (f & <- & H).
    apply order_fields_first in H as (g & Hg & ->).
    apply first_named_name in Hg as [Hn Hin]. simpl.
    apply in_map_iff. exists g. split; [exact Hn | exact Hin].
  - intros i n v H. apply order_fields_first in H as (g & Hg & E).
    cbv [f_name fst snd] in Hg. unfold restyle in E.
    injection E as -> -> ->. split; [reflexivity|].
    apply first_named_value. exact Hg.
Qed.

Lemma order_fields_keeps_first_of_each_name_witness :
  order_fields (py "online") two_notes = [(py "  ", py "note", py "first")]
  /\ py "  " = first_indent two_notes
  /\ first_value (py "note") two_notes = Some (py "first").
Proof.
  split; [vm_compute; reflexivity|].
  apply (proj2 (proj2 (order_fields_keeps_first_of_each_name (py "online")
                         two_notes))).
  vm_compute. left. reflexivity.
Defined.

(** *** Type and key *)

(** C9. For every record the parser accepts, with the type and the key
    the parser returns, a step of the main loop either drops the record
    as a duplicate or emits exactly one text, built from that type and
    that key whatever normalization and ordering did to the fields; the
    first line of the text is the header "@type{key," with exactly that
    type and that key. *)
Theorem header_keeps_type_and_key :
  forall (DT : Datetime) (entries_map : entries_map_t) (st : run_state)
         (text entry_type key : pystr) (fields : list field)
         (unknown : list pystr),
    parse_entry text = Some (entry_type, key, fields, unknown) ->
    let e := (entry_type, key, fields, unknown) in
    let st' := process_step entries_map st e in
    (normalized_entries st' = normalized_entries st
     /\ dropped st' = S (dropped st))
    \/ (normalized_entries st'
        = normalized_entries st
          ++ [build_entry entry_type key (new_fields_of entries_map e) unknown
                (first_indent fields)]
        /\ hd_error
             (Py.splitlines
                (build_entry entry_type key (new_fields_of entries_map e)
                   unknown (first_indent fields)))
           = Some (py "@" ++ entry_type ++ py "{" ++ key ++ py ",")).
Proof.
  intros DT m st text entry_type key fields unknown Hp. cbv zeta.
  destruct (parse_entry_header _ Hp) as [Ht Hl].
  assert (Hr : is_record (entry_type, key, fields, unknown) = true) by exact Ht.
  rewrite (process_step_cases m st _ Hr).
  assert (Hh : hd_error
                 (Py.splitlines
                    (build_entry entry_type key
                       (new_fields_of m (entry_type, key, fields, unknown))
                       unknown (first_indent fields)))
               = Some (py "@" ++ entry_type ++ py "{" ++ key ++ py ",")).
  { destruct (build_entry_header entry_type key
                (new_fields_of m (entry_type, key, fields, unknown))
                unknown (first_indent fields)) as (body & ->).
    apply splitlines_first. exact Hl. }
  destruct (fp_any _); [destruct (fp_in _ _)|]; simpl.
  - left. split; reflexivity.
  - right. split; [reflexivity | exact Hh].
  - right. split; [reflexivity | exact Hh].
Qed.

Definition entry_text_silva : pystr := py "@Article{ silva2020 ,
  title = {Um estudo},
}".

Definition entry_silva : entry :=
  (py "Article", py "silva2020", [(py "  ", py "title", py "Um estudo")], []).

Lemma header_keeps_type_and_key_witness :
  parse_entry entry_text_silva = Some entry_silva
  /\ ((normalized_entries (process_step [] (mkRun [] [] 0 0) entry_silva)
       = normalized_entries (mkRun [] [] 0 0)
       /\ dropped (process_step [] (mkRun [] [] 0 0) entry_silva)
          = S (dropped (mkRun [] [] 0 0)))
      \/ (normalized_entries (process_step [] (mkRun [] [] 0 0) entry_silva)
          = normalized_entries (mkRun [] [] 0 0)
            ++ [build_entry (py "Article") (py "silva2020")
                  (new_fields_of [] entry_silva) []
                  (first_indent [(py "  ", py "title", py "Um estudo")])]
          /\ hd_error
               (Py.splitlines
                  (build_entry (py "Article") (py "silva2020")
                     (new_fields_of [] entry_silva) []
                     (first_indent [(py "  ", py "title", py "Um estudo")])))
             = Some (py "@" ++ py "Article" ++ py "{" ++ py "silva2020"
                     ++ py ","))).
Proof.
  split; [vm_compute; reflexivity|].
  apply (@header_keeps_type_and_key date_only [] (mkRun [] [] 0 0)
           entry_text_silva (py "Article") (py "silva2020")
           [(py "  ", py "title", py "Um estudo")] []).
  vm_compute. reflexivity.
Defined.

(* ================================================================== *)
(** ** Further properties of the script *)
(* ================================================================== *)

From Stdlib Require Import Permutation.

(** *** The two loops of main *)

(** The entry [main] records for a block: what the parser returns, or
    the block itself, kept as it is. *)
Definition entry_of_block (entry_text : pystr) : entry :=
  match parse_entry entry_text with
  | Some e => e
  | None => ([], [], [], [entry_text])
  end.

Lemma parse_fold_entries (entries : list pystr) :
  forall parsed m,
    fst (fold_left parse_step entries (parsed, m))
    = parsed ++ map entry_of_block entries.
Proof.
  induction entries as [|text entries IH]; intros parsed m; cbn [fold_left map].
  - symmetry. apply app_nil_r.
  - assert (Hstep : parse_step (parsed, m) text
                    = (parsed ++ [entry_of_block text],
                       snd (parse_step (parsed, m) text))).
    { unfold parse_step, entry_of_block.
      destruct (parse_entry text) as [[[[t k] fs] u]|]; reflexivity. }
    rewrite Hstep, IH, <- app_assoc. reflexivity.
Qed.

Lemma dict_get_set_same {V} (k : pystr) (v : V) (d : dict V) :
  dict_get k (dict_set k v d) = Some v.
Proof.
  induction d as [|[k' v'] d IH]; simpl.
  - rewrite eqb_refl. reflexivity.
  - destruct (Py.eqb k k') eqn:E; simpl; rewrite ?eqb_refl, ?E; auto.
Qed.

Lemma dict_get_set_other {V} (k k' : pystr) (v : V) (d : dict V) :
  k' <> k -> dict_get k' (dict_set k v d) = dict_get k' d.
Proof.
  intros Hne. apply eqb_neq in Hne.
  induction d as [|[k0 v0] d IH]; simpl.
  - rewrite Hne. reflexivity.
  - destruct (Py.eqb k k0) eqn:E; simpl.
    + apply eqb_eq in E. subst k0. rewrite Hne. reflexivity.
    + destruct (Py.eqb k' k0); [reflexivity | exact IH].
Qed.

(** The key a block is indexed under, when it parses. *)
Definition block_key (entry_text : pystr) : option pystr :=
  match parse_entry entry_text with
  | Some (_, key, _, _) => Some key
  | None => None
  end.

Lemma parse_fold_index_other (entries : list pystr) (k : pystr) :
  (forall text, In text entries -> block_key text <> Some k) ->
  forall parsed m,
    dict_get k (snd (fold_left parse_step entries (parsed, m))) = dict_get k m.
Proof.
  induction entries as [|text entries IH]; intros Hk parsed m; simpl;
    [reflexivity|].
  assert (Hk' : forall t, In t entries -> block_key t <> Some k).
  { intros t Ht. apply Hk. right. exact Ht. }
  pose proof (Hk text (or_introl eq_refl)) as Ht. unfold block_key in Ht.
  destruct (parse_entry text) as [[[[t k0] fs] u]|].
  - rewrite (IH Hk'). apply dict_get_set_other. congruence.
  - apply (IH Hk').
Qed.

(** X1. The index of [main] maps a key to the last block that parses
    with that key: when a record is followed by no record of the same
    key, looking its key up gives its type, fields and unknown lines; a
    key no block parses with is not in the index. *)
Theorem index_holds_last_entry_of_key :
  forall (entries : list pystr) (k : pystr),
    (forall pre text post t fs u,
        entries = pre ++ text :: post ->
        parse_entry text = Some (t, k, fs, u) ->
        (forall text', In text' post -> block_key text' <> Some k) ->
        dict_get k (snd (parse_all entries)) = Some (t, fs, u))
    /\ ((forall text, In text entries -> block_key text <> Some k) ->
        dict_get k (snd (parse_all entries)) = None).
Proof.
  intros entries k. split.
  - intros pre text post t fs u -> Hp Hpost.
    unfold parse_all. rewrite fold_left_app. simpl.
    destruct (fold_left parse_step pre ([], [])) as [parsed m].
    unfold parse_step at 2. rewrite Hp.
    rewrite (parse_fold_index_other _ Hpost). apply dict_get_set_same.
  - intros Hk. unfold parse_all. rewrite (parse_fold_index_other _ Hk).
    reflexivity.
Qed.

Definition block_old : pystr := py "@book{silva2020,
  title = {Primeira},
}".

Definition block_new : pystr := py "@misc{silva2020,
  title = {Segunda},
}".

Lemma index_holds_last_entry_of_key_witness :
  dict_get (py "silva2020") (snd (parse_all [block_old; block_new]))
  = Some (py "misc", [(py "  ", py "title", py "Segunda")], [])
  /\ dict_get (py "souza2021") (snd (parse_all [block_old; block_new])) = None.
Proof.
  split.
  - apply (proj1 (index_holds_last_entry_of_key [block_old; block_new]
                    (py "silva2020")) [block_old] block_new []).
    + reflexivity.
    + vm_compute. reflexivity.
    + intros text' [].
  - apply (proj2 (index_holds_last_entry_of_key [block_old; block_new]
                    (py "souza2021"))).
    intros text [<-|[<-|[]]]; vm_compute; discriminate.
Defined.

(** The elements of a list a list of flags selects. *)
Fixpoint chosen {A : Type} (flags : list bool) (l : list A) : list A :=
  match flags, l with
  | b :: flags', x :: l' => if b then x :: chosen flags' l' else chosen flags' l'
  | _, _ => []
  end.

Lemma chosen_app {A : Type} (f1 f2 : list bool) (l1 l2 : list A) :
  List.length f1 = List.length l1 ->
  chosen (f1 ++ f2) (l1 ++ l2) = chosen f1 l1 ++ chosen f2 l2.
Proof.
  revert l1. induction f1 as [|b f1 IH]; intros [|x l1] H;
    try discriminate; [reflexivity|].
  injection H as H. cbn [app chosen]. rewrite (IH l1 H).
  destruct b; reflexivity.
Qed.

Section Accounting.

Context {DT : Datetime}.
Variable entries_map : entries_map_t.

Lemma process_step_counts (st : run_state) (e : entry) :
  List.length (normalized_entries (process_step entries_map st e))
  + dropped (process_step entries_map st e)
  = S (List.length (normalized_entries st) + dropped st)
  /\ changed (process_step entries_map st e) + List.length (normalized_entries st)
     <= changed st
        + List.length (normalized_entries (process_step entries_map st e)).
Proof.
  destruct e as [[[t k] fs] u]. unfold process_step.
  destruct (negb (nonempty t)).
  - simpl. rewrite length_app. simpl. lia.
  - cbv zeta beta.
    repeat match goal with
           | |- context [if ?b then _ else _] => destruct b
           end; simpl; rewrite ?length_app; simpl; lia.
Qed.

Lemma process_fold_counts (parsed : list entry) :
  forall st,
    let st' := fold_left (process_step entries_map) parsed st in
    List.length (normalized_entries st') + dropped st'
    = List.length parsed + (List.length (normalized_entries st) + dropped st)
    /\ changed st' + List.length (normalized_entries st)
       <= changed st + List.length (normalized_entries st').
Proof.
  induction parsed as [|e parsed IH]; intros st; cbn [fold_left].
  - simpl. lia.
  - destruct (IH (process_step entries_map st e)) as [H1 H2].
    destruct (process_step_counts st e) as [H3 H4].
    cbv zeta in *. simpl List.length. lia.
Qed.

(** The blocks that fail to parse go through the second loop as they
    are. *)
Lemma process_fold_opaque (blocks : list pystr) :
  (forall b, In b blocks -> parse_entry b = None) ->
  forall st,
    fold_left (process_step entries_map) (map entry_of_block blocks) st
    = mkRun (normalized_entries st ++ blocks) (seen st) (dropped st) (changed st).
Proof.
  induction blocks as [|b blocks IH]; intros Hb st; cbn [map fold_left].
  - rewrite app_nil_r. destruct st; reflexivity.
  - rewrite IH by (intros b' Hb'; apply Hb; right; exact Hb').
    unfold entry_of_block. rewrite (Hb b (or_introl eq_refl)).
    simpl. rewrite <- app_assoc. reflexivity.
Qed.

(** The text the second loop writes for an entry it keeps: the rebuilt
    record, or the lines of a block that did not parse. *)
Definition written (e : entry) : pystr :=
  let '(entry_type, key, fields, unknown) := e in
  if nonempty entry_type then emit entries_map e
  else Py.join [10%N] unknown.

(** A record whose fields normalization and ordering change. *)
Definition is_changed (e : entry) : bool :=
  let '(entry_type, key, fields, unknown) := e in
  nonempty entry_type
  && negb (fields_eqb (new_fields_of entries_map e) fields).

(** One step of the loop either keeps the entry, and writes its text, or
    drops it, and then it is a record whose fingerprint was seen. *)
Lemma process_step_flag (st : run_state) (e : entry) :
  exists b : bool,
    normalized_entries (process_step entries_map st e)
    = normalized_entries st ++ (if b then [written e] else [])
    /\ dropped (process_step entries_map st e)
       = dropped st + (if b then 0 else 1)
    /\ changed (process_step entries_map st e)
       = changed st + (if b && is_changed e then 1 else 0)
    /\ (b = false ->
        is_record e = true /\ fp_of entries_map e <> ([], [], [])
        /\ fp_in (fp_of entries_map e) (seen st) = true)
    /\ (seen (process_step entries_map st e) = seen st
        \/ (b = true /\ is_record e = true
            /\ seen (process_step entries_map st e)
               = fp_of entries_map e :: seen st)).
Proof.
  destruct e as [[[t k] fs] u]. unfold process_step, written, is_changed.
  destruct (nonempty t) eqn:Et; cbn [negb].
  - change (entry_fingerprint t k (new_fields_of entries_map (t, k, fs, u)))
      with (fp_of entries_map (t, k, fs, u)).
    cbv zeta.
    destruct (fp_any (fp_of entries_map (t, k, fs, u))) eqn:Ea;
      [destruct (fp_in (fp_of entries_map (t, k, fs, u)) (seen st)) eqn:Es|].
    + exists false. cbn [normalized_entries dropped changed seen andb].
      rewrite app_nil_r, Nat.add_0_r.
      split; [reflexivity|]. split; [lia|]. split; [reflexivity|].
      split; [|left; reflexivity].
      intros _. split; [exact Et|]. split; [|reflexivity].
      apply fp_any_true. exact Ea.
    + exists true. cbn [normalized_entries dropped changed seen andb].
      rewrite Nat.add_0_r. split; [reflexivity|]. split; [reflexivity|].
      split.
      { destruct (negb (fields_eqb (new_fields_of entries_map (t, k, fs, u)) fs));
          lia. }
      split; [discriminate|]. right. repeat split. exact Et.
    + exists true. cbn [normalized_entries dropped changed seen andb].
      rewrite Nat.add_0_r. split; [reflexivity|]. split; [reflexivity|].
      split.
      { destruct (negb (fields_eqb (new_fields_of entries_map (t, k, fs, u)) fs));
          lia. }
      split; [discriminate|]. left. reflexivity.
  - exists true. cbn [normalized_entries dropped changed seen andb].
    rewrite !Nat.add_0_r. split; [reflexivity|]. split; [reflexivity|].
    split; [reflexivity|]. split; [discriminate|]. left. reflexivity.
Qed.

(** The run, entry by entry: [keep] tells which entries are written. *)
Lemma process_all_flags (parsed : list entry) :
  exists keep : list bool,
    List.length keep = List.length parsed
    /\ normalized_entries (process_all entries_map parsed)
       = map written (chosen keep parsed)
    /\ dropped (process_all entries_map parsed)
       = List.length (chosen (map negb keep) parsed)
    /\ changed (process_all entries_map parsed)
       = List.length (filter is_changed (chosen keep parsed))
    /\ Forall (fun e =>
                 is_record e = true /\ fp_of entries_map e <> ([], [], [])
                 /\ exists e', In e' (chosen keep parsed) /\ is_record e' = true
                               /\ fp_of entries_map e' = fp_of entries_map e)
         (chosen (map negb keep) parsed)
    /\ (forall fp,
          fp_in fp (seen (process_all entries_map parsed)) = true ->
          exists e', In e' (chosen keep parsed) /\ is_record e' = true
                     /\ fp_of entries_map e' = fp).
Proof.
  induction parsed as [|e parsed IH] using rev_ind.
  - exists []. repeat split; try reflexivity; [constructor | discriminate].
  - destruct IH as (keep & Hlen & Hn & Hd & Hc & Hdup & Hseen).
    rewrite process_all_snoc.
    destruct (process_step_flag (process_all entries_map parsed) e)
      as (b & En & Ed & Ec & Hb & Hs).
    assert (Hneg : List.length (map negb keep) = List.length parsed)
      by (rewrite length_map; exact Hlen).
    exists (keep ++ [b]).
    rewrite map_app, (chosen_app keep [b] parsed [e] Hlen),
      (chosen_app (map negb keep) (map negb [b]) parsed [e] Hneg).
    rewrite En, Ed, Ec, Hn, Hd, Hc.
    split; [rewrite !length_app; simpl; lia|].
    split; [rewrite map_app; destruct b; reflexivity|].
    split; [rewrite length_app; destruct b; reflexivity|].
    split.
    { rewrite filter_app, length_app. destruct b; cbn [chosen filter andb];
        [destruct (is_changed e)|]; reflexivity. }
    split.
    { apply Forall_app. split.
      - eapply Forall_impl; [|exact Hdup].
        intros d (Hr & Ha & e' & Hin & Hr' & Hf).
        repeat split; try assumption.
        exists e'. split; [apply in_or_app; left; exact Hin | auto].
      - destruct b; cbn [map negb chosen]; [constructor|].
        constructor; [|constructor].
        destruct (Hb eq_refl) as (Hr & Ha & Hin).
        repeat split; try assumption.
        destruct (Hseen _ Hin) as (e' & Hin' & Hr' & Hf).
        exists e'. split; [apply in_or_app; left; exact Hin' | auto]. }
    intros fp Hfp. destruct Hs as [Hs|(-> & Hr & Hs)].
    + rewrite Hs in Hfp. destruct (Hseen _ Hfp) as (e' & Hin & H).
      exists e'. split; [apply in_or_app; left; exact Hin | exact H].
    + rewrite Hs in Hfp. cbn [fp_in existsb] in Hfp.
      apply orb_true_iff in Hfp as [Hfp|Hfp].
      * apply fp_eqb_eq in Hfp. exists e.
        split; [apply in_or_app; right; left; reflexivity|].
        split; [exact Hr | symmetry; exact Hfp].
      * destruct (Hseen _ Hfp) as (e' & Hin & H).
        exists e'. split; [apply in_or_app; left; exact Hin | exact H].
Qed.

End Accounting.

(** The entries and the index the first loop of [main] builds. *)
Definition parsed_of (original : pystr) : list entry :=
  map entry_of_block (split_entries original).

Definition index_of (original : pystr) : entries_map_t :=
  snd (parse_all (split_entries original)).

(** X2. Every block [split_entries] finds is accounted for.  Each block
    is either kept or dropped.  The text [main] writes is made of the
    kept ones, in their order, each as the rebuilt record or as the block
    itself when it did not parse, joined by blank lines and ended by one
    new line.  The count of dropped records is the number of dropped
    blocks, each of which is a record whose fingerprint is not empty and
    is that of a record that is kept.  The count of modified records is
    the number of kept records whose fields normalization and ordering
    change, and the count of processed blocks is the number of blocks. *)
Theorem main_accounts_for_every_block :
  forall (DT : Datetime) (original : pystr),
  exists keep : list bool,
    List.length keep = List.length (split_entries original)
    /\ output_text (main original)
       = Py.join [10%N; 10%N]
           (map (written (index_of original))
              (chosen keep (parsed_of original)))
         ++ [10%N]
    /\ n_dropped (main original)
       = List.length (chosen (map negb keep) (parsed_of original))
    /\ Forall (fun e =>
                 is_record e = true
                 /\ fp_of (index_of original) e <> ([], [], [])
                 /\ exists e',
                      In e' (chosen keep (parsed_of original))
                      /\ is_record e' = true
                      /\ fp_of (index_of original) e'
                         = fp_of (index_of original) e)
         (chosen (map negb keep) (parsed_of original))
    /\ n_changed (main original)
       = List.length
           (filter (is_changed (index_of original))
              (chosen keep (parsed_of original)))
    /\ n_processed (main original) = List.length (split_entries original).
Proof.
  intros DT original. unfold main, index_of, parsed_of, parse_all.
  destruct (fold_left parse_step (split_entries original) ([], []))
    as [parsed m] eqn:E.
  assert (Hp : parsed = map entry_of_block (split_entries original)).
  { change parsed with (fst (parsed, m)). rewrite <- E.
    apply (parse_fold_entries (split_entries original) [] []). }
  subst parsed. clear E. cbn [snd].
  destruct (process_all_flags m (map entry_of_block (split_entries original)))
    as (keep & Hlen & Hn & Hd & Hc & Hdup & _).
  exists keep. rewrite length_map in Hlen.
  cbn [output_text n_dropped n_changed n_processed].
  rewrite Hn, Hd, Hc.
  repeat split; try reflexivity; assumption.
Qed.

(** X3. A document in which every block has a malformed header is
    written back block by block, each block as [split_entries] found it,
    and nothing is reported modified or dropped. *)
Theorem malformed_blocks_pass_through :
  forall (DT : Datetime) (original : pystr),
    (forall b, In b (split_entries original) -> parse_entry b = None) ->
    output_text (main original)
    = Py.join [10%N; 10%N] (split_entries original) ++ [10%N]
    /\ n_changed (main original) = 0
    /\ n_dropped (main original) = 0.
Proof.
  intros DT original Hb. unfold main, parse_all.
  destruct (fold_left parse_step (split_entries original) ([], []))
    as [parsed m] eqn:E.
  assert (Hp : parsed = map entry_of_block (split_entries original)).
  { change parsed with (fst (parsed, m)). rewrite <- E.
    apply (parse_fold_entries (split_entries original) [] []). }
  subst parsed. clear E.
  unfold process_all. rewrite (process_fold_opaque m _ Hb). simpl.
  repeat split; reflexivity.
Qed.

Definition doc_no_comma : pystr := py "% notes
@article{silva2020
  title = {Um estudo},
}

@comment{ free text }
and more
}
".

Lemma malformed_blocks_pass_through_witness :
  output_text (main doc_no_comma)
  = Py.join [10%N; 10%N] (split_entries doc_no_comma) ++ [10%N]
  /\ n_changed (main doc_no_comma) = 0
  /\ n_dropped (main doc_no_comma) = 0.
Proof.
  apply (malformed_blocks_pass_through date_only doc_no_comma).
  intros b Hb. vm_compute in Hb.
  destruct Hb as [<-|[<-|[]]]; vm_compute; reflexivity.
Defined.

(** *** The field orderer, again *)

Lemma first_named_unique (l : list field) (x : field) :
  NoDup (names_of l) -> In x l -> first_named (f_name x) l = Some x.
Proof.
  unfold first_named.
  induction l as [|g l IH]; simpl; intros Hnd Hin; [contradiction|].
  inversion Hnd as [|? ? Hnot Hnd']; subst.
  destruct Hin as [->|Hin].
  - rewrite eqb_refl. reflexivity.
  - destruct (Py.eqb (f_name g) (f_name x)) eqn:E; [|apply IH; assumption].
    apply eqb_eq in E. exfalso. apply Hnot. rewrite E.
    apply in_map. exact Hin.
Qed.

Lemma first_named_in_first_occurrences (fields : list field) :
  forall used f,
    first_named (f_name f) fields = Some f ->
    str_in (f_name f) used = false ->
    In f (first_occurrences used fields).
Proof.
  unfold first_named.
  induction fields as [|g fields IH]; intros used f; simpl; [discriminate|].
  destruct (Py.eqb (f_name g) (f_name f)) eqn:E.
  - intros H Hu. injection H as ->. rewrite Hu. left. reflexivity.
  - intros H Hu. destruct (str_in (f_name g) used); [apply IH; assumption|].
    right. apply IH; [exact H|].
    rewrite str_in_cons, eqb_sym, E, Hu. reflexivity.
Qed.

(** The fields of the result, before restyling: the first field of each
    name. *)
Lemma order_members (entry_type : pystr) (fields : list field) (f : field) :
  In f (priority_part (desired_of entry_type) fields
        ++ remaining_part (desired_of entry_type) fields)
  <-> first_named (f_name f) fields = Some f.
Proof.
  split.
  - intros H. apply in_app_or in H as [H|H].
    + apply in_priority_part in H as [_ H]. exact H.
    + apply in_remaining_part in H as [_ H]. exact H.
  - intros H. apply in_or_app.
    destruct (str_in (f_name f) (desired_of entry_type)) eqn:Ed.
    + left. apply in_priority_part. split; [apply str_in_In; exact Ed | exact H].
    + right. unfold remaining_part.
      apply first_named_in_first_occurrences; [|reflexivity].
      rewrite first_named_filter; [exact H|].
      intros g Hg. unfold unlisted. rewrite Hg, Ed. reflexivity.
Qed.

Lemma NoDup_of_names (l : list field) : NoDup (names_of l) -> NoDup l.
Proof. apply NoDup_map_inv. Qed.

(** X4. The field orderer loses no field and makes none up: its result is
    a rearrangement of the first fields of each name of the record, all
    put under the indent of the first field - a rearrangement of the
    whole record when no name is repeated. *)
Theorem order_fields_rearranges :
  forall (entry_type : pystr) (fields : list field),
    Permutation
      (map (restyle (first_indent fields)) (first_occurrences [] fields))
      (order_fields entry_type fields)
    /\ (NoDup (names_of fields) ->
        Permutation (map (restyle (first_indent fields)) fields)
          (order_fields entry_type fields)).
Proof.
  intros entry_type fields.
  assert (Hperm : Permutation
                    (map (restyle (first_indent fields))
                       (first_occurrences [] fields))
                    (order_fields entry_type fields)).
  { rewrite order_fields_char. apply Permutation_map.
    apply NoDup_Permutation.
    - apply NoDup_of_names, first_occurrences_NoDup.
    - apply NoDup_of_names.
      pose proof (order_fields_NoDup entry_type fields) as H.
      rewrite order_fields_char, names_of_restyle in H. exact H.
    - intros f. rewrite order_members. split.
      + intros H. apply in_first_occurrences in H as [_ H]. exact H.
      + intros H. apply first_named_in_first_occurrences;
          [exact H | reflexivity]. }
  split; [exact Hperm|].
  intros Hnd. rewrite first_occurrences_id in Hperm;
    [exact Hperm | exact Hnd | reflexivity].
Qed.

Lemma order_fields_rearranges_witness :
  Permutation (map (restyle (first_indent article_fields)) article_fields)
    (order_fields (py "article") article_fields).
Proof.
  apply (proj2 (order_fields_rearranges (py "article") article_fields)).
  apply nodupb_NoDup. vm_compute. reflexivity.
Defined.

Lemma flat_map_option_map {A B C} (g : B -> C) (h : A -> option B) (l : list A) :
  flat_map (fun a => match option_map g (h a) with
                     | Some c => [c]
                     | None => []
                     end) l
  = map g (flat_map (fun a => match h a with
                              | Some b => [b]
                              | None => []
                              end) l).
Proof.
  induction l as [|a l IH]; simpl; [reflexivity|].
  rewrite map_app, IH. destruct (h a); reflexivity.
Qed.

Lemma filter_nothing {A} (p : A -> bool) (l : list A) :
  (forall x, In x l -> p x = false) -> filter p l = [].
Proof.
  induction l as [|a l IH]; simpl; intros H; [reflexivity|].
  rewrite (H a (or_introl eq_refl)). apply IH.
  intros x Hx. apply H. right. exact Hx.
Qed.

Lemma filter_everything {A} (p : A -> bool) (l : list A) :
  (forall x, In x l -> p x = true) -> filter p l = l.
Proof.
  intros H. apply forallb_filter_id. apply forallb_forall. exact H.
Qed.

(** Restyling under the indent the fields already carry changes
    nothing. *)
Lemma restyle_own_indent (s : pystr) (l : list field) :
  map (restyle (first_indent (map (restyle s) l))) (map (restyle s) l)
  = map (restyle s) l.
Proof.
  destruct l as [|g l]; [reflexivity|].
  change (first_indent (map (restyle s) (g :: l))) with s.
  rewrite map_map. apply map_ext. reflexivity.
Qed.

(** X5. Ordering is idempotent: the field orderer leaves its own output
    as it is. *)
Theorem order_fields_idempotent :
  forall (entry_type : pystr) (fields : list field),
    order_fields entry_type (order_fields entry_type fields)
    = order_fields entry_type fields.
Proof.
  intros entry_type fields.
  pose proof (order_fields_NoDup entry_type fields) as Hnd.
  pose proof (order_fields_char entry_type fields) as HO.
  set (s := first_indent fields) in *.
  set (d := desired_of entry_type) in *.
  set (P := priority_part d fields) in *.
  set (R := remaining_part d fields) in *.
  (* the first field of a name in the output is the first one of the
     input, restyled *)
  assert (Hfirst : forall name,
             first_named name (order_fields entry_type fields)
             = option_map (restyle s) (first_named name fields)).
  { intros name. destruct (first_named name fields) as [g|] eqn:E; simpl.
    - destruct (first_named_name _ _ E) as [Hn Hin].
      replace name with (f_name (restyle s g)) by exact Hn.
      apply first_named_unique; [exact Hnd|].
      rewrite HO. apply in_map. apply order_members. rewrite Hn. exact E.
    - apply first_named_None. apply first_named_None in E.
      intros Hin. apply E. apply in_map_iff in Hin as (x & <- & Hx).
      apply order_fields_first in Hx as (g & Hg & ->).
      apply first_named_name in Hg as [Hn Hin]. simpl.
      apply in_map_iff. exists g. split; [exact Hn | exact Hin]. }
  assert (HP : priority_part d (order_fields entry_type fields)
               = map (restyle s) P).
  { unfold P, priority_part.
    rewrite <- (flat_map_option_map (restyle s) (fun n => first_named n fields)).
    apply flat_map_ext. intros name. rewrite Hfirst. reflexivity. }
  assert (HR : remaining_part d (order_fields entry_type fields)
               = map (restyle s) R).
  { unfold remaining_part at 1.
    rewrite first_occurrences_id;
      [|apply names_filter_NoDup; exact Hnd | reflexivity].
    rewrite HO, map_app, filter_app.
    rewrite filter_nothing, filter_everything; [reflexivity| |].
    - intros x Hx. apply in_map_iff in Hx as (g & <- & Hg).
      apply in_remaining_part in Hg as [Hg _].
      unfold unlisted. change (f_name (restyle s g)) with (f_name g).
      rewrite Hg. reflexivity.
    - intros x Hx. apply in_map_iff in Hx as (g & <- & Hg).
      apply in_priority_part in Hg as [Hg _]. apply str_in_In in Hg.
      unfold unlisted. change (f_name (restyle s g)) with (f_name g).
      rewrite Hg. reflexivity. }
  rewrite (order_fields_char entry_type (order_fields entry_type fields)).
  fold d. rewrite HP, HR, <- map_app. rewrite HO at 1.
  rewrite restyle_own_indent. symmetry. exact HO.
Qed.

(** *** Field normalization *)

Section FieldNames.

Context {DT : Datetime}.

(** A list of fields appended to [nf], all named within [allowed]. *)
Definition appends (allowed : list pystr) (nf result : list field) : Prop :=
  exists ext, result = nf ++ ext
              /\ Forall (fun g => In (f_name g) allowed) ext.

Ltac appended :=
  solve
    [ exists []; split; [symmetry; apply app_nil_r | constructor]
    | eexists; split;
      [ unfold append_styled; rewrite <- ?app_assoc; reflexivity
      | repeat (constructor; [vm_compute; tauto|]); constructor ] ].

Lemma split_url_fragment_appends (indent v : pystr) (nf : list field) :
  appends [py "url"; py "urldate"] nf (snd (split_url_fragment indent v nf)).
Proof.
  unfold split_url_fragment, appends.
  destruct (extract_url_and_access v) as [[url|] [urldate|]]; simpl;
    repeat match goal with
           | |- context [if ?b then _ else _] => destruct b
           end; simpl; appended.
Qed.

Lemma bardin_defaults_appends (key : pystr) (nf : list field) :
  appends [py "publisher"; py "address"] nf (bardin_defaults key nf).
Proof.
  unfold bardin_defaults, appends.
  repeat match goal with
         | |- context [if ?b then _ else _] => destruct b
         end; appended.
Qed.

Lemma note_url_stage_appends (note : option pystr) (nf : list field) :
  appends [py "url"; py "urldate"] nf (note_url_stage note nf).
Proof.
  unfold note_url_stage, appends. destruct note as [note|]; [|appended].
  destruct (nonempty note && negb (has_name (py "url") nf)); [|appended].
  destruct (extract_url_and_access note) as [url urldate].
  repeat match goal with
         | |- context [if ?b then _ else _] => destruct b
         end; appended.
Qed.

(** The names the loop gives the fields it appends for the field [f]:
    url and urldate for what it extracts, and the name of [f] in lower
    case, which is never "key". *)
Definition step_name (f : field) (n : pystr) : Prop :=
  In n [py "url"; py "urldate"]
  \/ (n = Py.lower (f_name f) /\ n <> py "key").

Lemma field_step_names (key : pystr) (nf : list field) (note : option pystr)
    (f : field) :
  exists ext,
    fst (field_step key (nf, note) f) = nf ++ ext
    /\ Forall (fun g => step_name f (f_name g)) ext.
Proof.
  destruct f as [[indent name] value]. unfold field_step. cbv zeta.
  generalize (rewrite_value (Py.lower name) (Py.strip value)). intros v.
  destruct (Py.eqb (Py.lower name) (py "note") && is_trivial_note v).
  { exists []. split; [symmetry; apply app_nil_r | constructor]. }
  assert (Hfrag : exists v' ext,
             (if str_in (Py.lower name)
                   [py "journal"; py "publisher"; py "booktitle"; py "address"]
                 && found true re_has_url v
              then split_url_fragment indent v nf else (v, nf))
             = (v', nf ++ ext)
             /\ Forall (fun g => In (f_name g) [py "url"; py "urldate"]) ext).
  { destruct (_ && _).
    - destruct (split_url_fragment_appends indent v nf) as (ext & E & Hs).
      destruct (split_url_fragment indent v nf) as [v' nf']. simpl in E. subst nf'.
      exists v', ext. split; [reflexivity | exact Hs].
    - exists v, []. split; [rewrite app_nil_r; reflexivity | constructor]. }
  destruct Hfrag as (v' & ext & -> & Hs).
  assert (Hext : Forall (fun g => step_name (indent, name, value) (f_name g)) ext).
  { eapply Forall_impl; [|exact Hs]. intros g Hg. left. exact Hg. }
  destruct (Py.eqb (Py.lower name) (py "key")) eqn:Ek.
  { exists ext. split; [reflexivity | exact Hext]. }
  apply eqb_neq in Ek.
  assert (Hall : forall w,
             Forall (fun g => step_name (indent, name, value) (f_name g))
               (ext ++ [(indent, Py.lower name, w)])).
  { intros w. apply Forall_app. split; [exact Hext|].
    constructor; [right; split; [reflexivity | exact Ek] | constructor]. }
  destruct (Py.eqb (Py.lower key) (py "bardin2016")).
  - destruct (bardin_fix (Py.lower name) v') as [w|]; simpl.
    + exists (ext ++ [(indent, Py.lower name, w)]).
      split; [rewrite app_assoc; reflexivity | apply Hall].
    + exists ext. split; [reflexivity | exact Hext].
  - exists (ext ++ [(indent, Py.lower name, v')]).
    split; [simpl; rewrite app_assoc; reflexivity | apply Hall].
Qed.

Lemma loop_names (key : pystr) (merged : list field) :
  forall nf note,
  exists ext,
    fst (fold_left (field_step key) merged (nf, note)) = nf ++ ext
    /\ Forall (fun g => exists f, In f merged /\ step_name f (f_name g)) ext.
Proof.
  induction merged as [|f merged IH]; intros nf note; cbn [fold_left].
  - exists []. split; [symmetry; apply app_nil_r | constructor].
  - destruct (field_step_names key nf note f) as (e1 & E1 & H1).
    destruct (field_step key (nf, note) f) as [nf1 note1]. simpl in E1. subst nf1.
    destruct (IH (nf ++ e1) note1) as (e2 & E2 & H2).
    exists (e1 ++ e2). split; [rewrite E2, app_assoc; reflexivity|].
    apply Forall_app. split.
    + eapply Forall_impl; [|exact H1]. intros g Hg. exists f.
      split; [left; reflexivity | exact Hg].
    + eapply Forall_impl; [|exact H2]. intros g (f' & Hin & Hg).
      exists f'. split; [right; exact Hin | exact Hg].
Qed.

End FieldNames.

(** X6. Normalization writes every field name in lower case, and drops
    the fields called "key": no field of the result is called "key", in
    any case. *)
Theorem normalize_fields_names :
  forall (DT : Datetime) (entry_type key : pystr) (fields : list field)
         (entries_map : entries_map_t) (f : field),
    In f (normalize_fields entry_type key fields entries_map) ->
    Py.lower (f_name f) = f_name f /\ Py.lower (f_name f) <> py "key".
Proof.
  intros DT entry_type key fields m f Hin.
  destruct (normalize_fields_shape entry_type key fields m) as (ext & E & Hs).
  rewrite E in Hin. clear E. apply in_app_or in Hin as [Hin|Hin].
  - unfold loop_fields in Hin.
    destruct (loop_names key (merge_crossref fields m) [] None) as (e & E & He).
    rewrite E in Hin. simpl in Hin. rewrite Forall_forall in He.
    destruct (He f Hin) as (f0 & _ & [Hn|[Hn Hk]]).
    + simpl in Hn. destruct Hn as [<-|[<-|[]]]; split; vm_compute;
        (reflexivity || discriminate).
    + assert (Hl : Py.lower (f_name f) = f_name f)
        by (rewrite Hn; apply lower_idem).
      split; [exact Hl | rewrite Hl; exact Hk].
  - unfold synthesized_only in Hs. rewrite Forall_forall in Hs.
    pose proof (Hs f Hin) as Hn. simpl in Hn.
    repeat destruct Hn as [<-|Hn]; try contradiction;
      split; vm_compute; (reflexivity || discriminate).
Qed.

Lemma normalize_fields_names_witness :
  Py.lower (f_name (py "  ", py "title", py "T")) = py "title"
  /\ Py.lower (f_name (py "  ", py "title", py "T")) <> py "key".
Proof.
  apply (normalize_fields_names date_only (py "book") (py "k")
           [(py "  ", py "Key", py "x"); (py "  ", py "TITLE", py " T ")] []).
  vm_compute. left. reflexivity.
Defined.

Section MiscAuthor.

Context {DT : Datetime}.

(** A field called "author", in any case. *)
Definition is_author (f : field) : bool :=
  Py.eqb (Py.lower (f_name f)) (py "author").

Lemma no_author_in (allowed : list pystr) (nf result : list field) :
  str_in (py "author") allowed = false ->
  appends allowed nf result ->
  str_in (py "author") (names_of nf) = false ->
  str_in (py "author") (names_of result) = false.
Proof.
  intros Ha (ext & -> & He) Hn. rewrite names_of_app, str_in_app, Hn. simpl.
  apply str_in_not_In. intros Hin. apply in_map_iff in Hin as (g & Hg & Hin).
  rewrite Forall_forall in He. pose proof (He g Hin) as H.
  rewrite Hg in H. apply str_in_In in H. congruence.
Qed.

(** Before the enrichment of misc entries no field is called "author"
    unless the record, or its parent, has one. *)
Lemma no_author_before_misc (key : pystr) (merged : list field) :
  existsb is_author merged = false ->
  forall nf note,
    fold_left (field_step key) merged ([], None) = (nf, note) ->
    str_in (py "author")
      (names_of (note_url_stage note (bardin_defaults key nf))) = false.
Proof.
  intros Hno nf note E.
  apply (no_author_in (allowed := [py "url"; py "urldate"])
           (nf := bardin_defaults key nf));
    [reflexivity | apply note_url_stage_appends|].
  apply (no_author_in (allowed := [py "publisher"; py "address"]) (nf := nf));
    [reflexivity | apply bardin_defaults_appends|].
  destruct (loop_names key merged [] None) as (e & Ee & He).
  rewrite E in Ee. simpl in Ee. subst e.
  apply str_in_not_In. intros Hin. apply in_map_iff in Hin as (g & Hg & Hin).
  rewrite Forall_forall in He. destruct (He g Hin) as (f & Hf & [Hn|[Hn _]]).
  - rewrite Hg in Hn. simpl in Hn.
    destruct Hn as [Hn|[Hn|[]]]; vm_compute in Hn; discriminate.
  - assert (Hf' : is_author f = false).
    { destruct (is_author f) eqn:Ef; [|reflexivity].
      assert (Hyes : existsb is_author merged = true)
        by (apply existsb_exists; exists f; split; assumption).
      congruence. }
    unfold is_author in Hf'. rewrite <- Hn, Hg, eqb_refl in Hf'. discriminate.
Qed.

(** The enrichment appends the inferred author first. *)
Lemma misc_stage_author (entry_type key author : pystr) (note : option pystr)
    (nf : list field) :
  Py.eqb (Py.lower entry_type) (py "misc") = true ->
  str_in (py "author") (names_of nf) = false ->
  (if Py.contains (Py.lower key) (py "brasil") then Some (py "BRASIL")
   else if Py.startswith (Py.lower key) (py "w3c") then Some (py "W3C")
        else None) = Some author ->
  exists ext,
    misc_stage entry_type key note nf
    = nf ++ (first_indent nf, py "author", author) :: ext.
Proof.
  intros Ht Hn Ha. unfold misc_stage. rewrite Ht, Hn. cbn [negb].
  cbv zeta. rewrite Ha.
  repeat match goal with
         | |- context [match ?b with _ => _ end] => destruct b
         end;
    eexists; unfold append_styled; rewrite <- ?app_assoc; simpl;
    reflexivity.
Qed.

End MiscAuthor.

(** X7. A misc record with no author field (of its own or inherited)
    receives one inferred from its key: "BRASIL" when the key, in lower
    case, contains "brasil", and otherwise "W3C" when it starts with
    "w3c". *)
Theorem misc_author_inferred_from_key :
  forall (DT : Datetime) (entry_type key : pystr) (fields : list field)
         (entries_map : entries_map_t),
    Py.lower entry_type = py "misc" ->
    existsb is_author (merge_crossref fields entries_map) = false ->
    (Py.contains (Py.lower key) (py "brasil") = true ->
     exists i, In (i, py "author", py "BRASIL")
                 (normalize_fields entry_type key fields entries_map))
    /\ (Py.contains (Py.lower key) (py "brasil") = false ->
        Py.startswith (Py.lower key) (py "w3c") = true ->
        exists i, In (i, py "author", py "W3C")
                    (normalize_fields entry_type key fields entries_map)).
Proof.
  intros DT entry_type key fields m Ht Hno.
  assert (Ht' : Py.eqb (Py.lower entry_type) (py "misc") = true)
    by (apply eqb_eq; exact Ht).
  assert (Hgen : forall author,
             (if Py.contains (Py.lower key) (py "brasil") then Some (py "BRASIL")
              else if Py.startswith (Py.lower key) (py "w3c") then Some (py "W3C")
                   else None) = Some author ->
             exists i, In (i, py "author", author)
                         (normalize_fields entry_type key fields m)).
  { intros author Ha. unfold normalize_fields.
    destruct (fold_left (field_step key) (merge_crossref fields m) ([], None))
      as [nf note] eqn:E.
    pose proof (no_author_before_misc key _ Hno E) as Hn.
    destruct (misc_stage_author entry_type key note _ Ht' Hn Ha) as (ext & ->).
    destruct (language_stage_extends
                (note_url_stage note (bardin_defaults key nf)
                 ++ (first_indent (note_url_stage note (bardin_defaults key nf)),
                     py "author", author) :: ext)) as (e4 & -> & _).
    eexists. apply in_or_app. left. apply in_or_app. right. left. reflexivity. }
  split.
  - intros Hb. apply Hgen. rewrite Hb. reflexivity.
  - intros Hb Hw. apply Hgen. rewrite Hb, Hw. reflexivity.
Qed.

Lemma misc_author_inferred_from_key_witness :
  exists i, In (i, py "author", py "BRASIL")
              (normalize_fields (py "Misc") (py "Brasil_Lei_123")
                 [(py "  ", py "title", py "Lei 123")] []).
Proof.
  apply (proj1 (misc_author_inferred_from_key date_only (py "Misc")
                  (py "Brasil_Lei_123") [(py "  ", py "title", py "Lei 123")] []
                  eq_refl eq_refl)).
  vm_compute. reflexivity.
Defined.

(** *** The splitter *)

Lemma lstrip_by_app (p : Py.char -> bool) (l t : pystr) (c : Py.char) (r : pystr) :
  Py.lstrip_by p l = c :: r -> Py.lstrip_by p (l ++ t) = c :: r ++ t.
Proof.
  induction l as [|x l IH]; simpl; [discriminate|].
  destruct (p x); [exact IH|].
  intros E. injection E as -> ->. reflexivity.
Qed.

Lemma lstrip_by_snoc (p : Py.char -> bool) (l : pystr) (c : Py.char) :
  p c = false -> exists l', Py.lstrip_by p (l ++ [c]) = l' ++ [c].
Proof.
  intros Hc. induction l as [|x l IH]; simpl.
  - rewrite Hc. exists []. reflexivity.
  - destruct (p x); [exact IH|]. exists (x :: l). reflexivity.
Qed.

Lemma rstrip_by_head (p : Py.char -> bool) (c : Py.char) (x : pystr) :
  p c = false -> exists y, Py.rstrip_by p (c :: x) = c :: y.
Proof.
  intros Hc. unfold Py.rstrip_by. simpl.
  destruct (@lstrip_by_snoc p (rev x) c Hc) as (l' & ->).
  exists (rev l'). rewrite rev_app_distr. reflexivity.
Qed.

Lemma starts_with_at (s : pystr) :
  Py.startswith s (py "@") = true -> exists r, s = 64%N :: r.
Proof.
  change (py "@") with [64%N]. unfold Py.startswith.
  destruct s as [|c r]; [discriminate|]. cbn [Py.drop_prefix].
  destruct (N.eqb_spec 64 c); [|discriminate].
  intros _. subst c. exists r. reflexivity.
Qed.

(** A block closed on lines of which the first starts, after blanks,
    with "@" starts with "@". *)
Lemma close_entry_starts (l0 : pystr) (more : list pystr) :
  Py.startswith (Py.lstrip l0) (py "@") = true ->
  Py.startswith (close_entry (l0 :: more)) (py "@") = true.
Proof.
  intros H. apply starts_with_at in H as (r & Hr).
  unfold close_entry.
  assert (Hj : exists t, Py.join (py "
") (l0 :: more) = l0 ++ t).
  { destruct more as [|l1 more]; simpl.
    - exists []. symmetry. apply app_nil_r.
    - eexists. reflexivity. }
  destruct Hj as (t & ->).
  unfold Py.strip, Py.strip_by. unfold Py.lstrip in Hr.
  rewrite (@lstrip_by_app Py.isspace l0 t 64%N r Hr).
  destruct (@rstrip_by_head Py.isspace 64%N (r ++ t) eq_refl) as (y & Hy).
  unfold pystr, Py.str, Py.char in *. rewrite Hy. reflexivity.
Qed.

(** What the loop of [split_entries] keeps true. *)
Definition split_inv (st : split_state) : Prop :=
  Forall (fun b => Py.startswith b (py "@") = true) (sp_entries st)
  /\ match sp_current st with
     | [] => True
     | l0 :: _ => Py.startswith (Py.lstrip l0) (py "@") = true
     end.

Lemma split_step_inv (st : split_state) (line : pystr) :
  split_inv st -> sp_in_entry st = false \/ sp_current st <> [] ->
  split_inv (split_step st line)
  /\ (sp_in_entry (split_step st line) = false
      \/ sp_current (split_step st line) <> []).
Proof.
  intros [He Hc] Hin. unfold split_step.
  destruct (sp_in_entry st) eqn:Ei; simpl.
  - destruct Hin as [Hin|Hin]; [discriminate|].
    destruct (sp_current st) as [|l0 more] eqn:Ec; [contradiction|].
    destruct (_ <=? 0)%Z; simpl.
    + split; [|left; reflexivity]. split; [|exact I].
      apply Forall_app. split; [exact He|].
      constructor; [|constructor].
      apply (@close_entry_starts l0 (more ++ [line]) Hc).
    + split; [|right; discriminate]. split; assumption.
  - destruct (Py.startswith (Py.lstrip line) (py "@")) eqn:Es; simpl.
    + split; [|right; discriminate]. split; assumption.
    + rewrite Ei. split; [split; assumption | left; reflexivity].
Qed.

Lemma split_fold_inv (lines : list pystr) :
  forall st,
    split_inv st -> sp_in_entry st = false \/ sp_current st <> [] ->
    split_inv (fold_left split_step lines st).
Proof.
  induction lines as [|line lines IH]; intros st Hi Hc; simpl; [exact Hi|].
  destruct (@split_step_inv st line Hi Hc) as [Hi' Hc']. apply IH; assumption.
Qed.

(** X8. Every block the splitter returns starts with "@"; and a text of
    which no line starts, after blanks, with "@" gives no block. *)
Theorem split_entries_blocks :
  forall text : pystr,
    (forall b, In b (split_entries text) -> Py.startswith b (py "@") = true)
    /\ ((forall line, In line (Py.splitlines text) ->
                      Py.startswith (Py.lstrip line) (py "@") = false) ->
        split_entries text = []).
Proof.
  intros text. split.
  - assert (Hi : split_inv (fold_left split_step (Py.splitlines text)
                              (mkSplit [] [] 0 false))).
    { apply split_fold_inv; [split; [constructor | exact I] | left; reflexivity]. }
    unfold split_entries. destruct Hi as [He Hc].
    destruct (sp_current _) as [|l0 more] eqn:Ec.
    + intros b Hb. rewrite Forall_forall in He. apply He. exact Hb.
    + intros b Hb. apply in_app_or in Hb as [Hb|[<-|[]]].
      * rewrite Forall_forall in He. apply He. exact Hb.
      * apply close_entry_starts. exact Hc.
  - intros Hl. unfold split_entries.
    assert (Hf : fold_left split_step (Py.splitlines text) (mkSplit [] [] 0 false)
                 = mkSplit [] [] 0 false).
    { induction (Py.splitlines text) as [|line lines IH]; [reflexivity|].
      simpl. unfold split_step at 2. simpl.
      rewrite (Hl line (or_introl eq_refl)). apply IH.
      intros l Hin. apply Hl. right. exact Hin. }
    rewrite Hf. reflexivity.
Qed.

Lemma split_entries_blocks_witness :
  Py.startswith (py "@misc{a,
  title = {T},
}") (py "@") = true
  /\ split_entries (py "no entry here
 % nor here") = [].
Proof.
  split.
  - apply (proj1 (split_entries_blocks (py "junk
  @misc{a,
  title = {T},
}
trailing"))).
    vm_compute. left. reflexivity.
  - apply (proj2 (split_entries_blocks (py "no entry here
 % nor here"))).
    intros line Hin. vm_compute in Hin.
    destruct Hin as [<-|[<-|[]]]; vm_compute; reflexivity.
Defined.

(** *** Regular expressions: matches the engine is bound to find *)

Module ReRun.

Section Run.

Variable A : Type.
Variable ic : bool.

(** The character before the position reached after the text [w]. *)
Fixpoint lastp (p : option Py.char) (w : pystr) : option Py.char :=
  match w with
  | [] => p
  | c :: w' => lastp (Some c) w'
  end.

(** A repetition facing a character its atom refuses takes nothing. *)
Lemma rep_skip (a : atom) (mx : option nat)
    (k : option Py.char -> pystr -> option A) (p : option Py.char)
    (c : Py.char) (t : pystr) (x : A) :
  atom_match ic a c = false ->
  k p (c :: t) = Some x ->
  rep_match ic a 0 mx k p (c :: t) = Some x.
Proof.
  intros Ha Hk. simpl. rewrite Ha. destruct mx as [[|n]|]; exact Hk.
Qed.

(** The same, for a text given as [w ++ t] with [w] not empty. *)
Lemma rep_skip_app (a : atom) (mx : option nat)
    (k : option Py.char -> pystr -> option A) (p : option Py.char)
    (w t : pystr) (x : A) :
  match w with [] => False | c :: _ => atom_match ic a c = false end ->
  k p (w ++ t) = Some x ->
  rep_match ic a 0 mx k p (w ++ t) = Some x.
Proof.
  destruct w as [|c w]; [contradiction|]. apply rep_skip.
Qed.

(** At the end of the text too. *)
Lemma rep_end (a : atom) (mx : option nat)
    (k : option Py.char -> pystr -> option A) (p : option Py.char) (x : A) :
  k p [] = Some x -> rep_match ic a 0 mx k p [] = Some x.
Proof.
  intros Hk. simpl. destruct mx as [[|n]|]; exact Hk.
Qed.

(** A greedy repetition goes through every character its atom accepts:
    if the rest of the pattern succeeds from beyond the run [w], so does
    the whole. *)
Lemma rep_deep (a : atom) (k : option Py.char -> pystr -> option A)
    (t : pystr) (x : A) :
  forall (w : pystr) (mn : nat) (p : option Py.char),
    Forall (fun c => atom_match ic a c = true) w ->
    rep_match ic a (mn - List.length w) None k (lastp p w) t = Some x ->
    rep_match ic a mn None k p (w ++ t) = Some x.
Proof.
  induction w as [|c w IH]; intros mn p Hw H.
  - simpl in H. rewrite Nat.sub_0_r in H. exact H.
  - inversion Hw as [|? ? Hc Hw']; subst.
    cbn [app rep_match option_map]. rewrite Hc.
    rewrite (IH (Nat.pred mn) (Some c) Hw'); [reflexivity|].
    replace (Nat.pred mn - List.length w) with (mn - List.length (c :: w))
      by (simpl; lia).
    exact H.
Qed.

(** A run of accepted characters followed by a refused one, or by the
    end: the repetition takes the run. *)
Lemma rep_run (a : atom) (k : option Py.char -> pystr -> option A)
    (w t : pystr) (mn : nat) (p : option Py.char) (x : A) :
  Forall (fun c => atom_match ic a c = true) w ->
  mn <= List.length w ->
  match t with [] => True | c :: _ => atom_match ic a c = false end ->
  k (lastp p w) t = Some x ->
  rep_match ic a mn None k p (w ++ t) = Some x.
Proof.
  intros Hw Hmn Ht Hk. apply rep_deep; [exact Hw|].
  replace (mn - List.length w) with 0 by lia.
  destruct t as [|c t]; [apply rep_end | apply rep_skip]; assumption.
Qed.

End Run.

End ReRun.

Lemma lit_self (ic : bool) (c : Py.char) : atom_match ic (Lit c) c = true.
Proof.
  unfold atom_match, char_eq. destruct ic; [|apply N.eqb_refl].
  destruct (Py.re_cased c); [|apply N.eqb_refl].
  cbv zeta. rewrite N.eqb_refl. reflexivity.
Qed.

Lemma letter_not_ws (c : Py.char) :
  atom_match false letter c = true -> atom_match false ws c = false.
Proof.
  intros H. apply letter_no_linebreak in H as Hl.
  revert H. let r := eval vm_compute in letter in change letter with r.
  unfold ws, atom_match, item_match, existsb, Py.in_range. intros H.
  rewrite ?andb_false_r, ?orb_false_r in *. ranges H.
  destruct (Py.isspace c) eqn:E; [|reflexivity].
  unfold Py.isspace, Py.in_range in E. ranges E. lia.
Qed.

Lemma key_char_not_ws (c : Py.char) :
  atom_match false key_char c = true -> atom_match false ws c = false.
Proof.
  let r := eval vm_compute in key_char in change key_char with r.
  unfold ws, atom_match, item_match, existsb, char_eq. intros H.
  rewrite orb_false_r in *. apply negb_true_iff in H.
  apply orb_false_iff in H as [_ H]. exact H.
Qed.

(** The header line "@type{key,". *)
Definition header_of (t k : pystr) : pystr :=
  64%N :: t ++ 123%N :: k ++ [44%N].

Lemma entry_start_matches (t k : pystr) :
  t <> [] -> k <> [] ->
  Forall (fun c => atom_match false letter c = true) t ->
  Forall (fun c => atom_match false key_char c = true) k ->
  exists m, match_ false ENTRY_START_RE (header_of t k) = Some m
            /\ m_caps m = [(2, k); (1, t)].
Proof.
  intros Ht Hk Ft Fk.
  assert (Hk0 : match k with
                | [] => False
                | c :: _ => atom_match false (OneOf [Ws]) c = false
                end).
  { destruct k as [|k0 k']; [contradiction|].
    apply key_char_not_ws. inversion Fk; assumption. }
  assert (Lt : 1 <= List.length t) by (destruct t; [contradiction | simpl; lia]).
  assert (Lk : 1 <= List.length k) by (destruct k; [contradiction | simpl; lia]).
  eexists. split.
  - unfold match_, match_here, header_of.
    let r := eval vm_compute in ENTRY_START_RE in
      change ENTRY_START_RE with r.
    let r := eval vm_compute in letter in change letter with r in Ft.
    let r := eval vm_compute in key_char in change key_char with r in Fk.
    cbn [rmatch prev rest caps].
    apply ReRun.rep_skip; [vm_compute; reflexivity|].
    cbv beta iota. rewrite lit_self.
    apply ReRun.rep_run; [exact Ft | exact Lt | vm_compute; reflexivity|].
    cbv beta iota.
    apply ReRun.rep_skip; [vm_compute; reflexivity|].
    cbv beta iota. rewrite lit_self.
    apply ReRun.rep_skip_app; [exact Hk0|].
    cbv beta iota.
    apply ReRun.rep_run; [exact Fk | exact Lk | vm_compute; reflexivity|].
    cbv beta iota.
    apply ReRun.rep_skip; [vm_compute; reflexivity|].
    cbv beta iota. rewrite lit_self.
    apply ReRun.rep_end. cbv beta iota. reflexivity.
  - cbn [m_caps].
    rewrite (@ReSem.consumed_app _ _ k) by reflexivity.
    rewrite (@ReSem.consumed_app _ _ t) by reflexivity.
    reflexivity.
Qed.

(** Evaluation of the atoms of a pattern on the literal characters of a
    line. *)
Ltac eval_atoms :=
  repeat match goal with
    | |- context [atom_match ?ic ?a (N.pos ?c)] =>
        let r := eval vm_compute in (atom_match ic a (N.pos c)) in
        change (atom_match ic a (N.pos c)) with r
    end.

Ltac run_matcher :=
  repeat (progress (cbn [rep_match rmatch prev rest caps option_map Nat.pred];
                    eval_atoms; cbv beta iota)).

Definition name_char : atom :=
  OneOf [Rng (chr "A") (chr "Z"); Rng (chr "a") (chr "z");
         Rng (chr "0") (chr "9"); Ch (chr "_"); Ch (chr "-")].

(** The line "indent name = {value},". *)
Definition line_of (i n v : pystr) : pystr :=
  i ++ n ++ 32%N :: 61%N :: 32%N :: 123%N :: v ++ [125%N; 44%N].

Lemma field_matches (i nr v : pystr) (n0 : Py.char) :
  Forall (fun c => atom_match false ws c = true) i ->
  atom_match false letter n0 = true ->
  Forall (fun c => atom_match false name_char c = true) nr ->
  Forall (fun c => atom_match false Dot c = true) v ->
  exists m, match_ false FIELD_RE (line_of i (n0 :: nr) v) = Some m
            /\ m_caps m = [(3, v); (2, n0 :: nr); (1, i)].
Proof.
  intros Fi Hn0 Fn Fv.
  assert (Hn0' : atom_match false (OneOf [Ws]) n0 = false)
    by (apply letter_not_ws; exact Hn0).
  eexists. split.
  - unfold match_, match_here, line_of.
    let r := eval vm_compute in FIELD_RE in change FIELD_RE with r.
    let r := eval vm_compute in letter in change letter with r in Hn0.
    let r := eval vm_compute in name_char in change name_char with r in Fn.
    change ws with (OneOf [Ws]) in Fi.
    cbn [rmatch prev rest caps].
    apply (@ReRun.rep_run _ false _ _ i); [exact Fi | apply Nat.le_0_l | exact Hn0'|].
    cbv beta iota. cbn [app]. rewrite Hn0.
    apply (@ReRun.rep_run _ false _ _ nr);
      [exact Fn | apply Nat.le_0_l | vm_compute; reflexivity|].
    cbv beta iota.
    apply (@ReRun.rep_run _ false _ _ [32%N]);
      [repeat constructor | apply Nat.le_0_l | vm_compute; reflexivity|].
    cbv beta iota. rewrite lit_self.
    apply (@ReRun.rep_run _ false _ _ [32%N]);
      [repeat constructor | apply Nat.le_0_l | vm_compute; reflexivity|].
    cbv beta iota. rewrite lit_self.
    apply (@ReRun.rep_deep _ false _ _ _ _ v); [exact Fv|].
    cbn [Nat.sub].
    run_matcher. reflexivity.
  - cbn [m_caps]. repeat f_equal; apply ReSem.consumed_app; reflexivity.
Qed.

(** *** Parsing what the serializer writes *)

(** Records as the parser reads them: a type made of letters, a key
    without comma or white space, fields with a blank indent, a name made
    of a letter and then letters, digits, "_" or "-", and a value on one
    line. *)
Definition plain (s : pystr) : bool :=
  forallb (fun c => negb (Py.is_linebreak c)) s.

Definition wf_type (t : pystr) : bool :=
  nonempty t && forallb (atom_match false letter) t.

Definition wf_key (k : pystr) : bool :=
  nonempty k && forallb (atom_match false key_char) k.

Definition wf_name (n : pystr) : bool :=
  match n with
  | [] => false
  | c :: r => atom_match false letter c && forallb (atom_match false name_char) r
  end.

Definition wf_field (f : field) : bool :=
  let '(i, n, v) := f in
  forallb (fun c => Py.isspace c && negb (Py.is_linebreak c)) i
  && wf_name n && plain v.

(** A line the parser keeps among the unknown lines. *)
Definition unknown_line (l : pystr) : bool :=
  plain l
  && (negb (nonempty (Py.rstrip l))
      || match match_ false FIELD_RE (Py.rstrip l) with
         | Some _ => false
         | None => true
         end).

Lemma name_char_no_linebreak (c : Py.char) :
  atom_match false name_char c = true -> Py.is_linebreak c = false.
Proof.
  let r := eval vm_compute in name_char in change name_char with r.
  unfold atom_match, item_match, existsb, char_eq, Py.in_range. intros H.
  rewrite ?andb_false_r, ?orb_false_r in H. ranges H.
  destruct (Py.is_linebreak c) eqn:E; [|reflexivity].
  unfold Py.is_linebreak, Py.in_range in E. ranges E. lia.
Qed.

Lemma plain_app (a b : pystr) : plain (a ++ b) = plain a && plain b.
Proof. apply forallb_app. Qed.

Lemma plain_of (P : Py.char -> bool) (s : pystr) :
  (forall c, P c = true -> Py.is_linebreak c = false) ->
  forallb P s = true -> plain s = true.
Proof.
  intros HP H. unfold plain. rewrite forallb_forall in *.
  intros c Hc. rewrite (HP c (H c Hc)). reflexivity.
Qed.

Lemma rstrip_by_keep (p : Py.char -> bool) (s : pystr) (c : Py.char) :
  p c = false -> Py.rstrip_by p (s ++ [c]) = s ++ [c].
Proof.
  intros Hc. unfold Py.rstrip_by. rewrite rev_app_distr. simpl.
  rewrite Hc. simpl. rewrite rev_involutive. reflexivity.
Qed.

(** The lines of a text made of plain lines joined by new lines, the
    last line not empty. *)
Lemma splitlines_from_line (w rest : pystr) :
  plain w = true ->
  forall cur,
    Py.splitlines_from cur (w ++ 10%N :: rest)
    = (rev cur ++ w) :: Py.splitlines_from [] rest.
Proof.
  induction w as [|c w IH]; intros Hw cur; simpl.
  - rewrite app_nil_r. destruct rest as [|d rest]; reflexivity.
  - simpl in Hw. apply andb_true_iff in Hw as [Hc Hw].
    apply negb_true_iff in Hc. rewrite Hc, (IH Hw (c :: cur)). simpl.
    rewrite <- app_assoc. reflexivity.
Qed.

Lemma splitlines_from_last (w : pystr) :
  plain w = true ->
  forall cur,
    Py.splitlines_from cur w
    = match rev cur ++ w with [] => [] | _ => [rev cur ++ w] end.
Proof.
  induction w as [|c w IH]; intros Hw cur; simpl.
  - rewrite app_nil_r. destruct cur as [|d cur]; [reflexivity|].
    simpl. destruct (rev cur ++ [d]) eqn:E; [|reflexivity].
    apply app_eq_nil in E as [_ E]. discriminate.
  - simpl in Hw. apply andb_true_iff in Hw as [Hc Hw].
    apply negb_true_iff in Hc. rewrite Hc, (IH Hw (c :: cur)). simpl.
    rewrite <- app_assoc. reflexivity.
Qed.

Lemma splitlines_join (body : list pystr) (lst : pystr) :
  forallb plain body = true -> plain lst = true -> lst <> [] ->
  Py.splitlines (Py.join [10%N] (body ++ [lst])) = body ++ [lst].
Proof.
  intros Hb Hl Hne. unfold Py.splitlines.
  induction body as [|l body IH].
  - simpl. rewrite (@splitlines_from_last lst Hl []). simpl.
    destruct lst; [contradiction | reflexivity].
  - simpl in Hb. apply andb_true_iff in Hb as [Hp Hb].
    assert (Hj : Py.join [10%N] ((l :: body) ++ [lst])
                 = l ++ 10%N :: Py.join [10%N] (body ++ [lst])).
    { simpl. destruct (body ++ [lst]) eqn:E; [|reflexivity].
      apply app_eq_nil in E as [_ E]. discriminate. }
    rewrite Hj, (@splitlines_from_line l _ Hp []). simpl. rewrite (IH Hb).
    reflexivity.
Qed.

Lemma field_line_of (i n v : pystr) : field_line (i, n, v) = line_of i n v.
Proof. reflexivity. Qed.

Lemma line_of_rstrip (i n v : pystr) : Py.rstrip (line_of i n v) = line_of i n v.
Proof.
  assert (E : line_of i n v
              = (i ++ n ++ 32%N :: 61%N :: 32%N :: 123%N :: v ++ [125%N])
                ++ [44%N]).
  { unfold line_of. rewrite <- !app_assoc. simpl. rewrite <- app_assoc.
    reflexivity. }
  rewrite E. apply rstrip_by_keep. reflexivity.
Qed.

Lemma line_of_plain (i n v : pystr) :
  wf_field (i, n, v) = true -> plain (line_of i n v) = true.
Proof.
  unfold wf_field, wf_name. intros H.
  apply andb_true_iff in H as [H Hv]. apply andb_true_iff in H as [Hi Hn].
  destruct n as [|n0 nr]; [discriminate|].
  apply andb_true_iff in Hn as [Hn0 Hnr].
  unfold line_of. rewrite !plain_app. cbn [plain forallb].
  rewrite !plain_app.
  rewrite (plain_of (fun c => Py.isspace c && negb (Py.is_linebreak c)) i);
    [|intros c Hc; apply andb_true_iff in Hc as [_ Hc];
      apply negb_true_iff; exact Hc | exact Hi].
  rewrite (letter_no_linebreak _ Hn0).
  pose proof (plain_of _ nr name_char_no_linebreak Hnr) as Hp.
  unfold plain in Hp. rewrite Hp, Hv. reflexivity.
Qed.

(** A line the serializer writes for a field is read back as that
    field. *)
Lemma parse_line_field (f : field) (fields : list field) (unknown : list pystr) :
  wf_field f = true ->
  parse_line (fields, unknown) (field_line f) = (fields ++ [f], unknown).
Proof.
  destruct f as [[i n] v]. intros H. pose proof H as Hwf.
  unfold wf_field, wf_name in H.
  apply andb_true_iff in H as [H Hv]. apply andb_true_iff in H as [Hi Hn].
  destruct n as [|n0 nr]; [discriminate|].
  apply andb_true_iff in Hn as [Hn0 Hnr].
  assert (Fi : Forall (fun c => atom_match false ws c = true) i).
  { apply Forall_forall. intros c Hc. rewrite forallb_forall in Hi.
    pose proof (Hi c Hc) as Hs. apply andb_true_iff in Hs as [Hs _].
    unfold ws, atom_match, item_match, existsb. rewrite Hs. reflexivity. }
  assert (Fn : Forall (fun c => atom_match false name_char c = true) nr).
  { apply Forall_forall. rewrite forallb_forall in Hnr. exact Hnr. }
  assert (Fv : Forall (fun c => atom_match false Dot c = true) v).
  { apply Forall_forall. intros c Hc. unfold plain in Hv.
    rewrite forallb_forall in Hv. pose proof (Hv c Hc) as Hl.
    apply negb_true_iff in Hl. unfold atom_match.
    destruct (N.eqb_spec c 10); [subst c; discriminate | reflexivity]. }
  destruct (@field_matches i nr v n0 Fi Hn0 Fn Fv) as (m & Hm & Hc).
  unfold parse_line. rewrite field_line_of, line_of_rstrip, Hm.
  assert (Hne : nonempty (line_of i (n0 :: nr) v) = true)
    by (unfold line_of; destruct i; reflexivity).
  rewrite Hne. unfold group_or_empty. rewrite Hc. reflexivity.
Qed.

Lemma parse_fold_fields (fs : list field) :
  forallb wf_field fs = true ->
  forall fields unknown,
    fold_left parse_line (map field_line fs) (fields, unknown)
    = (fields ++ fs, unknown).
Proof.
  induction fs as [|f fs IH]; intros H fields unknown; cbn [map fold_left].
  - rewrite app_nil_r. reflexivity.
  - cbn [forallb] in H. apply andb_true_iff in H as [Hf H].
    rewrite (@parse_line_field f fields unknown Hf), (IH H), <- app_assoc.
    reflexivity.
Qed.

Lemma parse_fold_unknown (ls : list pystr) :
  forallb unknown_line ls = true ->
  forall fields unknown,
    fold_left parse_line ls (fields, unknown) = (fields, unknown ++ ls).
Proof.
  induction ls as [|l ls IH]; intros H fields unknown; cbn [fold_left].
  - rewrite app_nil_r. reflexivity.
  - cbn [forallb] in H. apply andb_true_iff in H as [Hl H].
    unfold unknown_line in Hl. apply andb_true_iff in Hl as [_ Hl].
    assert (E : parse_line (fields, unknown) l = (fields, unknown ++ [l])).
    { unfold parse_line. destruct (nonempty (Py.rstrip l)); [|reflexivity].
      simpl in Hl. destruct (match_ false FIELD_RE (Py.rstrip l));
        [discriminate | reflexivity]. }
    rewrite E, (IH H), <- app_assoc. reflexivity.
Qed.

Lemma header_line_of (t k : pystr) : header_line t k = header_of t k.
Proof. reflexivity. Qed.

Lemma header_of_rstrip (t k : pystr) : Py.rstrip (header_of t k) = header_of t k.
Proof.
  assert (E : header_of t k = (64%N :: t ++ 123%N :: k) ++ [44%N]).
  { unfold header_of. simpl. rewrite <- app_assoc. reflexivity. }
  rewrite E. apply rstrip_by_keep. reflexivity.
Qed.

Lemma header_of_plain (t k : pystr) :
  wf_type t = true -> wf_key k = true -> plain (header_of t k) = true.
Proof.
  unfold wf_type, wf_key. intros Ht Hk.
  apply andb_true_iff in Ht as [_ Ht]. apply andb_true_iff in Hk as [_ Hk].
  pose proof (plain_of _ t letter_no_linebreak Ht) as Pt.
  pose proof (plain_of _ k key_char_no_linebreak Hk) as Pk.
  unfold header_of.
  change (64%N :: t ++ 123%N :: k ++ [44%N])
    with ([64%N] ++ t ++ [123%N] ++ k ++ [44%N]).
  rewrite !plain_app, Pt, Pk. reflexivity.
Qed.

Lemma field_lines_plain (fs : list field) :
  forallb wf_field fs = true -> forallb plain (map field_line fs) = true.
Proof.
  induction fs as [|[[i n] v] fs IH]; intros H; cbn [map forallb] in *.
  - reflexivity.
  - apply andb_true_iff in H as [Hf H].
    rewrite field_line_of, (line_of_plain _ _ _ Hf), (IH H). reflexivity.
Qed.

Lemma unknown_lines_plain (ls : list pystr) :
  forallb unknown_line ls = true -> forallb plain ls = true.
Proof.
  intros H. rewrite forallb_forall in *. intros l Hl.
  pose proof (H l Hl) as Hu. unfold unknown_line in Hu.
  apply andb_true_iff in Hu as [Hu _]. exact Hu.
Qed.

(** X9.  Reading back what the serializer writes: for a record whose type
    is a non-empty run of ASCII letters, whose key is non-empty and free
    of commas and white space, whose fields have an indent of white space
    without line breaks, a name of the shape the field pattern reads (a
    letter, then letters, digits, underscores and hyphens) and a value
    without line breaks, and whose other lines hold no line break and are
    not read as fields, [parse_entry] applied to the text [build_entry]
    writes returns the type, the key, the fields and the other lines the
    text was written from, whatever the indent style passed. *)
Theorem parse_entry_of_build_entry
    (t k : pystr) (fs : list field) (unknown : list pystr) (ind : pystr) :
  wf_type t = true -> wf_key k = true ->
  forallb wf_field fs = true -> forallb unknown_line unknown = true ->
  parse_entry (build_entry t k fs unknown ind) = Some (t, k, fs, unknown).
Proof.
  intros Ht Hk Hfs Hun.
  assert (Hlines : Py.splitlines (build_entry t k fs unknown ind)
                   = header_of t k
                     :: (map field_line fs ++ unknown) ++ [[125%N]]).
  { unfold build_entry.
    match goal with
    | |- context [Py.join ?s _] => change s with [10%N]
    end.
    change (py "}") with [125%N]. rewrite header_line_of.
    change ([header_of t k] ++ map field_line fs ++ unknown ++ [[125%N]])
      with (header_of t k :: map field_line fs ++ unknown ++ [[125%N]]).
    rewrite (app_assoc (map field_line fs) unknown [[125%N]]).
    change (header_of t k :: (map field_line fs ++ unknown) ++ [[125%N]])
      with ((header_of t k :: map field_line fs ++ unknown) ++ [[125%N]]).
    apply splitlines_join.
    - cbn [forallb]. rewrite (header_of_plain _ _ Ht Hk), forallb_app.
      rewrite (field_lines_plain _ Hfs), (unknown_lines_plain _ Hun).
      reflexivity.
    - reflexivity.
    - discriminate. }
  assert (Ft : Forall (fun c => atom_match false letter c = true) t).
  { unfold wf_type in Ht. apply andb_true_iff in Ht as [_ Ht].
    apply Forall_forall. rewrite forallb_forall in Ht. exact Ht. }
  assert (Fk : Forall (fun c => atom_match false key_char c = true) k).
  { unfold wf_key in Hk. apply andb_true_iff in Hk as [_ Hk].
    apply Forall_forall. rewrite forallb_forall in Hk. exact Hk. }
  assert (Nt : t <> []).
  { intros ->. discriminate Ht. }
  assert (Nk : k <> []).
  { intros ->. discriminate Hk. }
  destruct (@entry_start_matches t k Nt Nk Ft Fk) as (m & Hm & Hc).
  unfold parse_entry. rewrite Hlines, header_of_rstrip, Hm.
  rewrite removelast_last, fold_left_app.
  rewrite (@parse_fold_fields fs Hfs [] []).
  rewrite (@parse_fold_unknown unknown Hun ([] ++ fs) []).
  unfold group_or_empty. rewrite Hc. reflexivity.
Qed.

Lemma parse_entry_of_build_entry_witness :
  parse_entry
    (build_entry (py "article") (py "silva2020")
       [(py "  ", py "title", py "Um titulo");
        (py "  ", py "year", py "2020")]
       [py "% revisar"] (py "  "))
  = Some (py "article", py "silva2020",
          [(py "  ", py "title", py "Um titulo");
           (py "  ", py "year", py "2020")],
          [py "% revisar"]).
Proof.
  apply parse_entry_of_build_entry; vm_compute; reflexivity.
Defined.

(** *** What the enrichment stages guarantee *)

Lemma has_name_app (n : pystr) (a b : list field) :
  has_name n (a ++ b) = has_name n a || has_name n b.
Proof. unfold has_name. rewrite names_of_app. apply str_in_app. Qed.

Lemma has_name_append_styled (n m v : pystr) (nf : list field) :
  has_name n (append_styled nf m v) = has_name n nf || Py.eqb n m.
Proof.
  unfold append_styled. rewrite has_name_app. unfold has_name at 2.
  simpl. rewrite orb_false_r. reflexivity.
Qed.

Lemma has_name_kept (n : pystr) (a b : list field) :
  has_name n a = true -> has_name n (a ++ b) = true.
Proof. intros H. rewrite has_name_app, H. reflexivity. Qed.

Section Enrichment.

Context {DT : Datetime}.

Lemma bardin_defaults_complete (key : pystr) (nf : list field) :
  Py.lower key = py "bardin2016" ->
  has_name (py "publisher") (bardin_defaults key nf) = true
  /\ has_name (py "address") (bardin_defaults key nf) = true.
Proof.
  intros Hk. unfold bardin_defaults. rewrite Hk, eqb_refl. cbv zeta.
  change (str_in (py "publisher") (names_of nf))
    with (has_name (py "publisher") nf).
  change (str_in (py "address") (names_of nf))
    with (has_name (py "address") nf).
  destruct (has_name (py "publisher") nf) eqn:Ep;
    destruct (has_name (py "address") nf) eqn:Ea; cbn [negb];
    rewrite ?has_name_append_styled, ?Ep, ?Ea; split; reflexivity.
Qed.

Lemma misc_stage_online (entry_type key : pystr) (note : option pystr)
    (nf : list field) :
  Py.lower entry_type = py "misc" ->
  has_name (py "url") (misc_stage entry_type key note nf) = true ->
  has_name (py "howpublished") (misc_stage entry_type key note nf) = true.
Proof.
  intros Ht. unfold misc_stage. rewrite Ht, eqb_refl. cbv zeta.
  match goal with
  | |- context [if has_name (py "url") ?X && _ then _ else _] => generalize X
  end.
  intros nf'.
  destruct (has_name (py "url") nf') eqn:Eu;
    destruct (has_name (py "howpublished") nf') eqn:Eh; cbn [negb andb];
    rewrite ?has_name_append_styled, ?Eu, ?Eh; intros H;
    try reflexivity; exact H.
Qed.

Lemma language_stage_names (n : pystr) (nf : list field) :
  n <> py "language" ->
  has_name n (language_stage nf) = has_name n nf.
Proof.
  intros Hn. apply eqb_neq in Hn. unfold language_stage.
  destruct (negb (has_name (py "language") nf)); [|reflexivity].
  destruct (existsb is_pt_field nf); [|reflexivity].
  rewrite has_name_append_styled, Hn, orb_false_r. reflexivity.
Qed.

(** The fingerprint of fields among which none is a doi, a url or a
    title is the empty one. *)
Lemma fingerprint_untouched (fields : list field) :
  Forall (fun f => str_in (Py.lower (f_name f))
                     [py "doi"; py "url"; py "title"] = false) fields ->
  forall fp, fold_left fingerprint_step fields fp = fp.
Proof.
  induction 1 as [|f fs Hf _ IH]; intros fp; cbn [fold_left].
  - reflexivity.
  - assert (E : fingerprint_step fp f = fp).
    { destruct fp as [[doi url] title]. destruct f as [[i n] v].
      cbv [f_name fst snd] in Hf. rewrite !str_in_cons in Hf.
      apply orb_false_iff in Hf as [Hd Hf].
      apply orb_false_iff in Hf as [Hu Hf].
      apply orb_false_iff in Hf as [Ht _].
      unfold fingerprint_step. rewrite Hd, Hu, Ht. reflexivity. }
    rewrite E. apply IH.
Qed.

End Enrichment.

(** X10.  The record bardin2016 (key compared in lower case) always
    leaves normalization with a publisher field and an address field,
    whatever its type and fields. *)
Theorem bardin_gets_publisher_and_address :
  forall (DT : Datetime) (entry_type key : pystr) (fields : list field)
         (entries_map : entries_map_t),
    Py.lower key = py "bardin2016" ->
    has_name (py "publisher")
      (normalize_fields entry_type key fields entries_map) = true
    /\ has_name (py "address")
         (normalize_fields entry_type key fields entries_map) = true.
Proof.
  intros DT entry_type key fields m Hk. unfold normalize_fields.
  destruct (fold_left (field_step key) (merge_crossref fields m) ([], None))
    as [nf note].
  destruct (@bardin_defaults_complete key nf Hk) as [Hp Ha].
  destruct (note_url_stage_extends note (bardin_defaults key nf))
    as (e2 & -> & _).
  destruct (misc_stage_extends entry_type key note (bardin_defaults key nf ++ e2))
    as (e3 & -> & _).
  destruct (language_stage_extends ((bardin_defaults key nf ++ e2) ++ e3))
    as (e4 & -> & _).
  split; repeat apply has_name_kept; assumption.
Qed.

Lemma bardin_gets_publisher_and_address_witness :
  has_name (py "publisher")
    (normalize_fields (py "book") (py "Bardin2016")
       [(py "  ", py "title", py "Analise de conteudo")] []) = true
  /\ has_name (py "address")
       (normalize_fields (py "book") (py "Bardin2016")
          [(py "  ", py "title", py "Analise de conteudo")] []) = true.
Proof.
  apply (bardin_gets_publisher_and_address date_only).
  vm_compute. reflexivity.
Defined.

(** X11.  A misc record (type compared in lower case) that leaves
    normalization with a url field also has a howpublished field. *)
Theorem misc_with_url_has_howpublished :
  forall (DT : Datetime) (entry_type key : pystr) (fields : list field)
         (entries_map : entries_map_t),
    Py.lower entry_type = py "misc" ->
    has_name (py "url")
      (normalize_fields entry_type key fields entries_map) = true ->
    has_name (py "howpublished")
      (normalize_fields entry_type key fields entries_map) = true.
Proof.
  intros DT entry_type key fields m Ht. unfold normalize_fields.
  destruct (fold_left (field_step key) (merge_crossref fields m) ([], None))
    as [nf note].
  rewrite !language_stage_names by (vm_compute; discriminate).
  apply misc_stage_online. exact Ht.
Qed.

Lemma misc_with_url_has_howpublished_witness :
  has_name (py "howpublished")
    (normalize_fields (py "Misc") (py "site2024")
       [(py "  ", py "url", py "https://example.org/a")] []) = true.
Proof.
  apply (misc_with_url_has_howpublished date_only);
    vm_compute; reflexivity.
Defined.

(** X12.  A record that has no doi, url or title field after
    normalization and ordering is never dropped as a duplicate: whatever
    was read before it, the loop of [main] emits its text and leaves the
    set of fingerprints and the count of dropped records as they were. *)
Theorem record_without_identity_is_kept :
  forall (DT : Datetime) (entries_map : entries_map_t) (st : run_state)
         (e : entry),
    is_record e = true ->
    Forall (fun f => str_in (Py.lower (f_name f))
                       [py "doi"; py "url"; py "title"] = false)
      (new_fields_of entries_map e) ->
    normalized_entries (process_step entries_map st e)
    = normalized_entries st ++ [emit entries_map e]
    /\ seen (process_step entries_map st e) = seen st
    /\ dropped (process_step entries_map st e) = dropped st.
Proof.
  intros DT m st e Hr Hf.
  assert (Hfp : fp_of m e = ([], [], [])).
  { destruct e as [[[t k] fs] u]. unfold fp_of, entry_fingerprint.
    apply fingerprint_untouched. exact Hf. }
  rewrite (process_step_cases m st e Hr), Hfp. cbn.
  repeat split; reflexivity.
Qed.

Lemma record_without_identity_is_kept_witness :
  normalized_entries
    (process_step (DT := date_only) [] (mkRun [] [([], [], py "x")] 0 0)
       (py "book", py "k", [(py "  ", py "author", py "Silva, Ana")], []))
  = [] ++ [emit (DT := date_only) []
             (py "book", py "k", [(py "  ", py "author", py "Silva, Ana")], [])]
  /\ seen
       (process_step (DT := date_only) [] (mkRun [] [([], [], py "x")] 0 0)
          (py "book", py "k", [(py "  ", py "author", py "Silva, Ana")], []))
     = [([], [], py "x")]
  /\ dropped
       (process_step (DT := date_only) [] (mkRun [] [([], [], py "x")] 0 0)
          (py "book", py "k", [(py "  ", py "author", py "Silva, Ana")], []))
     = 0.
Proof.
  apply (record_without_identity_is_kept date_only []
           (mkRun [] [([], [], py "x")] 0 0)
           (py "book", py "k", [(py "  ", py "author", py "Silva, Ana")], [])).
  - reflexivity.
  - apply Forall_forall. intros f Hf. vm_compute in Hf.
    repeat destruct Hf as [<-|Hf]; try contradiction; vm_compute; reflexivity.
Defined.

(** *** The characters of a matched text *)

Section Within.

Variable ic : bool.
Variable P : Py.char -> bool.

(** Every character an atom of the pattern accepts satisfies [P]. *)
Fixpoint atoms_within (r : regex) : Prop :=
  match r with
  | Eps | Bol | Eol | Wordb => True
  | Atom a | Rep a _ _ => forall c, atom_match ic a c = true -> P c = true
  | Seq r1 r2 | Alt r1 r2 => atoms_within r1 /\ atoms_within r2
  | Group _ r1 => atoms_within r1
  end.

Lemma sem_within (r : regex) :
  atoms_within r ->
  forall s s', ReSem.sem ic r s s' ->
    exists w, rest s = w ++ rest s' /\ forallb P w = true.
Proof.
  induction r as [|a|a mn mx|r1 IH1 r2 IH2|r1 IH1 r2 IH2|n r1 IH1| | |];
    cbn [atoms_within ReSem.sem]; intros Hat s s' H.
  - destruct H as [H _]. exists []. rewrite H. split; reflexivity.
  - destruct H as (c & E & Hc & _). exists [c]. split; [exact E|].
    cbn [forallb]. rewrite (Hat c Hc). reflexivity.
  - destruct H as (w & E & Hw & _). exists w. split; [exact E|].
    apply forallb_forall. intros c Hc. apply Hat.
    rewrite Forall_forall in Hw. apply Hw. exact Hc.
  - destruct Hat as [H1 H2]. destruct H as (s1 & Ha & Hb).
    destruct (IH1 H1 _ _ Ha) as (w1 & E1 & F1).
    destruct (IH2 H2 _ _ Hb) as (w2 & E2 & F2).
    exists (w1 ++ w2). split.
    + rewrite E1, E2, app_assoc. reflexivity.
    + rewrite forallb_app, F1, F2. reflexivity.
  - destruct Hat as [H1 H2]. destruct H as [H|H].
    + exact (IH1 H1 _ _ H).
    + exact (IH2 H2 _ _ H).
  - destruct H as (s1 & Ha & Er & _).
    destruct (IH1 Hat _ _ Ha) as (w & E & F).
    exists w. split; [rewrite Er; exact E | exact F].
  - destruct H as [H _]. exists []. rewrite H. split; reflexivity.
  - destruct H as [H _]. exists []. rewrite H. split; reflexivity.
  - destruct H as [H _]. exists []. rewrite H. split; reflexivity.
Qed.

(** A match is a part of the subject, made of characters the atoms
    accept. *)
Lemma match_here_text (r : regex) (p : option Py.char) (s : pystr) (m : mtch) :
  atoms_within r ->
  match_here ic r p s = Some m ->
  s = m_text m ++ m_after m /\ forallb P (m_text m) = true.
Proof.
  intros Hat H. unfold match_here in H.
  apply ReSem.rmatch_sound in H as (s' & Hsem & Hk).
  injection Hk as <-.
  destruct (sem_within r Hat _ _ Hsem) as (w & E & F).
  cbn [m_text m_after]. rewrite (ReSem.consumed_app _ _ _ E).
  split; [exact E | exact F].
Qed.

Lemma search_from_text (r : regex) :
  atoms_within r ->
  forall (s sk : pystr) (p : option Py.char) (g : pystr) (m : mtch),
    search_from ic r sk p s = Some (g, m) ->
    forallb P (m_text m) = true.
Proof.
  intros Hat. induction s as [|c s IH]; intros sk p g m H; cbn [search_from] in H.
  - destruct (match_here ic r p []) as [m'|] eqn:E; [|discriminate].
    injection H as _ <-. exact (proj2 (match_here_text r p [] Hat E)).
  - destruct (match_here ic r p (c :: s)) as [m'|] eqn:E.
    + injection H as _ <-. exact (proj2 (match_here_text r p (c :: s) Hat E)).
    + exact (IH _ _ _ _ H).
Qed.

End Within.

(** A text without white space. *)
Definition no_space (s : pystr) : bool :=
  forallb (fun c => negb (Py.isspace c)) s.

Lemma graphic_no_space (c : Py.char) :
  (33 <= c <= 126)%N -> negb (Py.isspace c) = true.
Proof.
  intros H. destruct (Py.isspace c) eqn:E; [|reflexivity].
  unfold Py.isspace, Py.in_range in E. ranges E. lia.
Qed.

Ltac atom_no_space :=
  let c := fresh "c" in
  let Hc := fresh "Hc" in
  intros c Hc;
  unfold atom_match, char_eq, item_match, existsb, Py.in_range in Hc;
  rewrite ?andb_false_r, ?orb_false_r in Hc;
  first
    [ exact Hc
    | apply graphic_no_space; ranges Hc; lia ].

Lemma http_url_atoms :
  atoms_within false (fun c => negb (Py.isspace c)) re_http_url.
Proof.
  let r := eval vm_compute in re_http_url in change re_http_url with r.
  cbn [atoms_within]. repeat split; atom_no_space.
Qed.

Lemma domain_atoms :
  atoms_within false (fun c => negb (Py.isspace c)) re_domain.
Proof.
  let r := eval vm_compute in re_domain in change re_domain with r.
  cbn [atoms_within]. repeat split; atom_no_space.
Qed.

Lemma lstrip_by_In (p : Py.char -> bool) (s : pystr) (c : Py.char) :
  In c (Py.lstrip_by p s) -> In c s.
Proof.
  induction s as [|d s IH]; simpl; [tauto|].
  destruct (p d); [intros H; right; exact (IH H) | tauto].
Qed.

Lemma rstrip_by_forallb (P p : Py.char -> bool) (s : pystr) :
  forallb P s = true -> forallb P (Py.rstrip_by p s) = true.
Proof.
  rewrite !forallb_forall. intros H c Hc. apply H.
  unfold Py.rstrip_by in Hc. apply in_rev in Hc.
  apply lstrip_by_In in Hc. apply in_rev. exact Hc.
Qed.

(** X13.  Whatever the value of a url field, the text [clean_url_value]
    returns for it, when it returns one, holds no white space. *)
Theorem clean_url_value_no_space (value url : pystr) :
  clean_url_value value = Some url -> no_space url = true.
Proof.
  unfold clean_url_value, search. intros H.
  destruct (search_from false re_http_url [] None
              (strip_angles (Py.strip value))) as [[g m]|] eqn:E1.
  - injection H as <-. apply rstrip_by_forallb.
    exact (@search_from_text false _ re_http_url http_url_atoms _ _ _ _ _ E1).
  - destruct (search_from false re_domain [] None
                (strip_angles (Py.strip value))) as [[g m]|] eqn:E2;
      [|discriminate].
    injection H as <-. exact (@search_from_text false _ re_domain domain_atoms _ _ _ _ _ E2).
Qed.

Lemma clean_url_value_no_space_witness :
  no_space (py "https://example.org/a") = true.
Proof.
  apply (@clean_url_value_no_space
           (py "  Disponivel em: <https://example.org/a>. Acesso em: 2 jan. 2020  ")).
  vm_compute. reflexivity.
Defined.

(** *** Substitution of a repeated class *)

Section SubPlus.

Variable ic : bool.
Variable a : atom.

Let refused (c : Py.char) : bool := negb (atom_match ic a c).

Lemma rep_zero_total (A : Type) (k : option Py.char -> pystr -> option A)
    (mx : option nat) (p : option Py.char) (s : pystr) :
  (forall q t, k q t <> None) ->
  rep_match ic a 0 mx k p s <> None.
Proof.
  intros Hk. destruct s as [|c s]; simpl.
  - destruct mx as [[|n]|]; apply Hk.
  - destruct mx as [[|n]|]; [apply Hk | |];
      (destruct (atom_match ic a c); [|apply Hk];
       match goal with
       | |- match ?R with _ => _ end <> None => destruct R
       end; [discriminate | apply Hk]).
Qed.

(** Where the class accepts the first character, the pattern matches. *)
Lemma plus_here_none (p : option Py.char) (c : Py.char) (s : pystr) :
  match_here ic (Plus a) p (c :: s) = None -> atom_match ic a c = false.
Proof.
  unfold match_here, Plus. cbn [rmatch rest prev caps rep_match option_map Nat.pred].
  destruct (atom_match ic a c); [|reflexivity].
  match goal with
  | |- match ?R with _ => _ end = None -> _ => destruct R eqn:E
  end; [discriminate|].
  exfalso. revert E. apply rep_zero_total. discriminate.
Qed.

Lemma plus_here_some (p : option Py.char) (s : pystr) (m : mtch) :
  match_here ic (Plus a) p s = Some m ->
  s = m_text m ++ m_after m /\ m_text m <> []
  /\ filter refused (m_text m) = [].
Proof.
  unfold match_here, Plus. intros H.
  apply ReSem.rmatch_sound in H as (s' & Hsem & Hk). injection Hk as <-.
  cbn [ReSem.sem rest caps] in Hsem. destruct Hsem as (w & E & Hw & Hn & _).
  cbn [m_text m_after].
  rewrite (@ReSem.consumed_app (mkState p s []) s' w E).
  repeat split.
  - exact E.
  - intros ->. simpl in Hn. lia.
  - clear E Hn. induction Hw as [|c w Hc _ IH]; [reflexivity|].
    cbn [filter]. unfold refused at 1. rewrite Hc. exact IH.
Qed.

(** The search passes over refused characters only. *)
Lemma search_plus (s : pystr) :
  forall (sk : pystr) (p : option Py.char),
    match search_from ic (Plus a) sk p s with
    | None => filter refused s = s
    | Some (gap, m) =>
        exists g, gap = rev sk ++ g
                  /\ s = g ++ m_text m ++ m_after m
                  /\ m_text m <> []
                  /\ filter refused g = g
                  /\ filter refused (m_text m) = []
    end.
Proof.
  induction s as [|c s IH]; intros sk p; cbn [search_from].
  - destruct (match_here ic (Plus a) p []) as [m|] eqn:E; [|reflexivity].
    destruct (plus_here_some _ _ E) as (Es & Hne & Hf).
    exists []. rewrite app_nil_r. repeat split; assumption.
  - destruct (match_here ic (Plus a) p (c :: s)) as [m|] eqn:E.
    + destruct (plus_here_some _ _ E) as (Es & Hne & Hf).
      exists []. rewrite app_nil_r. repeat split; assumption.
    + apply plus_here_none in E.
      assert (Hc : refused c = true) by (unfold refused; rewrite E; reflexivity).
      specialize (IH (c :: sk) (Some c)).
      destruct (search_from ic (Plus a) (c :: sk) (Some c) s) as [[gap m]|].
      * destruct IH as (g & Eg & Es & Hne & Fg & Fm).
        exists (c :: g). repeat split.
        -- rewrite Eg. cbn [rev]. rewrite <- app_assoc. reflexivity.
        -- cbn [app]. rewrite <- Es. reflexivity.
        -- exact Hne.
        -- cbn [filter]. rewrite Hc, Fg. reflexivity.
        -- exact Fm.
      * cbn [filter]. rewrite Hc, IH. reflexivity.
Qed.

Lemma scan_plus (fuel : nat) :
  forall (s : pystr) (p : option Py.char),
    List.length s < fuel ->
    flat_map (fun gm : pystr * mtch => fst gm ++ [])
      (fst (scan fuel ic (Plus a) p s))
    ++ snd (scan fuel ic (Plus a) p s)
    = filter refused s.
Proof.
  induction fuel as [|fuel IH]; intros s p Hlen; [lia|].
  cbn [scan]. pose proof (search_plus s [] p) as Hs.
  destruct (search_from ic (Plus a) [] p s) as [[gap m]|].
  - destruct Hs as (g & Eg & Es & Hne & Fg & Fm).
    cbn [rev app] in Eg. subst gap.
    destruct (m_text m) as [|c w] eqn:Em; [contradiction|].
    assert (Hl : List.length (m_after m) < fuel).
    { rewrite Es in Hlen. rewrite !length_app in Hlen. simpl in Hlen. lia. }
    specialize (IH (m_after m) (m_last m) Hl).
    destruct (scan fuel ic (Plus a) (m_last m) (m_after m)) as [ms tl].
    cbn [fst snd flat_map] in *.
    rewrite Es, !filter_app, Fg, Fm, <- IH, app_nil_r, <- app_assoc.
    reflexivity.
  - cbn [fst snd flat_map app]. symmetry. exact Hs.
Qed.

(** Deleting the runs of a class deletes the characters of the class. *)
Lemma sub_plus (s : pystr) : sub ic (Plus a) [] s = filter refused s.
Proof.
  unfold sub, finditer.
  pose proof (@scan_plus (S (List.length s)) s None (Nat.lt_succ_diag_r _)) as H.
  destruct (scan (S (List.length s)) ic (Plus a) None s) as [ms tl].
  exact H.
Qed.

End SubPlus.

(** The characters a title keeps in the fingerprint. *)
Definition title_char (c : Py.char) : bool :=
  Py.in_range (chr "a") (chr "z") c || Py.in_range (chr "0") (chr "9") c.





(** *** Names of one word *)

Section SubNone.

Variable ic : bool.
Variable a : atom.

(** A text in which the class accepts no character is left as it is by
    a substitution of its runs. *)
Lemma sub_plus_nothing (repl s : pystr) :
  forallb (fun c => negb (atom_match ic a c)) s = true ->
  sub ic (Plus a) repl s = s.
Proof.
  intros Hs. unfold sub, finditer. cbn [scan].
  pose proof (search_plus ic a s [] None) as H.
  destruct (search_from ic (Plus a) [] None s) as [[gap m]|]; [|reflexivity].
  exfalso. destruct H as (g & _ & Es & Hne & _ & Fm).
  rewrite Es, !forallb_app in Hs.
  apply andb_true_iff in Hs as [_ Hs]. apply andb_true_iff in Hs as [Hs _].
  destruct (m_text m) as [|c w]; [contradiction|].
  cbn [forallb filter] in Hs, Fm. apply andb_true_iff in Hs as [Hc _].
  rewrite Hc in Fm. discriminate.
Qed.

End SubNone.

Lemma lstrip_by_nothing (p : Py.char -> bool) (s : pystr) :
  forallb (fun c => negb (p c)) s = true -> Py.lstrip_by p s = s.
Proof.
  destruct s as [|c s]; [reflexivity|]. cbn [forallb Py.lstrip_by].
  intros H. apply andb_true_iff in H as [Hc _].
  apply negb_true_iff in Hc. rewrite Hc. reflexivity.
Qed.

Lemma strip_by_nothing (p : Py.char -> bool) (s : pystr) :
  forallb (fun c => negb (p c)) s = true -> Py.strip_by p s = s.
Proof.
  intros H. unfold Py.strip_by, Py.rstrip_by.
  rewrite (lstrip_by_nothing p s H), lstrip_by_nothing.
  - apply rev_involutive.
  - rewrite forallb_forall in *. intros c Hc. apply H. apply in_rev. exact Hc.
Qed.

Lemma split_ws_from_word (w : pystr) :
  no_space w = true ->
  forall cur,
    Py.split_ws_from cur w
    = match rev cur ++ w with [] => [] | _ => [rev cur ++ w] end.
Proof.
  induction w as [|c w IH]; intros Hw cur; cbn [Py.split_ws_from].
  - rewrite app_nil_r. destruct cur as [|d cur]; [reflexivity|].
    simpl. destruct (rev cur ++ [d]) eqn:E; [|reflexivity].
    apply app_eq_nil in E as [_ E]. discriminate.
  - unfold no_space in Hw. cbn [forallb] in Hw.
    apply andb_true_iff in Hw as [Hc Hw]. apply negb_true_iff in Hc.
    rewrite Hc, (IH Hw (c :: cur)). cbn [rev]. rewrite <- app_assoc.
    reflexivity.
Qed.

(** X15.  A name of one word (not empty, no white space, no comma) is
    formatted as that word in upper case. *)
Theorem format_author_single_word (name : pystr) :
  name <> [] -> no_space name = true -> Py.contains name (py ",") = false ->
  _format_author_abnt name = Py.upper name.
Proof.
  intros Hne Hs Hc. unfold _format_author_abnt.
  assert (Hstrip : Py.strip name = name) by (apply strip_by_nothing; exact Hs).
  assert (Hsub : sub false (Plus ws) (py " ") name = name).
  { apply sub_plus_nothing. unfold no_space in Hs.
    rewrite forallb_forall in *. intros c Hin. specialize (Hs c Hin).
    unfold ws, atom_match, item_match, existsb. rewrite orb_false_r.
    exact Hs. }
  rewrite Hstrip, Hsub. cbv zeta.
  destruct name as [|c name]; [contradiction|]. cbn [nonempty negb].
  rewrite Hc. unfold Py.split_ws.
  rewrite (@split_ws_from_word (c :: name) Hs []). reflexivity.
Qed.

Lemma format_author_single_word_witness :
  _format_author_abnt (py "Unesco") = Py.upper (py "Unesco").
Proof.
  apply format_author_single_word;
    [discriminate | vm_compute; reflexivity | vm_compute; reflexivity].
Defined.

(** *** Trivial notes *)

(** A field that is no note, or a note that [is_trivial_note] holds
    trivial. *)
Definition no_real_note (f : field) : bool :=
  negb (Py.eqb (Py.lower (f_name f)) (py "note"))
  || is_trivial_note (Py.strip (f_value f)).

Lemma has_name_appends (n : pystr) (allowed : list pystr)
    (nf result : list field) :
  str_in n allowed = false ->
  appends allowed nf result ->
  has_name n nf = false -> has_name n result = false.
Proof.
  intros Ha (ext & -> & He) Hn. rewrite has_name_app, Hn. simpl.
  apply str_in_not_In. intros Hin. apply in_map_iff in Hin as (g & Hg & Hin).
  rewrite Forall_forall in He. pose proof (He g Hin) as H.
  rewrite Hg in H. apply str_in_In in H. congruence.
Qed.

Section TrivialNotes.

Context {DT : Datetime}.

Lemma field_step_no_note (key : pystr) (nf : list field)
    (note : option pystr) (f : field) :
  no_real_note f = true ->
  has_name (py "note") nf = false ->
  has_name (py "note") (fst (field_step key (nf, note) f)) = false.
Proof.
  intros Hf Hnf. unfold no_real_note in Hf.
  destruct (Py.eqb (Py.lower (f_name f)) (py "note")) eqn:En.
  - cbn [negb orb] in Hf. destruct f as [[indent name] value].
    cbv [f_name f_value fst snd] in En, Hf. apply eqb_eq in En.
    unfold field_step. cbv zeta. rewrite En. unfold rewrite_value.
    eval_literals. cbv beta iota. rewrite Hf. cbn [andb fst]. exact Hnf.
  - destruct (field_step_names key nf note f) as (ext & -> & He).
    rewrite has_name_app, Hnf. cbn [orb].
    apply str_in_not_In. intros Hin.
    apply in_map_iff in Hin as (g & Hg & Hin).
    rewrite Forall_forall in He. destruct (He g Hin) as [Hn|[Hn _]].
    + rewrite Hg in Hn. simpl in Hn.
      destruct Hn as [Hn|[Hn|[]]]; vm_compute in Hn; discriminate.
    + rewrite Hg in Hn. rewrite <- Hn, eqb_refl in En. discriminate.
Qed.

Lemma loop_no_note (key : pystr) (merged : list field) :
  forallb no_real_note merged = true ->
  forall nf note,
    has_name (py "note") nf = false ->
    has_name (py "note") (fst (fold_left (field_step key) merged (nf, note)))
    = false.
Proof.
  induction merged as [|f merged IH]; intros H nf note Hnf; cbn [fold_left].
  - exact Hnf.
  - cbn [forallb] in H. apply andb_true_iff in H as [Hf H].
    pose proof (field_step_no_note key nf note f Hf Hnf) as H1.
    destruct (field_step key (nf, note) f) as [nf1 note1].
    apply (IH H). exact H1.
Qed.

End TrivialNotes.

(** X16.  Trivial notes are dropped: when every note field of the record
    (after the parent's fields are merged in) is held trivial by
    [is_trivial_note], no field of the normalized record is called
    "note". *)
Theorem trivial_notes_are_dropped :
  forall (DT : Datetime) (entry_type key : pystr) (fields : list field)
         (entries_map : entries_map_t),
    forallb no_real_note (merge_crossref fields entries_map) = true ->
    has_name (py "note")
      (normalize_fields entry_type key fields entries_map) = false.
Proof.
  intros DT entry_type key fields m H. unfold normalize_fields.
  pose proof (@loop_no_note DT key (merge_crossref fields m) H [] None
                eq_refl) as Hloop.
  destruct (fold_left (field_step key) (merge_crossref fields m) ([], None))
    as [nf note]. cbn [fst] in Hloop.
  assert (Hsyn : forall a b,
             (exists ext, b = a ++ ext /\ synthesized_only ext) ->
             has_name (py "note") a = false ->
             has_name (py "note") b = false).
  { intros a b Hab. apply (@has_name_appends (py "note") synthesized).
    - reflexivity.
    - exact Hab. }
  apply (Hsyn _ _ (language_stage_extends _)).
  apply (Hsyn _ _ (misc_stage_extends _ _ _ _)).
  apply (Hsyn _ _ (note_url_stage_extends _ _)).
  apply (Hsyn _ _ (bardin_defaults_extends _ _)).
  exact Hloop.
Qed.

Lemma trivial_notes_are_dropped_witness :
  has_name (py "note")
    (normalize_fields (py "misc") (py "site2024")
       [(py "  ", py "title", py "Um portal");
        (py "  ", py "Note", py "Acesso em: 2 jan 2020.")] []) = false.
Proof.
  apply (trivial_notes_are_dropped date_only). vm_compute. reflexivity.
Defined.

(** *** The deduplicator and what a fingerprint is made of *)

(** Deleting what is not a-z or 0-9. *)
Lemma sub_non_alnum (s : pystr) :
  sub false re_non_alnum (py "") s = filter title_char s.
Proof.
  change (py "") with (@nil Py.char). unfold re_non_alnum.
  rewrite sub_plus. apply filter_ext. intros c.
  unfold title_char, atom_match, item_match, existsb.
  rewrite negb_involutive, !andb_false_l, !orb_false_r. reflexivity.
Qed.

(** The parts of a fingerprint: the value of the doi or url field, and
    that of the title field, as the fingerprint holds them; empty when
    there is no such field. *)
Definition id_part (o : option pystr) : pystr :=
  match o with
  | Some v => Py.lower (Py.strip v)
  | None => []
  end.

Definition title_part (o : option pystr) : pystr :=
  match o with
  | Some v => filter title_char (Py.lower (Py.strip v))
  | None => []
  end.

Lemma first_value_absent (n : pystr) (fields : list field) :
  ~ In n (names_of fields) -> first_value n fields = None.
Proof.
  induction fields as [|[[i m] v] fields IH]; intros H; cbn [first_value];
    [reflexivity|].
  destruct (Py.eqb m n) eqn:E.
  - apply eqb_eq in E. exfalso. apply H. left. exact E.
  - apply IH. intros Hin. apply H. right. exact Hin.
Qed.

(** With lower-case names, each borne by one field, the loop of
    [entry_fingerprint] reads the doi, url and title fields. *)
Lemma fingerprint_fold (fields : list field) :
  NoDup (names_of fields) ->
  Forall (fun f => Py.lower (f_name f) = f_name f) fields ->
  forall doi url title,
    fold_left fingerprint_step fields (doi, url, title)
    = (match first_value (py "doi") fields with
       | Some v => Py.lower (Py.strip v)
       | None => doi
       end,
       match first_value (py "url") fields with
       | Some v => Py.lower (Py.strip v)
       | None => url
       end,
       match first_value (py "title") fields with
       | Some v => filter title_char (Py.lower (Py.strip v))
       | None => title
       end).
Proof.
  induction fields as [|[[i n] v] fields IH]; intros Hnd Hlow doi url title;
    cbn [fold_left first_value]; [reflexivity|].
  cbn [names_of map] in Hnd. inversion Hnd as [|? ? Hnot Hnd']; subst.
  inversion Hlow as [|? ? Hn Hlow']; subst. cbv [f_name fst snd] in Hn, Hnot.
  unfold fingerprint_step. rewrite Hn.
  destruct (Py.eqb n (py "doi")) eqn:Ed.
  { apply eqb_eq in Ed. subst n. rewrite (IH Hnd' Hlow').
    rewrite (first_value_absent _ _ Hnot). eval_literals. reflexivity. }
  destruct (Py.eqb n (py "url")) eqn:Eu.
  { apply eqb_eq in Eu. subst n. rewrite (IH Hnd' Hlow').
    rewrite (first_value_absent _ _ Hnot). eval_literals. reflexivity. }
  destruct (Py.eqb n (py "title")) eqn:Et.
  { apply eqb_eq in Et. subst n. rewrite (IH Hnd' Hlow').
    rewrite (first_value_absent _ _ Hnot), sub_non_alnum. reflexivity. }
  apply (IH Hnd' Hlow').
Qed.

Section Fingerprints.

Context {DT : Datetime}.

(** Normalization leaves lower-case names only. *)
Lemma normalized_names_lower (entry_type key : pystr) (fields : list field)
    (m : entries_map_t) (f : field) :
  In f (normalize_fields entry_type key fields m) ->
  Py.lower (f_name f) = f_name f.
Proof.
  intros Hin.
  destruct (normalize_fields_shape entry_type key fields m) as (ext & E & Hs).
  rewrite E in Hin. clear E. apply in_app_or in Hin as [Hin|Hin].
  - unfold loop_fields in Hin.
    destruct (loop_names key (merge_crossref fields m) [] None) as (e & E & He).
    rewrite E in Hin. simpl in Hin. rewrite Forall_forall in He.
    destruct (He f Hin) as (f0 & _ & [Hn|[Hn _]]).
    + simpl in Hn. destruct Hn as [<-|[<-|[]]]; vm_compute; reflexivity.
    + rewrite Hn. apply lower_idem.
  - unfold synthesized_only in Hs. rewrite Forall_forall in Hs.
    pose proof (Hs f Hin) as Hn. simpl in Hn.
    repeat destruct Hn as [<-|Hn]; try contradiction; vm_compute; reflexivity.
Qed.

(** The fingerprint [main] computes for an entry, part by part. *)
Lemma fp_of_parts (m : entries_map_t) (e : entry) :
  fp_of m e
  = (id_part (first_value (py "doi") (new_fields_of m e)),
     id_part (first_value (py "url") (new_fields_of m e)),
     title_part (first_value (py "title") (new_fields_of m e))).
Proof.
  destruct e as [[[t k] fs] u]. unfold fp_of, entry_fingerprint.
  rewrite fingerprint_fold.
  - unfold id_part, title_part.
    destruct (first_value (py "doi") _), (first_value (py "url") _),
      (first_value (py "title") _); reflexivity.
  - apply order_fields_NoDup.
  - apply Forall_forall. intros f Hf. unfold new_fields_of in Hf.
    apply order_fields_first in Hf as (g & Hg & ->).
    apply first_named_name in Hg as [_ Hin].
    change (f_name (restyle (first_indent (normalize_fields t k fs m)) g))
      with (f_name g).
    exact (normalized_names_lower _ _ _ _ _ Hin).
Qed.

End Fingerprints.

Definition rec_a : entry :=
  (py "article", py "a2020",
   [(py "  ", py "title", py "Deep Learning"); (py "  ", py "year", py "2015")],
   []).

Definition rec_b : entry :=
  (py "misc", py "b2021", [(py "  ", py "title", py "deep learning!")], []).

Definition rec_c : entry :=
  (py "misc", py "c2022", [(py "  ", py "year", py "2022")], []).

(** A book that has a title and nothing else. *)
Definition book_titled (key title : pystr) : entry :=
  (py "book", key, [(py "  ", py "title", title)], []).

(** C3, as stated, fails: the title part of the fingerprint keeps the
    characters a-z and 0-9 only, not every alphanumeric character.  Two
    records with the one title "Война и мир", made of letters, have an
    empty fingerprint, and both are kept; and the titles "Educação" and
    "Educao", which differ in two letters, have the same title part
    "educao", so that the second record is dropped. *)
Lemma title_letters_outside_ascii_are_lost :
  forallb Py.isalnum (py "Война") = true
  /\ fp_of [] (book_titled (py "a1") (py "Война и мир")) = ([], [], [])
  /\ normalized_entries
       (process_all []
          [book_titled (py "a1") (py "Война и мир");
           book_titled (py "a2") (py "Война и мир")])
     = [emit [] (book_titled (py "a1") (py "Война и мир"));
        emit [] (book_titled (py "a2") (py "Война и мир"))]
  /\ dropped
       (process_all []
          [book_titled (py "a1") (py "Война и мир");
           book_titled (py "a2") (py "Война и мир")]) = 0
  /\ forallb Py.isalnum (py "Educação") = true
  /\ fp_of [] (book_titled (py "b1") (py "Educação")) = ([], [], py "educao")
  /\ fp_of [] (book_titled (py "b2") (py "Educao")) = ([], [], py "educao")
  /\ normalized_entries
       (process_all []
          [book_titled (py "b1") (py "Educação");
           book_titled (py "b2") (py "Educao")])
     = [emit [] (book_titled (py "b1") (py "Educação"))]
  /\ dropped
       (process_all []
          [book_titled (py "b1") (py "Educação");
           book_titled (py "b2") (py "Educao")]) = 1.
Proof. repeat split; vm_compute; reflexivity. Qed.

(** C3, amended. The fingerprint of a record is made of the value of
    its doi field and that of its url field, each stripped and in lower
    case, and of the value of its title field, stripped, in lower case
    and reduced to its characters a-z and 0-9; a part is empty when the
    record, normalized and ordered, has no such field.  Records are
    processed in document order; [pre] are the entries read before the
    record [e].  If the fingerprint of [e] has a non-empty part and no
    record before it has that fingerprint, [e] is kept: its text is
    emitted and the count of dropped records stays.  If a record before
    it has that fingerprint, [e] is dropped and counted.  If the three
    parts are empty, [e] is kept whatever came before.  What is emitted
    stays in the output whatever follows. *)
Theorem dedup_keeps_first_drops_later :
  forall (DT : Datetime) (entries_map : entries_map_t)
         (pre post : list entry) (e : entry),
    is_record e = true ->
    let before := process_all entries_map pre in
    let after := process_all entries_map (pre ++ [e]) in
    let kept :=
      normalized_entries after = normalized_entries before ++ [emit entries_map e]
      /\ dropped after = dropped before in
    fp_of entries_map e
    = (id_part (first_value (py "doi") (new_fields_of entries_map e)),
       id_part (first_value (py "url") (new_fields_of entries_map e)),
       title_part (first_value (py "title") (new_fields_of entries_map e)))
    /\ (fp_of entries_map e <> ([], [], []) ->
        (forall e', In e' pre -> is_record e' = true ->
                    fp_of entries_map e' <> fp_of entries_map e) ->
        kept)
    /\ (fp_of entries_map e <> ([], [], []) ->
        (exists e', In e' pre /\ is_record e' = true
                    /\ fp_of entries_map e' = fp_of entries_map e) ->
        normalized_entries after = normalized_entries before
        /\ dropped after = S (dropped before))
    /\ (fp_of entries_map e = ([], [], []) -> kept)
    /\ (exists more,
           normalized_entries (process_all entries_map (pre ++ e :: post))
           = normalized_entries after ++ more).
Proof.
  intros DT m pre post e Hr. cbv zeta.
  split; [apply fp_of_parts|].
  rewrite process_all_snoc, (process_step_cases m _ _ Hr).
  split; [|split; [|split]].
  - intros Ha Hnew. apply fp_any_true in Ha.
    destruct (fp_in (fp_of m e) (seen (process_all m pre))) eqn:Es.
    + apply seen_char in Es as (e' & Hin & Hr' & _ & Hf).
      exfalso. exact (Hnew e' Hin Hr' Hf).
    + rewrite Ha. split; reflexivity.
  - intros Ha (e' & Hin & Hr' & Hf). apply fp_any_true in Ha.
    assert (Es : fp_in (fp_of m e) (seen (process_all m pre)) = true).
    { apply seen_char. exists e'. repeat split; try assumption. congruence. }
    rewrite Ha, Es. split; reflexivity.
  - intros Ha. apply fp_any_false in Ha. rewrite Ha. split; reflexivity.
  - rewrite <- (process_step_cases m _ _ Hr), <- process_all_snoc.
    replace (pre ++ e :: post) with ((pre ++ [e]) ++ post)
      by (rewrite <- app_assoc; reflexivity).
    unfold process_all at 1. rewrite fold_left_app.
    apply process_fold_extends.
Qed.

Lemma dedup_keeps_first_drops_later_witness :
  fp_of [] rec_b = ([], [], py "deeplearning")
  /\ dropped (process_all [] ([rec_a] ++ [rec_b]))
     = S (dropped (process_all [] [rec_a]))
  /\ normalized_entries (process_all [] ([rec_a] ++ [rec_b]))
     = normalized_entries (process_all [] [rec_a])
  /\ normalized_entries (process_all [] ([rec_c] ++ [rec_c]))
     = normalized_entries (process_all [] [rec_c]) ++ [emit [] rec_c].
Proof.
  destruct (dedup_keeps_first_drops_later date_only [] [rec_a] [] rec_b eq_refl)
    as (Hfp & _ & Hdrop & _ & _).
  destruct (dedup_keeps_first_drops_later date_only [] [rec_c] [] rec_c eq_refl)
    as (_ & _ & _ & Hempty & _).
  assert (Hab : normalized_entries (process_all [] ([rec_a] ++ [rec_b]))
                = normalized_entries (process_all [] [rec_a])
                /\ dropped (process_all [] ([rec_a] ++ [rec_b]))
                   = S (dropped (process_all [] [rec_a]))).
  { apply Hdrop; [intros Hx; vm_compute in Hx; discriminate Hx|].
    exists rec_a. split; [left; reflexivity|].
    split; vm_compute; reflexivity. }
  destruct Hab as [Hab1 Hab2].
  split; [rewrite Hfp; vm_compute; reflexivity|].
  split; [exact Hab2|]. split; [exact Hab1|].
  apply Hempty. vm_compute. reflexivity.
Defined.
